(** * Moltgram SDK (TypeScript): the request execution core

    A shallow embedding of [HttpClient], [MoltgramClient.validateConfig],
    the error classes of [utils/errors] and [validateApiKey] of
    [utils/validators], with the properties of the request executor:
    the status-to-error table, the retry decision, the backoff delay, the
    rate-limit snapshot and the URL builder.

    Conventions.  JavaScript numbers that the code only uses as integers
    (status codes, attempt indices, delays in milliseconds, seconds) are [Z];
    a number that may be [NaN] (the result of [parseInt]) is [number]; a
    number a caller passes to a validator is a rational, an infinity or
    [NaN].
    Strings are [string]s of bytes (UTF-8).  An optional field or an
    [undefined] value is an [option]. *)

From Stdlib Require Import ZArith List String Ascii Bool Lia.
From Stdlib Require Import DecimalString QArith.
Import ListNotations.
Open Scope string_scope.
Open Scope Z_scope.

(** ** JavaScript primitives used by the client *)

Module Js.

(** A JavaScript number restricted to the integers, plus [NaN]. *)
Inductive number : Type :=
| Num (z : Z)
| NaN.

(** [String(z)] for an integer. *)
Definition string_of_Z (z : Z) : string :=
  NilZero.string_of_int (Z.to_int z).

(** [String(n)]. *)
Definition string_of_number (n : number) : string :=
  match n with
  | Num z => string_of_Z z
  | NaN => "NaN"
  end.

(** Truthiness of a string: only the empty string is falsy. *)
Definition truthy_string (s : string) : bool :=
  match s with
  | EmptyString => false
  | String _ _ => true
  end.

(** Truthiness of an optional string ([undefined] is falsy). *)
Definition truthy (o : option string) : bool :=
  match o with
  | Some s => truthy_string s
  | None => false
  end.

(** [o || d] on an optional string with a string default. *)
Definition or_default (o : option string) (d : string) : string :=
  match o with
  | Some s => if truthy_string s then s else d
  | None => d
  end.

(** [o || d] on an optional integer: [undefined] and [0] are falsy. *)
Definition or_defaultZ (o : option Z) (d : Z) : Z :=
  match o with
  | Some z => if z =? 0 then d else z
  | None => d
  end.

(** [o ?? d]: only [undefined] takes the default. *)
Definition nullish {A : Type} (o : option A) (d : A) : A :=
  match o with
  | Some a => a
  | None => d
  end.

(** The one-character string holding a double quote. *)
Definition dquote : string := String (ascii_of_nat 34) EmptyString.

(** [s.startsWith(p)]. *)
Definition startsWith (s p : string) : bool := String.prefix p s.

(** [s.includes(p)]: [p] occurs somewhere in [s]. *)
Fixpoint includes (s p : string) : bool :=
  String.prefix p s ||
  match s with
  | EmptyString => false
  | String _ s' => includes s' p
  end.

(** ASCII case folding of one byte, as header names are compared. *)
Definition lower (c : ascii) : ascii :=
  let n := nat_of_ascii c in
  if (Nat.leb 65 n && Nat.leb n 90)%bool then ascii_of_nat (n + 32) else c.

Fixpoint toLowerCase (s : string) : string :=
  match s with
  | EmptyString => EmptyString
  | String c s' => String (lower c) (toLowerCase s')
  end.

(** White space skipped by [parseInt] (the ASCII part of it). *)
Definition is_space (c : ascii) : bool :=
  let n := nat_of_ascii c in
  (Nat.eqb n 32 || (Nat.leb 9 n && Nat.leb n 13))%bool.

Definition digit_of (c : ascii) : option Z :=
  let n := nat_of_ascii c in
  if (Nat.leb 48 n && Nat.leb n 57)%bool then Some (Z.of_nat (n - 48)) else None.

Fixpoint skip_spaces (s : string) : string :=
  match s with
  | String c s' => if is_space c then skip_spaces s' else s
  | EmptyString => s
  end.

(** The longest prefix of decimal digits, read most significant first;
    [None] when there is no digit at all. *)
Fixpoint digits (acc : option Z) (s : string) : option Z :=
  match s with
  | String c s' =>
      match digit_of c with
      | Some d => digits (Some (10 * nullish acc 0 + d)) s'
      | None => acc
      end
  | EmptyString => acc
  end.

(** [parseInt(s, 10)]: leading white space, an optional sign, decimal
    digits; whatever follows the digits is ignored; no digit gives [NaN]. *)
Definition parseInt (s : string) : number :=
  let s1 := skip_spaces s in
  let '(sign, s2) :=
    match s1 with
    | String "-" r => (-1, r)
    | String "+" r => (1, r)
    | _ => (1, s1)
    end in
  match digits None s2 with
  | Some n => Num (sign * n)
  | None => NaN
  end.

(** [a * b] on numbers. *)
Definition mul (a : number) (k : Z) : number :=
  match a with
  | Num z => Num (z * k)
  | NaN => NaN
  end.

(** [new Date(t)]: the time value in milliseconds, [NaN] (an invalid date)
    outside the range of dates. *)
Definition Date (t : number) : number :=
  match t with
  | Num z => if Z.abs z <=? 8640000000000000 then Num z else NaN
  | NaN => NaN
  end.

End Js.

(** ** What JavaScript sees of a string *)

Module Text.

Definition code (c : ascii) : nat := nat_of_ascii c.

(** [s.length]: the UTF-16 code units of the text the bytes encode, one
    for every character and two for a character of four bytes. *)
Fixpoint length (s : string) : Z :=
  match s with
  | EmptyString => 0
  | String c r =>
      (if (Nat.leb 128 (code c) && Nat.ltb (code c) 192)%bool then 0
       else if Nat.leb 240 (code c) then 2 else 1) + length r
  end.

(** White space and line terminators of one, two and three bytes, as
    [trim] removes them: U+0009 to U+000D, U+0020; U+00A0; U+1680, U+2000
    to U+200A, U+2028, U+2029, U+202F, U+205F, U+3000, U+FEFF. *)
Definition space1 (c : ascii) : bool :=
  (Nat.eqb (code c) 32 || (Nat.leb 9 (code c) && Nat.leb (code c) 13))%bool.

Definition space2 (c d : ascii) : bool :=
  (Nat.eqb (code c) 194 && Nat.eqb (code d) 160)%bool.

Definition space3 (c d e : ascii) : bool :=
  ((Nat.eqb (code c) 225 && Nat.eqb (code d) 154 && Nat.eqb (code e) 128)
   || (Nat.eqb (code c) 226 && Nat.eqb (code d) 128
       && ((Nat.leb 128 (code e) && Nat.leb (code e) 138)
           || Nat.eqb (code e) 168 || Nat.eqb (code e) 169 || Nat.eqb (code e) 175))
   || (Nat.eqb (code c) 226 && Nat.eqb (code d) 129 && Nat.eqb (code e) 159)
   || (Nat.eqb (code c) 227 && Nat.eqb (code d) 128 && Nat.eqb (code e) 128)
   || (Nat.eqb (code c) 239 && Nat.eqb (code d) 187 && Nat.eqb (code e) 191))%bool.

(** [s.trim().length === 0]: the string is white space throughout. *)
Fixpoint isBlank (s : string) : bool :=
  match s with
  | EmptyString => true
  | String c r =>
      if space1 c then isBlank r
      else
        match r with
        | String d r1 =>
            if space2 c d then isBlank r1
            else
              match r1 with
              | String e r2 => if space3 c d e then isBlank r2 else false
              | EmptyString => false
              end
        | EmptyString => false
        end
  end.

(** A character of the class [[a-z0-9_]] under the flag [i]. *)
Definition wordChar (c : ascii) : bool :=
  ((Nat.leb 48 (code c) && Nat.leb (code c) 57)
   || (Nat.leb 65 (code c) && Nat.leb (code c) 90)
   || (Nat.leb 97 (code c) && Nat.leb (code c) 122)
   || Nat.eqb (code c) 95)%bool.

Fixpoint allWord (s : string) : bool :=
  match s with
  | EmptyString => true
  | String c r => wordChar c && allWord r
  end.

(** [/^[a-z0-9_]{2,max}$/i.test(s)]. *)
Definition matchesName (max : nat) (s : string) : bool :=
  allWord s && Nat.leb 2 (String.length s) && Nat.leb (String.length s) max.

(** The rest of [s] after the prefix [p], when [s] starts with it. *)
Fixpoint dropPrefix (p s : string) : option string :=
  match p, s with
  | EmptyString, _ => Some s
  | String a p', String b s' => if Ascii.eqb a b then dropPrefix p' s' else None
  | String _ _, EmptyString => None
  end.

(** The string starts with a character that [.] matches: any but the line
    terminators U+000A, U+000D, U+2028 and U+2029. *)
Definition startsWithDot (s : string) : bool :=
  match s with
  | EmptyString => false
  | String c r =>
      if (Nat.eqb (code c) 10 || Nat.eqb (code c) 13)%bool then false
      else
        match r with
        | String d (String e _) =>
            negb (Nat.eqb (code c) 226 && Nat.eqb (code d) 128
                  && (Nat.eqb (code e) 168 || Nat.eqb (code e) 169))
        | _ => true
        end
  end.

(** [/^https?:\/\/.+/i.test(s)]. *)
Definition matchesUrl (s : string) : bool :=
  let l := Js.toLowerCase s in
  match dropPrefix "https://" l with
  | Some rest => startsWithDot rest
  | None =>
      match dropPrefix "http://" l with
      | Some rest => startsWithDot rest
      | None => false
      end
  end.

End Text.

(** ** The error classes ([utils/errors]) *)

Module Errors.

(** The class an error object was constructed by; [instanceof] looks at it. *)
Inductive ErrorClass : Type :=
| CMoltgramError
| CAuthenticationError
| CForbiddenError
| CNotFoundError
| CValidationError
| CRateLimitError
| CConflictError
| CNetworkError
| CTimeoutError.

Definition ErrorClass_eqb (a b : ErrorClass) : bool :=
  match a, b with
  | CMoltgramError, CMoltgramError
  | CAuthenticationError, CAuthenticationError
  | CForbiddenError, CForbiddenError
  | CNotFoundError, CNotFoundError
  | CValidationError, CValidationError
  | CRateLimitError, CRateLimitError
  | CConflictError, CConflictError
  | CNetworkError, CNetworkError
  | CTimeoutError, CTimeoutError => true
  | _, _ => false
  end.

(** An instance of [MoltgramError] or of one of its subclasses.
    [retryAfter] and [resetAt] are the fields [RateLimitError] adds,
    [errors] the one [ValidationError] adds. *)
Record MoltgramError : Type := mkMoltgramError {
  class : ErrorClass;
  message : string;
  statusCode : Z;
  code : option string;
  hint : option string;
  retryAfter : option Z;
  resetAt : option Js.number;
  errors : option (list (string * list string))
}.

(** [this.name]. *)
Definition name (e : MoltgramError) : string :=
  match class e with
  | CMoltgramError => "MoltgramError"
  | CAuthenticationError => "AuthenticationError"
  | CForbiddenError => "ForbiddenError"
  | CNotFoundError => "NotFoundError"
  | CValidationError => "ValidationError"
  | CRateLimitError => "RateLimitError"
  | CConflictError => "ConflictError"
  | CNetworkError => "NetworkError"
  | CTimeoutError => "TimeoutError"
  end.

(** [super(message, statusCode, code, hint)] for class [c]. *)
Definition base (c : ErrorClass) (message : string) (statusCode : Z)
    (code hint : option string) : MoltgramError :=
  {| class := c; message := message; statusCode := statusCode;
     code := code; hint := hint;
     retryAfter := None; resetAt := None; errors := None |}.

(** [new MoltgramError(message, statusCode = 500, code, hint)]. *)
Definition newMoltgramError (message : string) (statusCode : option Z)
    (code hint : option string) : MoltgramError :=
  base CMoltgramError message (Js.nullish statusCode 500) code hint.

Definition newAuthenticationError (message : option string) (hint : option string) : MoltgramError :=
  base CAuthenticationError (Js.nullish message "Authentication required") 401
    (Some "UNAUTHORIZED") (Some (Js.or_default hint "Check your API key")).

Definition newForbiddenError (message : option string) (hint : option string) : MoltgramError :=
  base CForbiddenError (Js.nullish message "Access denied") 403 (Some "FORBIDDEN") hint.

Definition newNotFoundError (message : option string) (hint : option string) : MoltgramError :=
  base CNotFoundError (Js.nullish message "Resource not found") 404 (Some "NOT_FOUND") hint.

Definition newValidationError (msg : option string) (cd hnt : option string)
    (errs : option (list (string * list string))) : MoltgramError :=
  let e := base CValidationError (Js.nullish msg "Validation failed") 400
             (Some (Js.or_default cd "VALIDATION_ERROR")) hnt in
  {| class := class e; message := message e; statusCode := statusCode e;
     code := code e; hint := hint e;
     retryAfter := None; resetAt := None; errors := errs |}.

(** [new RateLimitError(message, retryAfter = 60, hint)], constructed when
    [Date.now()] is [now]. *)
Definition newRateLimitError (now : Z) (msg : option string)
    (retry : option Z) (hnt : option string) : MoltgramError :=
  let secs := Js.nullish retry 60 in
  let e := base CRateLimitError (Js.nullish msg "Rate limit exceeded") 429
             (Some "RATE_LIMITED")
             (Some (Js.or_default hnt
                      ("Try again in " ++ Js.string_of_Z secs ++ " seconds"))) in
  {| class := class e; message := message e; statusCode := statusCode e;
     code := code e; hint := hint e;
     retryAfter := Some secs;
     resetAt := Some (Js.Date (Js.Num (now + secs * 1000)));
     errors := None |}.

Definition newConflictError (message : option string) (hint : option string) : MoltgramError :=
  base CConflictError (Js.nullish message "Resource already exists") 409 (Some "CONFLICT") hint.

Definition newNetworkError (message : option string) : MoltgramError :=
  base CNetworkError (Js.nullish message "Network request failed") 0
    (Some "NETWORK_ERROR") (Some "Check your internet connection").

Definition newTimeoutError (message : option string) (timeoutMs : option Z) : MoltgramError :=
  base CTimeoutError (Js.nullish message "Request timed out") 0 (Some "TIMEOUT")
    (Some (match timeoutMs with
           | Some ms => if ms =? 0 then "Request took too long"
                        else "Request exceeded " ++ Js.string_of_Z ms ++ "ms"
           | None => "Request took too long"
           end)).

(** [class ConfigurationError extends Error]: it is not a [MoltgramError]. *)
Record ConfigurationError : Type := newConfigurationError {
  configMessage : string
}.

(** Whatever a [throw] or a rejected promise can carry in this code. *)
Inductive Thrown : Type :=
| ThrownMoltgram (e : MoltgramError)
| ThrownConfiguration (e : ConfigurationError)
| ThrownTypeError (msg : string)      (* a [TypeError], as a failed [fetch] rejects with *)
| ThrownAbortError                    (* the [AbortError] of an aborted [fetch] *)
| ThrownSyntaxError                   (* [response.json()] on a malformed body *)
| ThrownUndefined.                    (* [throw lastError] with nothing assigned *)

(** [error instanceof MoltgramError]. *)
Definition isMoltgramError (t : Thrown) : bool :=
  match t with
  | ThrownMoltgram _ => true
  | _ => false
  end.

(** [error instanceof C] for a leaf class [C]. *)
Definition instanceOf (c : ErrorClass) (t : Thrown) : bool :=
  match t with
  | ThrownMoltgram e => ErrorClass_eqb (class e) c
  | _ => false
  end.

Definition isRateLimitError : Thrown -> bool := instanceOf CRateLimitError.
Definition isAuthenticationError : Thrown -> bool := instanceOf CAuthenticationError.

End Errors.

(** ** Constants ([utils/constants]) *)

Module Constants.
Definition DEFAULT_BASE_URL : string := "https://www.moltgram.com/api/v1".
Definition DEFAULT_TIMEOUT : Z := 30000.
Definition DEFAULT_RETRIES : Z := 3.
Definition DEFAULT_RETRY_DELAY : Z := 1000.
Definition MAX_RETRY_DELAY : Z := 30000.
Definition API_KEY_PREFIX : string := "moltgram_".
End Constants.

(** ** Validators ([utils/validators]) *)

Module Validators.
Import Errors.

(** [validateApiKey]: [None] when it returns, [Some e] when it throws [e]. *)
Definition validateApiKey (apiKey : option string) : option ConfigurationError :=
  if negb (Js.truthy apiKey) then None
  else
    let k := Js.nullish apiKey "" in
    if negb (Js.startsWith k Constants.API_KEY_PREFIX)
    then Some (newConfigurationError
                 ("apiKey must start with " ++ Js.dquote ++ Constants.API_KEY_PREFIX ++ Js.dquote))
    else if Text.length k <? 25
    then Some (newConfigurationError "apiKey is too short")
    else None.

Definition isValidApiKey (apiKey : string) : bool :=
  Js.startsWith apiKey Constants.API_KEY_PREFIX && (25 <=? Text.length apiKey).

End Validators.

(** ** Plain objects used as string-keyed records *)

Module Obj.

(** [Record<string, V>]: the own properties in [Object.entries] order. *)
Definition t (V : Type) : Type := list (string * V).

(** [o[k] = v]: overwrite in place, or add the property last. *)
Fixpoint set {V : Type} (o : t V) (k : string) (v : V) : t V :=
  match o with
  | [] => [(k, v)]
  | (k', v') :: o' => if String.eqb k' k then (k, v) :: o' else (k', v') :: set o' k v
  end.

(** [{ ...a, ...b }]. *)
Definition spread {V : Type} (a b : t V) : t V :=
  fold_left (fun o kv => set o (fst kv) (snd kv)) b a.

End Obj.

(** ** The platform: [URL], [Headers], [Response], [fetch] *)

Module Web.

(** *** URLs *)

(** A parsed [URL]: everything up to the query ([stem]: scheme, host,
    path), the query as serialised, the [searchParams] list that is kept
    in step with it, and the fragment. *)
Record URL : Type := mkURL {
  stem : string;
  query : option string;
  searchParams : list (string * string);
  fragment : option string
}.

Definition hex_digit (n : nat) : ascii :=
  if Nat.ltb n 10 then ascii_of_nat (48 + n) else ascii_of_nat (55 + n).

(** Bytes the [application/x-www-form-urlencoded] serialiser leaves as
    they are: ASCII letters and digits and [* - . _]. *)
Definition urlencoded_safe (c : ascii) : bool :=
  let n := nat_of_ascii c in
  ((Nat.leb 48 n && Nat.leb n 57) || (Nat.leb 65 n && Nat.leb n 90)
   || (Nat.leb 97 n && Nat.leb n 122)
   || Nat.eqb n 42 || Nat.eqb n 45 || Nat.eqb n 46 || Nat.eqb n 95)%bool.

(** One byte, form-urlencoded: a space is [+], an unsafe byte is [%XX]. *)
Definition urlencode_byte (c : ascii) : string :=
  let n := nat_of_ascii c in
  if urlencoded_safe c then String c EmptyString
  else if Nat.eqb n 32 then "+"
  else String "%" (String (hex_digit (Nat.div n 16)) (String (hex_digit (Nat.modulo n 16)) EmptyString)).

Fixpoint urlencode (s : string) : string :=
  match s with
  | EmptyString => EmptyString
  | String c s' => urlencode_byte c ++ urlencode s'
  end.

(** One [name=value] piece of a serialised query. *)
Definition pair_piece (kv : string * string) : string :=
  urlencode (fst kv) ++ "=" ++ urlencode (snd kv).

(** The [application/x-www-form-urlencoded] serialisation of a list. *)
Definition serialize (l : list (string * string)) : string :=
  String.concat "&" (map pair_piece l).

(** [url.searchParams.append(k, v)]: the pair goes last and the query of
    the URL becomes the serialisation of the list. *)
Definition append (u : URL) (k v : string) : URL :=
  let l := (searchParams u ++ [(k, v)])%list in
  {| stem := stem u; query := Some (serialize l);
     searchParams := l; fragment := fragment u |}.

(** [url.toString()]. *)
Definition toString (u : URL) : string :=
  stem u
  ++ match query u with Some q => "?" ++ q | None => "" end
  ++ match fragment u with Some f => "#" ++ f | None => "" end.

(** *** Response headers *)

(** A [Headers] object: the header lines of a response, in order. *)
Definition Headers : Type := list (string * string).

(** [headers.get(name)]: names compare without case; the values of
    repeated headers are joined with a comma and a space; [null] when
    there is none. *)
Definition get (h : Headers) (name : string) : option string :=
  match filter (fun kv => String.eqb (Js.toLowerCase (fst kv)) (Js.toLowerCase name)) h with
  | [] => None
  | vs => Some (String.concat ", " (map snd vs))
  end.

(** *** Bodies and responses *)

(** A parsed JSON body, as the client reads it ([ApiErrorResponse]): the
    four optional fields it looks at, the rest kept as opaque text.  The
    body is an object, as the declared type has it; [retryAfter] is a whole
    number of seconds.  A body that is the JSON value [null] is in
    [Raw.Parsed]. *)
Record Json : Type := mkJson {
  error : option string;
  code : option string;
  hint : option string;
  retryAfter : option Z;
  payload : string
}.

(** A [Response]; [body] is [None] when [response.json()] rejects. *)
Record Response : Type := mkResponse {
  status : Z;
  statusText : string;
  headers : Headers;
  body : option Json
}.

(** [response.ok]. *)
Definition ok (r : Response) : bool := (200 <=? status r) && (status r <=? 299).

(** *** The network *)

(** What one [fetch] call does if nobody aborts it: it resolves with a
    response or rejects with a [TypeError] after some milliseconds, or it
    never settles. *)
Inductive FetchOutcome : Type :=
| Resolves (after : Z) (r : Response)
| Rejects (after : Z) (msg : string)
| Pending.

(** The arguments of one [fetch] call. *)
Record FetchCall : Type := mkFetchCall {
  call_url : string;
  call_method : string;
  call_headers : Obj.t string;
  call_body : option string
}.

(** The world around the client: the clock ([Date.now()]), the calls made
    so far and the delays slept, and the behaviour of the platform: what
    the [n]-th [fetch] call does and what [new URL(path, base)] gives
    ([None] when it throws). *)
Record World : Type := mkWorld {
  now : Z;
  fetches : list FetchCall;
  sleeps : list Z;
  network : nat -> FetchOutcome;
  newURL : string -> string -> option URL
}.

Definition tick (w : World) (ms : Z) : World :=
  {| now := now w + Z.max 0 ms; fetches := fetches w; sleeps := sleeps w;
     network := network w; newURL := newURL w |}.

Definition record_fetch (w : World) (c : FetchCall) : World :=
  {| now := now w; fetches := (fetches w ++ [c])%list; sleeps := sleeps w;
     network := network w; newURL := newURL w |}.

Definition record_sleep (w : World) (ms : Z) : World :=
  {| now := now w; fetches := fetches w; sleeps := (sleeps w ++ [ms])%list;
     network := network w; newURL := newURL w |}.

End Web.

(** ** [HttpClient] *)

Module Http.
Import Errors Web.

(** [RateLimitInfo]: [resetAt] is the time value of the [Date]. *)
Record RateLimitInfo : Type := mkRateLimitInfo {
  limit : Js.number;
  remaining : Js.number;
  resetAt : Js.number
}.

(** [HttpClientConfig] (and [MoltgramClientConfig], which has the same
    fields).  The three numbers are whole numbers here: a configuration
    with [NaN] or a fraction for one of them is outside this record. *)
Record HttpClientConfig : Type := mkConfig {
  cfg_apiKey : option string;
  cfg_baseUrl : option string;
  cfg_timeout : option Z;
  cfg_retries : option Z;
  cfg_retryDelay : option Z;
  cfg_headers : option (Obj.t string)
}.

(** The two variables of [process.env] the constructor reads. *)
Record ProcessEnv : Type := mkEnv {
  MOLTBOOK_API_KEY : option string;
  MOLTBOOK_BASE_URL : option string
}.

(** The fields of an [HttpClient] instance. *)
Record HttpClient : Type := mkHttpClient {
  apiKey : option string;
  baseUrl : string;
  timeout : Z;
  retries : Z;
  retryDelay : Z;
  customHeaders : Obj.t string;
  rateLimitInfo : option RateLimitInfo
}.

(** [RequestConfig].  A query value is a string or a number, or
    [undefined]; [req_body] is [JSON.stringify(config.body)] when
    [config.body] is truthy and serialises.  The request on the body as the
    caller gives it, whose serialisation may throw, is [Raw.request]. *)
Inductive QueryValue : Type :=
| QString (s : string)
| QNumber (z : Z).

Record RequestConfig : Type := mkRequest {
  req_method : string;
  req_path : string;
  req_body : option string;
  req_query : option (Obj.t (option QueryValue));
  req_headers : option (Obj.t string)
}.

(** [a || b] where [b] may be [undefined] too. *)
Definition or_else (a b : option string) : option string :=
  if Js.truthy a then a else b.

(** [new HttpClient(config)]. *)
Definition constructor (env : ProcessEnv) (config : HttpClientConfig) : HttpClient :=
  {| apiKey := or_else (cfg_apiKey config) (MOLTBOOK_API_KEY env);
     baseUrl := Js.or_default (or_else (cfg_baseUrl config) (MOLTBOOK_BASE_URL env))
                  Constants.DEFAULT_BASE_URL;
     timeout := Js.or_defaultZ (cfg_timeout config) Constants.DEFAULT_TIMEOUT;
     retries := Js.nullish (cfg_retries config) Constants.DEFAULT_RETRIES;
     retryDelay := Js.or_defaultZ (cfg_retryDelay config) Constants.DEFAULT_RETRY_DELAY;
     customHeaders := Js.nullish (cfg_headers config) [];
     rateLimitInfo := None |}.

(** *** Computations: state and exceptions

    A method runs on the instance and the world around it, and either
    returns a value or throws. *)

Record State : Type := mkState {
  this : HttpClient;
  world : World
}.

Inductive Completion (A : Type) : Type :=
| Normal (a : A)
| Throw (t : Thrown).
Arguments Normal {A} a.
Arguments Throw {A} t.

Definition M (A : Type) : Type := State -> Completion A * State.

Definition ret {A : Type} (a : A) : M A := fun st => (Normal a, st).

Definition throw {A : Type} (t : Thrown) : M A := fun st => (Throw t, st).

Definition bind {A B : Type} (m : M A) (k : A -> M B) : M B :=
  fun st =>
    match m st with
    | (Normal a, st') => k a st'
    | (Throw t, st') => (Throw t, st')
    end.

(** [try { m } catch (error) { h error }]. *)
Definition try_catch {A : Type} (m : M A) (h : Thrown -> M A) : M A :=
  fun st =>
    match m st with
    | (Normal a, st') => (Normal a, st')
    | (Throw t, st') => h t st'
    end.

Definition getThis : M HttpClient := fun st => (Normal (this st), st).

Definition getWorld : M World := fun st => (Normal (world st), st).

Definition putWorld (w : World) : M unit :=
  fun st => (Normal tt, {| this := this st; world := w |}).

Definition setRateLimitInfo (i : option RateLimitInfo) : M unit :=
  fun st =>
    let c := this st in
    (Normal tt,
     {| this := {| apiKey := apiKey c; baseUrl := baseUrl c; timeout := timeout c;
                   retries := retries c; retryDelay := retryDelay c;
                   customHeaders := customHeaders c; rateLimitInfo := i |};
        world := world st |}).

Notation "x <- m ;; k" := (bind m (fun x => k))
  (at level 61, m at next level, right associativity).
Notation "m ;;; k" := (bind m (fun _ => k))
  (at level 61, right associativity).

(** [setApiKey]. *)
Definition setApiKey (k : string) : M unit :=
  fun st =>
    let c := this st in
    (Normal tt,
     {| this := {| apiKey := Some k; baseUrl := baseUrl c; timeout := timeout c;
                   retries := retries c; retryDelay := retryDelay c;
                   customHeaders := customHeaders c; rateLimitInfo := rateLimitInfo c |};
        world := world st |}).

(** [getRateLimitInfo]. *)
Definition getRateLimitInfo : M (option RateLimitInfo) :=
  c <- getThis ;; ret (rateLimitInfo c).

(** The header object [buildHeaders] returns for a client. *)
Definition headersOf (c : HttpClient) (additionalHeaders : option (Obj.t string)) : Obj.t string :=
  let headers :=
    Obj.spread
      (Obj.spread
         [("Content-Type", "application/json");
          ("User-Agent", "MoltgramSDK/1.0.0 TypeScript")]
         (customHeaders c))
      (Js.nullish additionalHeaders []) in
  if Js.truthy (apiKey c)
  then Obj.set headers "Authorization" ("Bearer " ++ Js.nullish (apiKey c) "")
  else headers.

(** [buildHeaders]. *)
Definition buildHeaders (additionalHeaders : option (Obj.t string)) : M (Obj.t string) :=
  c <- getThis ;;
  ret (headersOf c additionalHeaders).

(** [String(value)] of a query value. *)
Definition String_of (v : QueryValue) : string :=
  match v with
  | QString s => s
  | QNumber z => Js.string_of_Z z
  end.

(** The [forEach] of [buildUrl]: one [append] for every entry whose value
    is not [undefined]. *)
Definition appendEntries (url : URL) (entries : Obj.t (option QueryValue)) : URL :=
  fold_left
    (fun u kv =>
       match snd kv with
       | Some value => append u (fst kv) (String_of value)
       | None => u
       end)
    entries url.

(** The body of [buildUrl] once [new URL(path, base)] has given [url]. *)
Definition urlOf (url : URL) (query : option (Obj.t (option QueryValue))) : URL :=
  match query with
  | Some q => appendEntries url q
  | None => url
  end.

(** [buildUrl]. *)
Definition buildUrl (path : string) (query : option (Obj.t (option QueryValue))) : M string :=
  c <- getThis ;;
  w <- getWorld ;;
  match newURL w path (baseUrl c) with
  | None => throw (ThrownTypeError "Invalid URL")
  | Some url => ret (toString (urlOf url query))
  end.

(** [parseRateLimitHeaders]. *)
Definition parseRateLimitHeaders (h : Headers) : M unit :=
  let limit := get h "X-RateLimit-Limit" in
  let remaining := get h "X-RateLimit-Remaining" in
  let reset := get h "X-RateLimit-Reset" in
  if Js.truthy limit && Js.truthy remaining && Js.truthy reset
  then setRateLimitInfo
         (Some {| limit := Js.parseInt (Js.nullish limit "");
                  remaining := Js.parseInt (Js.nullish remaining "");
                  resetAt := Js.Date (Js.mul (Js.parseInt (Js.nullish reset "")) 1000) |})
  else ret tt.

(** The [errorData] of [handleErrorResponse]: the parsed body, or the
    stand-in built when [response.json()] fails. *)
Definition errorDataOf (response : Response) : Json :=
  match body response with
  | Some j => j
  | None =>
      {| error := Some ("HTTP " ++ Js.string_of_Z (status response) ++ ": " ++ statusText response);
         code := None; hint := None; retryAfter := None; payload := "" |}
  end.

(** The error [handleErrorResponse] throws for [response] when
    [Date.now()] is [t]. *)
Definition errorFor (t : Z) (response : Response) : MoltgramError :=
  let errorData := errorDataOf response in
  let message := Js.or_default (error errorData) "Unknown error" in
  let hint := Web.hint errorData in
  let st := status response in
  if st =? 401 then newAuthenticationError (Some message) hint
  else if st =? 403 then newForbiddenError (Some message) hint
  else if st =? 404 then newNotFoundError (Some message) hint
  else if st =? 429 then
    newRateLimitError t (Some message) (Some (Js.or_defaultZ (retryAfter errorData) 60)) hint
  else if st =? 400 then newValidationError (Some message) (Web.code errorData) hint None
  else newMoltgramError message (Some st) (Web.code errorData) hint.

(** [handleErrorResponse]: it always throws. *)
Definition handleErrorResponse {A : Type} (response : Response) : M A :=
  w <- getWorld ;;
  throw (ThrownMoltgram (errorFor (now w) response)).

(** [error.statusCode] of a thrown [MoltgramError]. *)
Definition statusOf (error : Thrown) : option Z :=
  match error with
  | ThrownMoltgram e => Some (statusCode e)
  | _ => None
  end.

(** [shouldRetry]. *)
Definition shouldRetry (c : HttpClient) (error : Thrown) (attempt : Z) : bool :=
  if retries c <=? attempt then false
  else
    match statusOf error with
    | Some sc =>
        if (400 <=? sc) && (sc <? 500) then isRateLimitError error
        else instanceOf CNetworkError error || (500 <=? sc)
    | None => false
    end.

(** [getRetryDelay].  A [RateLimitError] always has its [retryAfter]. *)
Definition getRetryDelay (c : HttpClient) (attempt : Z) (error : Thrown) : Z :=
  match error with
  | ThrownMoltgram e =>
      if ErrorClass_eqb (class e) CRateLimitError
      then Js.nullish (Errors.retryAfter e) 0 * 1000
      else retryDelay c * 2 ^ attempt
  | _ => retryDelay c * 2 ^ attempt
  end.

(** [sleep]. *)
Definition sleep (ms : Z) : M unit :=
  w <- getWorld ;;
  putWorld (tick (record_sleep w ms) ms).

(** [fetch(url, { ..., signal })] under the guard
    [setTimeout(() => controller.abort(), this.timeout)]: when the call has
    not settled after [timeout] milliseconds it is aborted and rejects with
    the [AbortError]. *)
Definition fetchWithAbort (call : FetchCall) (timeoutMs : Z) : M Response :=
  w <- getWorld ;;
  let w' := record_fetch w call in
  match network w (List.length (fetches w)) with
  | Resolves after r =>
      if after <? timeoutMs then putWorld (tick w' after) ;;; ret r
      else putWorld (tick w' timeoutMs) ;;; throw ThrownAbortError
  | Rejects after msg =>
      if after <? timeoutMs then putWorld (tick w' after) ;;; throw (ThrownTypeError msg)
      else putWorld (tick w' timeoutMs) ;;; throw ThrownAbortError
  | Pending => putWorld (tick w' timeoutMs) ;;; throw ThrownAbortError
  end.

(** [response.json()] of a successful response. *)
Definition json (response : Response) : M Json :=
  match body response with
  | Some j => ret j
  | None => throw ThrownSyntaxError
  end.

(** The [try] block of [request]: one attempt. *)
Definition attemptOnce (url : string) (config : RequestConfig) (headers : Obj.t string) : M Json :=
  c <- getThis ;;
  response <- fetchWithAbort
                {| call_url := url; call_method := req_method config;
                   call_headers := headers; call_body := req_body config |}
                (timeout c) ;;
  parseRateLimitHeaders (Web.headers response) ;;;
  if negb (ok response) then handleErrorResponse response
  else json response.

(** The first statements of the [catch] block: a [TypeError] whose message
    mentions [fetch] becomes a [NetworkError]. *)
Definition classify (error : Thrown) : Thrown :=
  match error with
  | ThrownTypeError msg =>
      if Js.includes msg "fetch"
      then ThrownMoltgram (newNetworkError (Some "Network request failed"))
      else error
  | _ => error
  end.

(** The [for] loop of [request], with [n] iterations left: it runs the
    body for [attempt = 0, ..., retries], and [throw lastError] follows. *)
Fixpoint requestLoop (n : nat) (attempt : Z) (lastError : Thrown)
    (url : string) (config : RequestConfig) (headers : Obj.t string) : M Json :=
  match n with
  | O => throw lastError
  | S n' =>
      try_catch (attemptOnce url config headers)
        (fun error =>
           let lastError := classify error in
           c <- getThis ;;
           if negb (shouldRetry c lastError attempt) then throw lastError
           else
             sleep (getRetryDelay c attempt lastError) ;;;
             requestLoop n' (attempt + 1) lastError url config headers)
  end.

(** [request]. *)
Definition request (config : RequestConfig) : M Json :=
  url <- buildUrl (req_path config) (req_query config) ;;
  headers <- buildHeaders (req_headers config) ;;
  c <- getThis ;;
  requestLoop (Z.to_nat (retries c + 1)) 0 ThrownUndefined url config headers.

End Http.


(** ** [MoltgramClient] *)

Module Client.
Import Errors Http.

(** The instance: the resources only hold a reference to [httpClient]. *)
Record MoltgramClient : Type := mkMoltgramClient {
  httpClient : HttpClient
}.

(** [validateConfig]: [None] when it returns, [Some e] when it throws [e].
    The [typeof] tests are decided by the types of the fields. *)
Definition validateConfig (config : HttpClientConfig) : option ConfigurationError :=
  let keyError :=
    match cfg_apiKey config with
    | Some k =>
        if Js.truthy_string k && negb (Js.startsWith k "moltgram_")
        then Some (newConfigurationError
                     ("apiKey must start with " ++ Js.dquote ++ "moltgram_" ++ Js.dquote))
        else None
    | None => None
    end in
  match keyError with
  | Some e => Some e
  | None =>
      match cfg_timeout config with
      | Some t =>
          if t <=? 0 then Some (newConfigurationError "timeout must be a positive number")
          else
            match cfg_retries config with
            | Some r =>
                if r <? 0 then Some (newConfigurationError "retries must be a non-negative number")
                else None
            | None => None
            end
      | None =>
          match cfg_retries config with
          | Some r =>
              if r <? 0 then Some (newConfigurationError "retries must be a non-negative number")
              else None
          | None => None
          end
      end
  end.

(** [new MoltgramClient(config)]: the configuration is validated first, then
    the [HttpClient] is built; no method of the [HttpClient] is called. *)
Definition constructor (env : ProcessEnv) (config : HttpClientConfig)
  : ConfigurationError + MoltgramClient :=
  match validateConfig config with
  | Some e => inl e
  | None => inr {| httpClient := Http.constructor env config |}
  end.

(** The state a fresh client starts from in a given world. *)
Definition start (c : MoltgramClient) (w : Web.World) : State :=
  {| this := httpClient c; world := w |}.

(** [getRateLimitRemaining]. *)
Definition getRateLimitRemaining (c : HttpClient) : option Js.number :=
  match rateLimitInfo c with
  | Some i => Some (remaining i)
  | None => None
  end.

(** [isRateLimited]: [NaN <= 0] is false. *)
Definition isRateLimited (c : HttpClient) : bool :=
  match getRateLimitRemaining c with
  | Some (Js.Num r) => r <=? 0
  | Some Js.NaN => false
  | None => false
  end.

End Client.


(** ** Vocabulary of the properties, and sample data *)

Module Props.
Import Errors Web Http.

(** The [fetch] call an attempt of [request] makes. *)
Definition callOf (url : string) (config : RequestConfig) (headers : Obj.t string) : FetchCall :=
  {| call_url := url; call_method := req_method config;
     call_headers := headers; call_body := req_body config |}.

(** The state once the [fetch] call [call] has settled after [ms]. *)
Definition settled (st : State) (call : FetchCall) (ms : Z) : State :=
  {| this := this st; world := tick (record_fetch (world st) call) ms |}.

(** The state with the rate-limit snapshot replaced. *)
Definition withInfo (st : State) (i : option RateLimitInfo) : State :=
  snd (setRateLimitInfo i st).

(** The snapshot [parseRateLimitHeaders] builds from the three headers. *)
Definition snapshotOf (h : Headers) : RateLimitInfo :=
  {| limit := Js.parseInt (Js.nullish (get h "X-RateLimit-Limit") "");
     remaining := Js.parseInt (Js.nullish (get h "X-RateLimit-Remaining") "");
     resetAt := Js.Date (Js.mul (Js.parseInt (Js.nullish (get h "X-RateLimit-Reset") "")) 1000) |}.

(** A response carries the three rate-limit headers, each with a value. *)
Definition carriesRateLimit (h : Headers) : bool :=
  Js.truthy (get h "X-RateLimit-Limit") && Js.truthy (get h "X-RateLimit-Remaining")
  && Js.truthy (get h "X-RateLimit-Reset").

(** The outcome of the next [fetch] call of a state. *)
Definition nextOutcome (st : State) : FetchOutcome :=
  network (world st) (List.length (fetches (world st))).

(** The next call gets no response: it rejects, never settles, or settles
    only after the timeout. *)
Definition noResponse (timeoutMs : Z) (o : FetchOutcome) : bool :=
  match o with
  | Resolves after _ => negb (after <? timeoutMs)
  | Rejects _ _ => true
  | Pending => true
  end.

(** The kinds of failure the retry decision speaks of. *)
Definition isNetworkFailure (e : Thrown) : bool := instanceOf CNetworkError e.

Definition isServerError (e : Thrown) : bool :=
  match statusOf e with
  | Some sc => (500 <=? sc) && (sc <=? 599)
  | None => false
  end.

Definition retryable (e : Thrown) : bool :=
  isNetworkFailure e || isServerError e || isRateLimitError e.

(** The guard aborts the next call: it has not settled when the timeout
    is over. *)
Definition timesOut (timeoutMs : Z) (o : FetchOutcome) : bool :=
  match o with
  | Resolves after _ => negb (after <? timeoutMs)
  | Rejects after _ => negb (after <? timeoutMs)
  | Pending => true
  end.

(** A service error whose status is 500 or more. *)
Definition statusAtLeast500 (e : Thrown) : bool :=
  match statusOf e with
  | Some sc => 500 <=? sc
  | None => false
  end.

(** The failures after which another attempt is made while attempts
    remain. *)
Definition retried (e : Thrown) : bool :=
  isNetworkFailure e || statusAtLeast500 e || isRateLimitError e.

(** What an attempt throws when the call settles as [o] and [Date.now()] is
    [t] when the error is built, before [classify]. *)
Definition failureOf (t : Z) (o : FetchOutcome) : Thrown :=
  match o with
  | Resolves _ r => ThrownMoltgram (errorFor t r)
  | Rejects _ msg => ThrownTypeError msg
  | Pending => ThrownAbortError
  end.

(** An outcome that makes the attempt fail with a retryable error: an
    answer in time with a status of 429 or of 500 to 599, or a rejection in
    time that [classify] turns into a [NetworkError]. *)
Definition retryableOutcome (timeoutMs : Z) (o : FetchOutcome) : bool :=
  match o with
  | Resolves after r =>
      (after <? timeoutMs)
      && ((status r =? 429) || ((500 <=? status r) && (status r <=? 599)))
  | Rejects after msg => (after <? timeoutMs) && Js.includes msg "fetch"
  | Pending => false
  end.

(** The message [handleErrorResponse] passes on. *)
Definition messageOf (r : Response) : string :=
  Js.or_default (error (errorDataOf r)) "Unknown error".

(** The seconds [handleErrorResponse] passes to [RateLimitError]:
    [errorData.retryAfter || 60]. *)
Definition retryAfterOf (r : Response) : Z :=
  Js.or_defaultZ (retryAfter (errorDataOf r)) 60.

(** The checks of [validateConfig] on the timeout and the retry count. *)
Definition numbersValid (cfg : HttpClientConfig) : bool :=
  match cfg_timeout cfg with Some t => negb (t <=? 0) | None => true end
  && match cfg_retries cfg with Some r => negb (r <? 0) | None => true end.

(** The entries of a query object that [buildUrl] appends. *)
Definition definedEntries (entries : Obj.t (option QueryValue)) : list (string * string) :=
  flat_map (fun kv => match snd kv with
                      | Some v => [(fst kv, String_of v)]
                      | None => []
                      end) entries.

End Props.

Module Samples.
Import Errors Web Http.

Definition emptyBody : Json :=
  {| error := None; code := None; hint := None; retryAfter := None; payload := "{}" |}.

Definition errorBody (msg : string) (retry : option Z) : Json :=
  {| error := Some msg; code := None; hint := None; retryAfter := retry; payload := "" |}.

Definition rateHeaders : Headers :=
  [("x-ratelimit-limit", "100"); ("x-ratelimit-remaining", "42"); ("x-ratelimit-reset", "1700000000")].

Definition respond (st : Z) (h : Headers) (b : option Json) : Response :=
  {| status := st; statusText := "status"; headers := h; body := b |}.

(** [new URL(path, base)] for the samples: an absolute path against a base
    on the origin of the service replaces the path of the base. *)
Definition glue (path base : string) : option URL :=
  Some {| stem := "https://www.moltgram.com" ++ path; query := None;
          searchParams := []; fragment := None |}.

Definition worldOf (net : nat -> FetchOutcome) : World :=
  {| now := 1000000; fetches := []; sleeps := []; network := net; newURL := glue |}.

Definition envNone : ProcessEnv := {| MOLTBOOK_API_KEY := None; MOLTBOOK_BASE_URL := None |}.

Definition configOf (key : option string) (r : option Z) : HttpClientConfig :=
  {| cfg_apiKey := key; cfg_baseUrl := None; cfg_timeout := None;
     cfg_retries := r; cfg_retryDelay := None; cfg_headers := None |}.

Definition stateOf (r : option Z) (net : nat -> FetchOutcome) : State :=
  {| this := Http.constructor envNone (configOf None r); world := worldOf net |}.

Definition getPosts : RequestConfig :=
  {| req_method := "GET"; req_path := "/posts"; req_body := None;
     req_query := Some [("sort", Some (QString "hot")); ("limit", Some (QNumber 25));
                        ("offset", None); ("q", Some (QString ""))];
     req_headers := None |}.

Definition always (o : FetchOutcome) : nat -> FetchOutcome := fun _ => o.

End Samples.


(** ** [request] on a body as it is given *)

Module Raw.
Import Errors Web Http.

(** What [JSON.stringify] does with a value: it returns text, it returns
    [undefined] (a function, a symbol), or it throws: a [TypeError] for a
    [BigInt] or a circular structure, anything at all from a [toJSON]
    method. *)
Inductive Stringified : Type :=
| Serialised (text : string)
| NotSerialised
| Raises (e : Thrown).

(** [config.body], of type [unknown], through the two things [request] does
    with it: the test [config.body ? ... : undefined] and
    [JSON.stringify(config.body)].  The value is the same at every attempt;
    it is serialised anew each time. *)
Record Value : Type := mkValue {
  truthy : bool;
  stringify : Stringified
}.

(** [RequestConfig] with the body as the caller gives it. *)
Record RequestConfig : Type := mkRequest {
  method : string;
  path : string;
  body : option Value;
  query : option (Obj.t (option QueryValue));
  headers : option (Obj.t string)
}.

(** [config.body ? JSON.stringify(config.body) : undefined]: the text to
    send if any, or what is thrown. *)
Definition sent (b : option Value) : Thrown + option string :=
  match b with
  | None => inr None
  | Some v =>
      if truthy v then
        match stringify v with
        | Serialised text => inr (Some text)
        | NotSerialised => inr None
        | Raises e => inl e
        end
      else inr None
  end.

(** The request once its body is the text [b]. *)
Definition typed (config : RequestConfig) (b : option string) : Http.RequestConfig :=
  {| req_method := method config; req_path := path config; req_body := b;
     req_query := query config; req_headers := headers config |}.

(** The [try] block of [request]: the arguments of [fetch] are evaluated
    first, the body among them, then the call is made. *)
Definition attemptOnce (url : string) (config : RequestConfig) (hd : Obj.t string) : M Json :=
  match sent (body config) with
  | inl e => throw e
  | inr b => Http.attemptOnce url (typed config b) hd
  end.

(** The [for] loop of [request], with [n] iterations left. *)
Fixpoint requestLoop (n : nat) (attempt : Z) (lastError : Thrown)
    (url : string) (config : RequestConfig) (hd : Obj.t string) : M Json :=
  match n with
  | O => throw lastError
  | S n' =>
      try_catch (attemptOnce url config hd)
        (fun error =>
           let lastError := classify error in
           c <- getThis ;;
           if negb (shouldRetry c lastError attempt) then throw lastError
           else
             sleep (getRetryDelay c attempt lastError) ;;;
             requestLoop n' (attempt + 1) lastError url config hd)
  end.

(** [request]. *)
Definition request (config : RequestConfig) : M Json :=
  url <- buildUrl (path config) (query config) ;;
  hd <- buildHeaders (headers config) ;;
  c <- getThis ;;
  requestLoop (Z.to_nat (retries c + 1)) 0 ThrownUndefined url config hd.

(** What [response.json()] gives for the body of a response: it rejects,
    it gives [null], or it gives a value whose fields can be read (an
    object; any other value reads as an object without these fields). *)
Inductive Parsed : Type :=
| Malformed
| JsonNull
| JsonObject (j : Json).

Record Response : Type := mkResponse {
  status : Z;
  statusText : string;
  parsed : Parsed
}.

(** The response with a body the client can read. *)
Definition readable (r : Response) (b : option Json) : Web.Response :=
  {| Web.status := status r; Web.statusText := statusText r; Web.headers := [];
     Web.body := b |}.

(** The message of the [TypeError] of reading a property of [null] (the
    text differs between engines; none of them mentions [fetch]). *)
Definition nullMessage : string := "Cannot read properties of null (reading 'error')".

(** What [handleErrorResponse] throws when [Date.now()] is [t]: reading
    [errorData.error] of [null] throws a [TypeError] before any error
    class is built. *)
Definition handleErrorResponse (t : Z) (r : Response) : Thrown :=
  match parsed r with
  | Malformed => ThrownMoltgram (errorFor t (readable r None))
  | JsonNull => ThrownTypeError nullMessage
  | JsonObject j => ThrownMoltgram (errorFor t (readable r (Some j)))
  end.

End Raw.

(** ** The rest of [HttpClient] and [MoltgramClient] *)

Module Methods.
Import Errors Web Http.

(** [HttpClient.get], [post], [patch] and [delete]; the body is the value
    the caller passes, if any. *)
Definition get (path : string) (query : option (Obj.t (option QueryValue))) : M Json :=
  Raw.request {| Raw.method := "GET"; Raw.path := path; Raw.body := None;
                 Raw.query := query; Raw.headers := None |}.

Definition post (path : string) (body : option Raw.Value) : M Json :=
  Raw.request {| Raw.method := "POST"; Raw.path := path; Raw.body := body;
                 Raw.query := None; Raw.headers := None |}.

Definition patch (path : string) (body : option Raw.Value) : M Json :=
  Raw.request {| Raw.method := "PATCH"; Raw.path := path; Raw.body := body;
                 Raw.query := None; Raw.headers := None |}.

Definition delete (path : string) : M Json :=
  Raw.request {| Raw.method := "DELETE"; Raw.path := path; Raw.body := None;
                 Raw.query := None; Raw.headers := None |}.

(** [MoltgramClient.setApiKey]: unlike [validateConfig] it has no test
    for the empty string. *)
Definition setApiKey (apiKey : string) : M unit :=
  if negb (Js.startsWith apiKey "moltgram_")
  then throw (ThrownConfiguration
                (newConfigurationError
                   ("apiKey must start with " ++ Js.dquote ++ "moltgram_" ++ Js.dquote)))
  else Http.setApiKey apiKey.

(** [MoltgramClient.getRateLimitReset]. *)
Definition getRateLimitReset (c : HttpClient) : option Js.number :=
  match rateLimitInfo c with
  | Some i => Some (resetAt i)
  | None => None
  end.

End Methods.

(** ** Reading objects, and the shape of a request *)

Module Aux.
Import Errors Web Http Props.

(** [o[k]]: the value of the own property [k], [undefined] when absent. *)
Fixpoint prop {V : Type} (o : Obj.t V) (k : string) : option V :=
  match o with
  | [] => None
  | (k', v) :: o' => if String.eqb k' k then Some v else prop o' k
  end.

(** The first of two optional values that is there. *)
Definition orElse {V : Type} (a b : option V) : option V :=
  match a with
  | Some _ => a
  | None => b
  end.

(** The headers every request starts from. *)
Definition defaultHeaders : Obj.t string :=
  [("Content-Type", "application/json"); ("User-Agent", "MoltgramSDK/1.0.0 TypeScript")].

(** Two clients that differ at most in their rate-limit snapshot. *)
Definition sameConfig (a b : HttpClient) : Prop :=
  apiKey a = apiKey b /\ baseUrl a = baseUrl b /\ timeout a = timeout b
  /\ retries a = retries b /\ retryDelay a = retryDelay b
  /\ customHeaders a = customHeaders b.

(** The delay slept after the failed attempt [attempt] whose call settled
    as [o]. *)
Definition delayAfter (c : HttpClient) (attempt : Z) (o : FetchOutcome) : Z :=
  getRetryDelay c attempt (classify (failureOf 0 o)).

(** The delays slept after [k] failed attempts, the first of them being
    attempt [attempt] on call number [base] of the network [net]. *)
Fixpoint delaysFrom (c : HttpClient) (net : nat -> FetchOutcome)
    (attempt : Z) (base : nat) (k : nat) : list Z :=
  match k with
  | O => []
  | S k' => delayAfter c attempt (net base) :: delaysFrom c net (attempt + 1) (S base) k'
  end.

(** An answer in time with a 2xx status and a body that parses. *)
Definition succeedsWith (timeoutMs : Z) (o : FetchOutcome) (j : Json) : Prop :=
  exists after r, o = Resolves after r /\ (after <? timeoutMs) = true
                  /\ ok r = true /\ body r = Some j.

End Aux.

(** ** The other validators ([utils/validators]) *)

Module Validation.
Import Errors.

(** [LIMITS]. *)
Definition POST_TITLE_MAX : Z := 300.
Definition POST_CONTENT_MAX : Z := 40000.
Definition COMMENT_CONTENT_MAX : Z := 10000.
Definition AGENT_NAME_MAX : Z := 32.
Definition AGENT_NAME_MIN : Z := 2.
Definition SUBMOLT_NAME_MAX : Z := 24.
Definition SUBMOLT_NAME_MIN : Z := 2.
Definition DESCRIPTION_MAX : Z := 500.
Definition MAX_LIMIT : Z := 100.

(** [REGEX.AGENT_NAME], [REGEX.SUBMOLT_NAME] and [REGEX.URL]. *)
Definition AGENT_NAME_test (s : string) : bool := Text.matchesName 32 s.
Definition SUBMOLT_NAME_test (s : string) : bool := Text.matchesName 24 s.
Definition URL_test (s : string) : bool := Text.matchesUrl s.

Record ValidationResult : Type := mkResult {
  valid : bool;
  errors : list string
}.

(** [{ valid: errors.length === 0, errors }]. *)
Definition resultOf (errs : list string) : ValidationResult :=
  {| valid := match errs with [] => true | _ :: _ => false end; errors := errs |}.

(** [if (cond) errors.push(msg)]. *)
Definition pushIf (cond : bool) (msg : string) : list string :=
  if cond then [msg] else [].

Definition validateAgentName (name : string) : ValidationResult :=
  resultOf
    (if negb (Js.truthy_string name) then ["Name is required"]
     else
       (pushIf (Text.length name <? AGENT_NAME_MIN)
          ("Name must be at least " ++ Js.string_of_Z AGENT_NAME_MIN ++ " characters")
        ++ pushIf (AGENT_NAME_MAX <? Text.length name)
             ("Name must be at most " ++ Js.string_of_Z AGENT_NAME_MAX ++ " characters")
        ++ pushIf (negb (AGENT_NAME_test name))
             "Name can only contain letters, numbers, and underscores")%list).

Definition validateSubmoltName (name : string) : ValidationResult :=
  resultOf
    (if negb (Js.truthy_string name) then ["Name is required"]
     else
       (pushIf (Text.length name <? SUBMOLT_NAME_MIN)
          ("Name must be at least " ++ Js.string_of_Z SUBMOLT_NAME_MIN ++ " characters")
        ++ pushIf (SUBMOLT_NAME_MAX <? Text.length name)
             ("Name must be at most " ++ Js.string_of_Z SUBMOLT_NAME_MAX ++ " characters")
        ++ pushIf (negb (SUBMOLT_NAME_test name))
             "Name can only contain lowercase letters, numbers, and underscores")%list).

Definition validatePostTitle (title : string) : ValidationResult :=
  resultOf
    (if negb (Js.truthy_string title) || Text.isBlank title then ["Title is required"]
     else pushIf (POST_TITLE_MAX <? Text.length title)
            ("Title must be at most " ++ Js.string_of_Z POST_TITLE_MAX ++ " characters")).

Definition validatePostContent (content : option string) : ValidationResult :=
  resultOf
    (pushIf (Js.truthy content && (POST_CONTENT_MAX <? Text.length (Js.nullish content "")))
       ("Content must be at most " ++ Js.string_of_Z POST_CONTENT_MAX ++ " characters")).

Definition validateCommentContent (content : string) : ValidationResult :=
  resultOf
    (if negb (Js.truthy_string content) || Text.isBlank content then ["Content is required"]
     else pushIf (COMMENT_CONTENT_MAX <? Text.length content)
            ("Content must be at most " ++ Js.string_of_Z COMMENT_CONTENT_MAX ++ " characters")).

Definition validateUrl (url : option string) : ValidationResult :=
  resultOf
    (pushIf (Js.truthy url && negb (URL_test (Js.nullish url "")))
       "URL must start with http:// or https://").

Definition validateDescription (description : option string) : ValidationResult :=
  resultOf
    (pushIf (Js.truthy description
             && (DESCRIPTION_MAX <? Text.length (Js.nullish description "")))
       ("Description must be at most " ++ Js.string_of_Z DESCRIPTION_MAX ++ " characters")).

(** A JavaScript number as [<] and [>] see it.  Every finite double is a
    rational ([-0] compares as [0]); the others are the two infinities and
    [NaN]. *)
Inductive Number : Type :=
| Finite (q : Q)
| PlusInfinity
| MinusInfinity
| NotANumber.

(** [a < k] and [a > k], [k] an integer constant: every comparison with
    [NaN] is false. *)
Definition below (a : Number) (k : Z) : bool :=
  match a with
  | Finite q => negb (Qle_bool (inject_Z k) q)
  | MinusInfinity => true
  | PlusInfinity => false
  | NotANumber => false
  end.

Definition above (a : Number) (k : Z) : bool :=
  match a with
  | Finite q => negb (Qle_bool q (inject_Z k))
  | PlusInfinity => true
  | MinusInfinity => false
  | NotANumber => false
  end.

Definition validatePagination (limit offset : option Number) : ValidationResult :=
  resultOf
    ((match limit with
      | Some l =>
          pushIf (below l 1) "Limit must be at least 1"
          ++ pushIf (above l MAX_LIMIT) ("Limit must be at most " ++ Js.string_of_Z MAX_LIMIT)
      | None => []
      end)
     ++ match offset with
        | Some o => pushIf (below o 0) "Offset must be non-negative"
        | None => []
        end)%list.

Record CreatePost : Type := mkCreatePost {
  submolt : string;
  title : string;
  content : option string;
  url : option string
}.

Record CreateComment : Type := mkCreateComment {
  postId : string;
  commentContent : string;
  parentId : option string
}.

Record RegisterAgent : Type := mkRegisterAgent {
  name : string;
  description : option string
}.

(** [if (errors.length > 0) throw new ValidationError(errors.join('; '),
    'VALIDATION_ERROR')]: [None] when nothing is thrown. *)
Definition throwIfAny (errs : list string) : option MoltgramError :=
  match errs with
  | [] => None
  | _ :: _ => Some (newValidationError (Some (String.concat "; " errs))
                      (Some "VALIDATION_ERROR") None None)
  end.

(** The errors [validateCreatePost] collects. *)
Definition createPostErrors (data : CreatePost) : list string :=
  (errors (validateSubmoltName (submolt data))
   ++ errors (validatePostTitle (title data))
   ++ errors (validatePostContent (content data))
   ++ errors (validateUrl (url data))
   ++ pushIf (negb (Js.truthy (content data)) && negb (Js.truthy (url data)))
        "Either content or URL is required"
   ++ pushIf (Js.truthy (content data) && Js.truthy (url data))
        "Cannot have both content and URL")%list.

Definition validateCreatePost (data : CreatePost) : option MoltgramError :=
  throwIfAny (createPostErrors data).

Definition createCommentErrors (data : CreateComment) : list string :=
  (pushIf (negb (Js.truthy_string (postId data))) "Post ID is required"
   ++ errors (validateCommentContent (commentContent data)))%list.

Definition validateCreateComment (data : CreateComment) : option MoltgramError :=
  throwIfAny (createCommentErrors data).

Definition registerAgentErrors (data : RegisterAgent) : list string :=
  (errors (validateAgentName (name data))
   ++ errors (validateDescription (description data)))%list.

Definition validateRegisterAgent (data : RegisterAgent) : option MoltgramError :=
  throwIfAny (registerAgentErrors data).

Definition isValidAgentName (s : string) : bool := AGENT_NAME_test s.
Definition isValidSubmoltName (s : string) : bool := SUBMOLT_NAME_test s.
Definition isValidUrl (s : string) : bool := URL_test s.

End Validation.

(** ** The comment helpers of the resources ([Comments.flatten], [count]) *)

Module Resources.

(** The fields of a [Comment] other than [replies]. *)
Record CommentData : Type := mkCommentData {
  id : string;
  content : string;
  score : Z;
  upvotes : Z;
  downvotes : Z;
  parentId : option string;
  depth : Z;
  authorName : string;
  authorDisplayName : option string;
  createdAt : string
}.

(** A [Comment]; [replies] may be missing. *)
#[warnings="-register-all"]
Inductive Comment : Type :=
| mkComment (data : CommentData) (replies : option (list Comment)).

Definition dataOf (c : Comment) : CommentData :=
  match c with mkComment d _ => d end.

Definition repliesOf (c : Comment) : option (list Comment) :=
  match c with mkComment _ r => r end.

(** One step of [traverse] in [flatten]: the comment without its
    [replies], then its replies when there are any. *)
Fixpoint flattenItem (c : Comment) : list Comment :=
  match c with
  | mkComment d r =>
      mkComment d None
      :: match r with
         | Some l => flat_map flattenItem l
         | None => []
         end
  end.

(** [Comments.flatten]. *)
Definition flatten (comments : list Comment) : list Comment :=
  flat_map flattenItem comments.

(** One step of [traverse] in [count]. *)
Fixpoint countItem (c : Comment) : nat :=
  match c with
  | mkComment _ r =>
      S match r with
        | Some l => list_sum (map countItem l)
        | None => 0
        end
  end.

(** [Comments.count]. *)
Definition count (comments : list Comment) : nat :=
  list_sum (map countItem comments).

End Resources.

(** ** The [retry] helper of the utilities *)

Module Util.

(** The options of [retry]; [onRetry] returns what it throws, if it does. *)
Record RetryOptions (E : Type) : Type := mkRetryOptions {
  opt_retries : option Z;
  opt_delay : option Z;
  opt_maxDelay : option Z;
  opt_onRetry : option (E -> Z -> option E)
}.
Arguments opt_retries {E} _.
Arguments opt_delay {E} _.
Arguments opt_maxDelay {E} _.
Arguments opt_onRetry {E} _.

(** What a run has done: the calls of [fn] and the delays slept. *)
Record Run : Type := mkRun {
  calls : nat;
  slept : list Z
}.

(** The [for] loop of [retry] with [n] iterations left; [fn k] is what the
    call number [k] of [fn] gives, a value or the error it rejects with.
    The result is the value returned, or what is thrown ([None] for
    [undefined]). *)
Fixpoint retryLoop {T E : Type} (fn : nat -> T + E) (retries delay maxDelay : Z)
    (onRetry : option (E -> Z -> option E))
    (n : nat) (attempt : Z) (lastError : option E) (run : Run) : (T + option E) * Run :=
  match n with
  | O => (inr lastError, run)
  | S n' =>
      let run1 := {| calls := S (calls run); slept := slept run |} in
      match fn (calls run) with
      | inl v => (inl v, run1)
      | inr error =>
          if retries <=? attempt then (inr (Some error), run1)
          else
            let backoff := Z.min (delay * 2 ^ attempt) maxDelay in
            match match onRetry with
                  | Some f => f error attempt
                  | None => None
                  end with
            | Some thrown => (inr (Some thrown), run1)
            | None =>
                retryLoop fn retries delay maxDelay onRetry n' (attempt + 1) (Some error)
                  {| calls := calls run1; slept := (slept run1 ++ [backoff])%list |}
            end
      end
  end.

(** [retry(fn, options)]. *)
Definition retry {T E : Type} (fn : nat -> T + E) (options : RetryOptions E)
  : (T + option E) * Run :=
  let retries := Js.nullish (opt_retries options) 3 in
  let delay := Js.nullish (opt_delay options) 1000 in
  let maxDelay := Js.nullish (opt_maxDelay options) 30000 in
  retryLoop fn retries delay maxDelay (opt_onRetry options)
    (Z.to_nat (retries + 1)) 0 None {| calls := 0; slept := [] |}.

(** The delays [retry] sleeps before its retries number [attempt],
    [attempt + 1], ... *)
Fixpoint backoffs (delay maxDelay : Z) (attempt : Z) (k : nat) : list Z :=
  match k with
  | O => []
  | S k' => Z.min (delay * 2 ^ attempt) maxDelay :: backoffs delay maxDelay (attempt + 1) k'
  end.

(** An [onRetry] callback that never throws, or none at all. *)
Definition quiet {E : Type} (onRetry : option (E -> Z -> option E)) : Prop :=
  forall f, onRetry = Some f -> forall e a, f e a = None.

End Util.

(** ** The page iterators of the resources ([Posts.iterate], [Feed.iterate]) *)

Module Pages.

(** How a drained generator ended: it returned, it threw, or the bound on
    the number of pages set for this run was reached. *)
Inductive Ending (E : Type) : Type :=
| Done
| Failed (e : E)
| Unfinished.
Arguments Done {E}.
Arguments Failed {E} e.
Arguments Unfinished {E}.

(** The [while (hasMore)] loop of [iterate], run for at most [fuel] pages:
    the pages it yields and how it ends.  [listPage limit offset] is what
    [this.list({ ...options, limit, offset })] gives: the items, or the
    error it rejects with. *)
Fixpoint iterateLoop {A E : Type} (listPage : Z -> Z -> list A + E) (limit : Z)
    (fuel : nat) (offset : Z) : list (list A) * Ending E :=
  match fuel with
  | O => ([], Unfinished)
  | S fuel' =>
      match listPage limit offset with
      | inr e => ([], Failed e)
      | inl posts =>
          if Z.of_nat (List.length posts) =? 0 then ([], Done)
          else if Z.of_nat (List.length posts) =? limit then
            let rest := iterateLoop listPage limit fuel' (offset + limit) in
            (posts :: fst rest, snd rest)
          else ([posts], Done)
      end
  end.

(** [iterate(options)]: [limit = options.limit || 25] and
    [offset = options.offset || 0]. *)
Definition iterate {A E : Type} (listPage : Z -> Z -> list A + E)
    (limit offset : option Z) (fuel : nat) : list (list A) * Ending E :=
  iterateLoop listPage (Js.or_defaultZ limit 25) fuel (Js.or_defaultZ offset 0).

(** A service that holds [data] and answers a page request with the items
    from [offset] on, at most [limit] of them. *)
Definition serve {A E : Type} (data : list A) (limit offset : Z) : list A + E :=
  inl (firstn (Z.to_nat limit) (skipn (Z.to_nat offset) data)).

End Pages.


(** * Properties *)

Import Errors Web Http Props.

(** ** The state monad of the client *)

Lemma bind_normal {A B : Type} (m : M A) (k : A -> M B) (st st' : State) (a : A) :
  m st = (Normal a, st') -> bind m k st = k a st'.
Proof. intros H. unfold bind. rewrite H. reflexivity. Qed.

Lemma bind_throw {A B : Type} (m : M A) (k : A -> M B) (st st' : State) (t : Thrown) :
  m st = (Throw t, st') -> bind m k st = (Throw t, st').
Proof. intros H. unfold bind. rewrite H. reflexivity. Qed.

Lemma withInfo_this (st : State) (i : option RateLimitInfo) :
  rateLimitInfo (this (withInfo st i)) = i
  /\ retries (this (withInfo st i)) = retries (this st)
  /\ timeout (this (withInfo st i)) = timeout (this st)
  /\ retryDelay (this (withInfo st i)) = retryDelay (this st)
  /\ world (withInfo st i) = world st.
Proof. repeat split. Qed.

(** ** [parseRateLimitHeaders] *)

Lemma parseRateLimitHeaders_run (h : Headers) (st : State) :
  parseRateLimitHeaders h st
  = (Normal tt, if carriesRateLimit h then withInfo st (Some (snapshotOf h)) else st).
Proof.
  unfold parseRateLimitHeaders, carriesRateLimit.
  destruct (Js.truthy (get h "X-RateLimit-Limit") && Js.truthy (get h "X-RateLimit-Remaining")
            && Js.truthy (get h "X-RateLimit-Reset")); reflexivity.
Qed.

(** The state after the headers of a response were looked at. *)
Lemma parsed_fields (h : Headers) (st : State) :
  let st' := snd (parseRateLimitHeaders h st) in
  retries (this st') = retries (this st)
  /\ timeout (this st') = timeout (this st)
  /\ retryDelay (this st') = retryDelay (this st)
  /\ world st' = world st.
Proof.
  rewrite parseRateLimitHeaders_run. simpl.
  destruct (carriesRateLimit h); [apply withInfo_this | repeat split].
Qed.

(** ** One attempt *)

Lemma attemptOnce_resolves (url : string) (config : RequestConfig) (hd : Obj.t string)
    (st : State) (after : Z) (r : Response) :
  nextOutcome st = Resolves after r ->
  (after <? timeout (this st)) = true ->
  let st1 := snd (parseRateLimitHeaders (headers r) (settled st (callOf url config hd) after)) in
  attemptOnce url config hd st
  = (if ok r then
       match body r with Some j => Normal j | None => Throw ThrownSyntaxError end
     else Throw (ThrownMoltgram (errorFor (now (world st1)) r)), st1).
Proof.
  intros Hn Ht st1. unfold nextOutcome in Hn.
  unfold attemptOnce, bind, getThis, fetchWithAbort, bind, getWorld.
  simpl. rewrite Hn, Ht. simpl.
  fold (callOf url config hd). fold (settled st (callOf url config hd) after).
  subst st1. rewrite parseRateLimitHeaders_run. simpl.
  destruct (ok r); simpl.
  - unfold json. destruct (body r); reflexivity.
  - reflexivity.
Qed.

Lemma attemptOnce_noResponse (url : string) (config : RequestConfig) (hd : Obj.t string)
    (st : State) :
  noResponse (timeout (this st)) (nextOutcome st) = true ->
  exists e ms,
    attemptOnce url config hd st = (Throw e, settled st (callOf url config hd) ms)
    /\ (e = ThrownAbortError \/ exists after msg, nextOutcome st = Rejects after msg /\ e = ThrownTypeError msg).
Proof.
  unfold nextOutcome, noResponse. intros H.
  unfold attemptOnce, bind, getThis, fetchWithAbort, bind, getWorld. simpl.
  destruct (network (world st) (List.length (fetches (world st)))) as [after r|after msg|].
  - apply negb_true_iff in H. rewrite H. simpl.
    exists ThrownAbortError, (timeout (this st)). split; [reflexivity | now left].
  - destruct (after <? timeout (this st)); simpl.
    + exists (ThrownTypeError msg), after. split; [reflexivity | right; eauto].
    + exists ThrownAbortError, (timeout (this st)). split; [reflexivity | now left].
  - simpl. exists ThrownAbortError, (timeout (this st)). split; [reflexivity | now left].
Qed.

Lemma attemptOnce_fields (url : string) (config : RequestConfig) (hd : Obj.t string)
    (st : State) :
  let st' := snd (attemptOnce url config hd st) in
  retries (this st') = retries (this st)
  /\ timeout (this st') = timeout (this st)
  /\ retryDelay (this st') = retryDelay (this st)
  /\ fetches (world st') = (fetches (world st) ++ [callOf url config hd])%list
  /\ sleeps (world st') = sleeps (world st)
  /\ network (world st') = network (world st)
  /\ newURL (world st') = newURL (world st).
Proof.
  destruct (noResponse (timeout (this st)) (nextOutcome st)) eqn:Hno.
  - destruct (attemptOnce_noResponse url config hd st Hno) as (e & ms & -> & _).
    simpl. repeat split.
  - unfold noResponse in Hno.
    destruct (nextOutcome st) as [after r| |] eqn:Hn; try discriminate.
    apply negb_false_iff in Hno.
    rewrite (attemptOnce_resolves url config hd st after r Hn Hno). simpl.
    destruct (parsed_fields (headers r) (settled st (callOf url config hd) after))
      as (H1 & H2 & H3 & H4).
    rewrite H1, H2, H3, H4. simpl. repeat split.
Qed.

(** ** The sleep between two attempts *)

Lemma sleep_run (ms : Z) (st : State) :
  sleep ms st
  = (Normal tt, {| this := this st; world := tick (record_sleep (world st) ms) ms |}).
Proof. reflexivity. Qed.

(** ** The loop, one iteration at a time *)

Lemma requestLoop_step (n : nat) (attempt : Z) (last : Thrown)
    (url : string) (config : RequestConfig) (hd : Obj.t string) (st st' : State) (e : Thrown) :
  attemptOnce url config hd st = (Throw e, st') ->
  requestLoop (S n) attempt last url config hd st
  = if shouldRetry (this st') (classify e) attempt
    then requestLoop n (attempt + 1) (classify e) url config hd
           (snd (sleep (getRetryDelay (this st') attempt (classify e)) st'))
    else (Throw (classify e), st').
Proof.
  intros H. simpl. unfold try_catch. rewrite H.
  unfold bind at 1. unfold getThis.
  destruct (shouldRetry (this st') (classify e) attempt); simpl; reflexivity.
Qed.

Lemma requestLoop_returns (n : nat) (attempt : Z) (last : Thrown)
    (url : string) (config : RequestConfig) (hd : Obj.t string) (st st' : State) (j : Json) :
  attemptOnce url config hd st = (Normal j, st') ->
  requestLoop (S n) attempt last url config hd st = (Normal j, st').
Proof. intros H. simpl. unfold try_catch. rewrite H. reflexivity. Qed.

(** ** The status table of [handleErrorResponse] *)

Lemma errorFor_table (t : Z) (r : Response) :
  (status r = 401 -> errorFor t r = newAuthenticationError (Some (messageOf r)) (Web.hint (errorDataOf r)))
  /\ (status r = 403 -> errorFor t r = newForbiddenError (Some (messageOf r)) (Web.hint (errorDataOf r)))
  /\ (status r = 404 -> errorFor t r = newNotFoundError (Some (messageOf r)) (Web.hint (errorDataOf r)))
  /\ (status r = 400 ->
      errorFor t r = newValidationError (Some (messageOf r)) (Web.code (errorDataOf r))
                       (Web.hint (errorDataOf r)) None)
  /\ (status r = 429 -> class (errorFor t r) = CRateLimitError)
  /\ (status r <> 401 -> status r <> 403 -> status r <> 404 -> status r <> 400 ->
      status r <> 429 ->
      errorFor t r = newMoltgramError (messageOf r) (Some (status r)) (Web.code (errorDataOf r))
                       (Web.hint (errorDataOf r))).
Proof.
  unfold errorFor, messageOf.
  repeat split; intros; repeat match goal with
    | H : status r = _ |- _ => rewrite H; clear H
    | H : status r <> _ |- _ => apply Z.eqb_neq in H; rewrite H; clear H
    end; reflexivity.
Qed.

(** The class of the error depends on the status alone. *)
Lemma errorFor_class (t : Z) (r : Response) :
  class (errorFor t r)
  = if status r =? 401 then CAuthenticationError
    else if status r =? 403 then CForbiddenError
    else if status r =? 404 then CNotFoundError
    else if status r =? 429 then CRateLimitError
    else if status r =? 400 then CValidationError
    else CMoltgramError.
Proof.
  unfold errorFor.
  destruct (status r =? 401); [reflexivity|].
  destruct (status r =? 403); [reflexivity|].
  destruct (status r =? 404); [reflexivity|].
  destruct (status r =? 429); [reflexivity|].
  destruct (status r =? 400); reflexivity.
Qed.

(** The status code of the error is the one its class fixes, and for the
    base class the status of the response. *)
Lemma errorFor_statusCode (t : Z) (r : Response) :
  statusCode (errorFor t r) = status r.
Proof.
  unfold errorFor.
  destruct (status r =? 401) eqn:E1; [apply Z.eqb_eq in E1; rewrite E1; reflexivity|].
  destruct (status r =? 403) eqn:E2; [apply Z.eqb_eq in E2; rewrite E2; reflexivity|].
  destruct (status r =? 404) eqn:E3; [apply Z.eqb_eq in E3; rewrite E3; reflexivity|].
  destruct (status r =? 429) eqn:E4; [apply Z.eqb_eq in E4; rewrite E4; reflexivity|].
  destruct (status r =? 400) eqn:E5; [apply Z.eqb_eq in E5; rewrite E5; reflexivity|].
  reflexivity.
Qed.

(** C1 (the table at 409).  A 409 response is not mapped to a
    [ConflictError]: [handleErrorResponse] has no case for it, so the
    [default] case builds a plain [MoltgramError] with status 409, and that
    is what [request] throws. *)
Theorem status_409_is_not_mapped_to_conflict :
  let r := Samples.respond 409 [] (Some (Samples.errorBody "Resource already exists" None)) in
  (forall t : Z,
      errorFor t r = newMoltgramError "Resource already exists" (Some 409) None None
      /\ class (errorFor t r) = CMoltgramError
      /\ class (newConflictError (Some "Resource already exists") None) = CConflictError
      /\ errorFor t r <> newConflictError (Some "Resource already exists") None)
  /\ fst (request Samples.getPosts (Samples.stateOf None (Samples.always (Resolves 10 r))))
     = Throw (ThrownMoltgram (newMoltgramError "Resource already exists" (Some 409) None None)).
Proof.
  split.
  - intros t. repeat split. discriminate.
  - vm_compute. reflexivity.
Qed.

(** ** The timeout guard *)

(** Whatever [request] throws, it is never an instance of [TimeoutError]
    when the call is aborted: the [AbortError] goes through [classify]
    unchanged and [shouldRetry] refuses it. *)
Lemma abort_is_surfaced_raw (c : HttpClient) (attempt : Z) :
  classify ThrownAbortError = ThrownAbortError
  /\ shouldRetry c ThrownAbortError attempt = false
  /\ instanceOf CTimeoutError ThrownAbortError = false.
Proof.
  repeat split. unfold shouldRetry. destruct (retries c <=? attempt); reflexivity.
Qed.

(** C2 (a transport that never responds).  The call is aborted at the
    timeout, but the attempt is not classified as a [TimeoutError]:
    [request] throws the [AbortError] of the aborted [fetch] as it is, after
    one call, where the claim expects the typed error with status 0 and code
    [TIMEOUT]. *)
Theorem timeout_surfaces_abort_error :
  let st := Samples.stateOf None (Samples.always Pending) in
  let res := request Samples.getPosts st in
  fst res = Throw ThrownAbortError
  /\ fst res <> Throw (ThrownMoltgram (newTimeoutError None (Some (timeout (this st)))))
  /\ isMoltgramError ThrownAbortError = false
  /\ now (world (snd res)) = now (world st) + timeout (this st)
  /\ List.length (fetches (world (snd res))) = 1%nat.
Proof.
  vm_compute. repeat split; discriminate.
Qed.

(** ** The delay before a retry *)

Lemma getRetryDelay_backoff (c : HttpClient) (attempt : Z) (e : Thrown) :
  isRateLimitError e = false ->
  getRetryDelay c attempt e = retryDelay c * 2 ^ attempt.
Proof.
  unfold isRateLimitError, instanceOf, getRetryDelay.
  destruct e as [m| | | | |]; try reflexivity.
  intros ->. reflexivity.
Qed.

Lemma getRetryDelay_rateLimit (c : HttpClient) (attempt t : Z) (msg hnt : option string) (secs : Z) :
  getRetryDelay c attempt (ThrownMoltgram (newRateLimitError t msg (Some secs) hnt))
  = secs * 1000.
Proof. reflexivity. Qed.

(** C4 (the cap).  The delay of [getRetryDelay] is [retryDelay * 2^attempt]
    with no upper bound: with the default base of 1000 ms the delay before
    the sixth retry is 32000 ms, above [MAX_RETRY_DELAY], and [request]
    sleeps that long. *)
Theorem backoff_delay_is_not_capped :
  let st := Samples.stateOf (Some 6) (Samples.always (Resolves 10 (Samples.respond 503 [] None))) in
  let e := ThrownMoltgram (errorFor 0 (Samples.respond 503 [] None)) in
  getRetryDelay (this st) 5 e = 32000
  /\ Constants.MAX_RETRY_DELAY = 30000
  /\ Z.min (retryDelay (this st) * 2 ^ 5) Constants.MAX_RETRY_DELAY <> getRetryDelay (this st) 5 e
  /\ sleeps (world (snd (request Samples.getPosts st)))
     = [1000; 2000; 4000; 8000; 16000; 32000].
Proof.
  vm_compute. repeat split; discriminate.
Qed.

(** ** Rate-limited responses *)

Lemma errorFor_429 (t : Z) (r : Response) :
  status r = 429 ->
  errorFor t r
  = newRateLimitError t (Some (messageOf r)) (Some (retryAfterOf r)) (Web.hint (errorDataOf r)).
Proof. intros H. unfold errorFor. rewrite H. reflexivity. Qed.

(** C8, refuted as stated.  A 429 body that supplies [retryAfter: 0] does
    not get its value through: the error carries 60. *)
Lemma retryAfter_zero_becomes_60 :
  let r := Samples.respond 429 [] (Some (Samples.errorBody "slow down" (Some 0))) in
  retryAfter (errorDataOf r) = Some 0
  /\ Errors.retryAfter (errorFor 0 r) = Some 60
  /\ Errors.retryAfter (errorFor 0 r) <> retryAfter (errorDataOf r).
Proof. vm_compute. repeat split; discriminate. Qed.

(** C8, amended.  For a 429 response the error is a [RateLimitError] whose
    [retryAfter] is the value of the body when the body supplies one other
    than 0, and 60 when the body omits it, cannot be parsed, or gives 0; its
    [resetAt] is the date [t + retryAfter * 1000] ms, where [t] is the time
    at which the error is built. *)
Theorem rate_limited_retry_after (t : Z) (r : Response) :
  status r = 429 ->
  class (errorFor t r) = CRateLimitError
  /\ statusCode (errorFor t r) = 429
  /\ (forall (j : Json) (n : Z),
        body r = Some j -> retryAfter j = Some n -> n <> 0 ->
        Errors.retryAfter (errorFor t r) = Some n)
  /\ ((body r = None
       \/ (exists j, body r = Some j /\ (retryAfter j = None \/ retryAfter j = Some 0))) ->
      Errors.retryAfter (errorFor t r) = Some 60)
  /\ Errors.retryAfter (errorFor t r) = Some (retryAfterOf r)
  /\ Errors.resetAt (errorFor t r) = Some (Js.Date (Js.Num (t + retryAfterOf r * 1000)))
  /\ (Z.abs (t + retryAfterOf r * 1000) <= 8640000000000000 ->
      Errors.resetAt (errorFor t r) = Some (Js.Num (t + retryAfterOf r * 1000))).
Proof.
  intros H. rewrite (errorFor_429 t r H). simpl.
  split; [reflexivity|]. split; [reflexivity|].
  split.
  { intros j n Hb Hr Hn. unfold retryAfterOf, errorDataOf. rewrite Hb, Hr. simpl.
    apply Z.eqb_neq in Hn. rewrite Hn. reflexivity. }
  split.
  { unfold retryAfterOf, errorDataOf.
    intros [Hb | (j & Hb & [Hr | Hr])]; rewrite Hb; try rewrite Hr; reflexivity. }
  split; [reflexivity|]. split; [reflexivity|].
  intros Hd. apply Z.leb_le in Hd. rewrite Hd. reflexivity.
Qed.

Lemma rate_limited_retry_after_witness :
  let r := Samples.respond 429 [] (Some (Samples.errorBody "slow down" (Some 2))) in
  status r = 429
  /\ Errors.retryAfter (errorFor 5000 r) = Some 2
  /\ Errors.resetAt (errorFor 5000 r) = Some (Js.Num 7000)
  /\ Errors.retryAfter (errorFor 5000 (Samples.respond 429 [] None)) = Some 60.
Proof.
  pose proof (rate_limited_retry_after 5000
                (Samples.respond 429 [] (Some (Samples.errorBody "slow down" (Some 2))))
                eq_refl) as (_ & _ & H1 & _ & _ & _ & H2).
  pose proof (rate_limited_retry_after 5000 (Samples.respond 429 [] None) eq_refl)
    as (_ & _ & _ & H3 & _).
  split; [reflexivity|].
  split; [apply (H1 (Samples.errorBody "slow down" (Some 2)) 2 eq_refl eq_refl); discriminate|].
  split; [apply H2; vm_compute; discriminate|].
  apply H3. left. reflexivity.
Defined.

(** ** The rate-limit snapshot *)

Lemma get_none_not_truthy (h : Headers) (name : string) :
  get h name = None -> Js.truthy (get h name) = false.
Proof. intros ->. reflexivity. Qed.

Lemma missing_header_not_carried (h : Headers) :
  get h "X-RateLimit-Limit" = None
  \/ get h "X-RateLimit-Remaining" = None
  \/ get h "X-RateLimit-Reset" = None ->
  carriesRateLimit h = false.
Proof.
  unfold carriesRateLimit.
  intros [H | [H | H]]; rewrite H; simpl;
    rewrite ?andb_false_r; reflexivity.
Qed.

(** C10.  When one of the three rate-limit headers of a response is
    missing, [parseRateLimitHeaders] leaves the client as it is, and so does
    the whole attempt that received the response: the snapshot is neither
    partly updated nor cleared. *)
Theorem partial_headers_leave_snapshot
    (st : State) (url : string) (config : RequestConfig) (hd : Obj.t string)
    (after : Z) (r : Response) :
  get (headers r) "X-RateLimit-Limit" = None
  \/ get (headers r) "X-RateLimit-Remaining" = None
  \/ get (headers r) "X-RateLimit-Reset" = None ->
  parseRateLimitHeaders (headers r) st = (Normal tt, st)
  /\ (nextOutcome st = Resolves after r ->
      (after <? timeout (this st)) = true ->
      this (snd (attemptOnce url config hd st)) = this st).
Proof.
  intros H. apply missing_header_not_carried in H.
  split.
  - rewrite parseRateLimitHeaders_run, H. reflexivity.
  - intros Hn Ht. rewrite (attemptOnce_resolves url config hd st after r Hn Ht).
    simpl. rewrite parseRateLimitHeaders_run, H. reflexivity.
Qed.

Lemma partial_headers_leave_snapshot_witness :
  let old := {| limit := Js.Num 100; remaining := Js.Num 7; resetAt := Js.Num 1700000000000 |} in
  let r := Samples.respond 200 [("X-RateLimit-Limit", "50"); ("X-RateLimit-Reset", "1800000000")]
             (Some Samples.emptyBody) in
  let st := withInfo (Samples.stateOf None (Samples.always (Resolves 10 r))) (Some old) in
  rateLimitInfo (this (snd (parseRateLimitHeaders (headers r) st))) = Some old
  /\ rateLimitInfo (this (snd (attemptOnce "https://www.moltgram.com/posts" Samples.getPosts [] st)))
     = Some old.
Proof.
  intros old r st.
  assert (Hmiss : get (headers r) "X-RateLimit-Limit" = None
                  \/ get (headers r) "X-RateLimit-Remaining" = None
                  \/ get (headers r) "X-RateLimit-Reset" = None)
    by (right; left; reflexivity).
  destruct (partial_headers_leave_snapshot st "https://www.moltgram.com/posts"
              Samples.getPosts [] 10 r Hmiss) as [H1 H2].
  split.
  - rewrite H1. reflexivity.
  - rewrite (H2 eq_refl eq_refl). reflexivity.
Defined.

(** An attempt that gets no response leaves the client as it is. *)
Lemma attemptOnce_noResponse_this (url : string) (config : RequestConfig) (hd : Obj.t string)
    (st : State) :
  noResponse (timeout (this st)) (nextOutcome st) = true ->
  this (snd (attemptOnce url config hd st)) = this st.
Proof.
  intros H. destruct (attemptOnce_noResponse url config hd st H) as (e & ms & -> & _).
  reflexivity.
Qed.

(** A loop in which no call gets a response leaves the client as it is. *)
Lemma requestLoop_noResponse (url : string) (config : RequestConfig) (hd : Obj.t string)
    (n : nat) :
  forall (attempt : Z) (last : Thrown) (st : State),
    (forall k, noResponse (timeout (this st)) (network (world st) k) = true) ->
    this (snd (requestLoop n attempt last url config hd st)) = this st.
Proof.
  induction n as [|n IH]; intros attempt last st Hall.
  - reflexivity.
  - destruct (attemptOnce_noResponse url config hd st (Hall _)) as (e & ms & Hrun & _).
    rewrite (requestLoop_step n attempt last url config hd st _ e Hrun).
    destruct (shouldRetry _ (classify e) attempt).
    + rewrite IH; [reflexivity | exact Hall].
    + reflexivity.
Qed.

Lemma buildUrl_state (path : string) (q : option (Obj.t (option QueryValue))) (st : State) :
  snd (buildUrl path q st) = st.
Proof.
  unfold buildUrl, bind, getThis, getWorld. simpl.
  destruct (newURL (world st) path (baseUrl (this st))); reflexivity.
Qed.

(** [request] is its loop, started at attempt 0, whenever the URL parses. *)
Lemma request_unfold (config : RequestConfig) (st : State) (u : URL) :
  newURL (world st) (req_path config) (baseUrl (this st)) = Some u ->
  request config st
  = requestLoop (Z.to_nat (retries (this st) + 1)) 0 ThrownUndefined
      (toString (urlOf u (req_query config))) config
      (headersOf (this st) (req_headers config)) st.
Proof.
  intros Hu. unfold request, buildUrl, buildHeaders, bind, getThis, getWorld. simpl.
  rewrite Hu. reflexivity.
Qed.

Lemma request_invalid_url (config : RequestConfig) (st : State) :
  newURL (world st) (req_path config) (baseUrl (this st)) = None ->
  request config st = (Throw (ThrownTypeError "Invalid URL"), st).
Proof.
  intros Hu. unfold request, buildUrl, bind, getThis, getWorld. simpl. rewrite Hu. reflexivity.
Qed.

(** C7.  The snapshot of a new client is [null]; an attempt that receives a
    response carrying the three rate-limit headers (each with a value),
    whatever its status, ends with the snapshot built from these headers
    alone, whatever the snapshot was before; an attempt that receives no
    response leaves the client unchanged, and so does a whole [request]
    none of whose calls receives a response. *)
Theorem snapshot_lifecycle :
  (forall env cfg, rateLimitInfo (Http.constructor env cfg) = None)
  /\ (forall st url config hd after r,
        nextOutcome st = Resolves after r ->
        (after <? timeout (this st)) = true ->
        carriesRateLimit (headers r) = true ->
        rateLimitInfo (this (snd (attemptOnce url config hd st))) = Some (snapshotOf (headers r)))
  /\ (forall st url config hd,
        noResponse (timeout (this st)) (nextOutcome st) = true ->
        this (snd (attemptOnce url config hd st)) = this st)
  /\ (forall st config,
        (forall k, noResponse (timeout (this st)) (network (world st) k) = true) ->
        this (snd (request config st)) = this st).
Proof.
  split; [reflexivity|]. split; [|split].
  - intros st url config hd after r Hn Ht Hc.
    rewrite (attemptOnce_resolves url config hd st after r Hn Ht). simpl.
    rewrite parseRateLimitHeaders_run, Hc. reflexivity.
  - intros st url config hd. apply attemptOnce_noResponse_this.
  - intros st config Hall.
    destruct (newURL (world st) (req_path config) (baseUrl (this st))) as [u|] eqn:Hu.
    + rewrite (request_unfold config st u Hu).
      apply requestLoop_noResponse. exact Hall.
    + rewrite (request_invalid_url config st Hu). reflexivity.
Qed.

Lemma snapshot_lifecycle_witness :
  let old := {| limit := Js.Num 100; remaining := Js.Num 7; resetAt := Js.Num 1600000000000 |} in
  let r := Samples.respond 500 Samples.rateHeaders None in
  let st := withInfo (Samples.stateOf None (Samples.always (Resolves 10 r))) (Some old) in
  let off := withInfo (Samples.stateOf None (Samples.always (Rejects 5 "fetch failed"))) (Some old) in
  rateLimitInfo (this (snd (attemptOnce "https://www.moltgram.com/posts" Samples.getPosts [] st)))
  = Some {| limit := Js.Num 100; remaining := Js.Num 42; resetAt := Js.Num 1700000000000 |}
  /\ this (snd (attemptOnce "https://www.moltgram.com/posts" Samples.getPosts [] off)) = this off
  /\ rateLimitInfo (this (snd (request Samples.getPosts off))) = Some old.
Proof.
  intros old r st off.
  destruct snapshot_lifecycle as (_ & H2 & H3 & H4).
  split; [|split].
  - rewrite (H2 st "https://www.moltgram.com/posts" Samples.getPosts [] 10 r
               eq_refl eq_refl eq_refl).
    reflexivity.
  - apply H3. reflexivity.
  - rewrite (H4 off Samples.getPosts (fun k => eq_refl)). reflexivity.
Defined.

(** ** The retry decision *)

(** What an attempt can throw. *)
Lemma attemptOnce_throws (url : string) (config : RequestConfig) (hd : Obj.t string)
    (st st' : State) (e : Thrown) :
  attemptOnce url config hd st = (Throw e, st') ->
  (exists after r, nextOutcome st = Resolves after r /\ ok r = false
                   /\ e = ThrownMoltgram (errorFor (now (world st')) r))
  \/ (exists msg, e = ThrownTypeError msg)
  \/ e = ThrownAbortError
  \/ e = ThrownSyntaxError.
Proof.
  intros Hrun.
  destruct (noResponse (timeout (this st)) (nextOutcome st)) eqn:Hno.
  - destruct (attemptOnce_noResponse url config hd st Hno) as (e0 & ms & Hrun0 & Hcase).
    rewrite Hrun0 in Hrun. inversion Hrun; subst e0.
    destruct Hcase as [-> | (after & msg & _ & ->)]; [right; right; left; reflexivity|].
    right; left; eauto.
  - unfold noResponse in Hno.
    destruct (nextOutcome st) as [after r| |] eqn:Hn; try discriminate.
    apply negb_false_iff in Hno.
    rewrite (attemptOnce_resolves url config hd st after r Hn Hno) in Hrun.
    destruct (ok r) eqn:Hok.
    + destruct (body r); inversion Hrun. right; right; right; reflexivity.
    + inversion Hrun. left. exists after, r. repeat split; assumption.
Qed.

Lemma isRateLimitError_errorFor (t : Z) (r : Response) :
  isRateLimitError (ThrownMoltgram (errorFor t r)) = (status r =? 429).
Proof.
  unfold isRateLimitError, instanceOf. rewrite errorFor_class.
  destruct (status r =? 401) eqn:E1; [apply Z.eqb_eq in E1; rewrite E1; reflexivity|].
  destruct (status r =? 403) eqn:E2; [apply Z.eqb_eq in E2; rewrite E2; reflexivity|].
  destruct (status r =? 404) eqn:E3; [apply Z.eqb_eq in E3; rewrite E3; reflexivity|].
  destruct (status r =? 429) eqn:E4; [reflexivity|].
  destruct (status r =? 400); reflexivity.
Qed.

Lemma isNetworkError_errorFor (t : Z) (r : Response) :
  instanceOf CNetworkError (ThrownMoltgram (errorFor t r)) = false.
Proof.
  unfold instanceOf. rewrite errorFor_class.
  destruct (status r =? 401); [reflexivity|].
  destruct (status r =? 403); [reflexivity|].
  destruct (status r =? 404); [reflexivity|].
  destruct (status r =? 429); [reflexivity|].
  destruct (status r =? 400); reflexivity.
Qed.

(** [shouldRetry] on the error of a response, by the status alone. *)
Lemma shouldRetry_errorFor (c : HttpClient) (t : Z) (r : Response) (attempt : Z) :
  shouldRetry c (ThrownMoltgram (errorFor t r)) attempt
  = if retries c <=? attempt then false
    else if (400 <=? status r) && (status r <? 500) then status r =? 429
    else 500 <=? status r.
Proof.
  unfold shouldRetry.
  rewrite isRateLimitError_errorFor, isNetworkError_errorFor.
  simpl. rewrite errorFor_statusCode. reflexivity.
Qed.

Lemma retryable_errorFor (t : Z) (r : Response) :
  retryable (ThrownMoltgram (errorFor t r))
  = ((500 <=? status r) && (status r <=? 599)) || (status r =? 429).
Proof.
  unfold retryable, isNetworkFailure, isServerError.
  rewrite isRateLimitError_errorFor, isNetworkError_errorFor.
  simpl. rewrite errorFor_statusCode. reflexivity.
Qed.


(** ** Exhausting the retries *)

(** A retryable outcome makes the attempt throw the failure of that
    outcome, and [shouldRetry] then only asks whether attempts remain. *)
Lemma attemptOnce_retryable (url : string) (config : RequestConfig) (hd : Obj.t string)
    (st : State) :
  retryableOutcome (timeout (this st)) (nextOutcome st) = true ->
  let st1 := snd (attemptOnce url config hd st) in
  let e := failureOf (now (world st1)) (nextOutcome st) in
  attemptOnce url config hd st = (Throw e, st1)
  /\ retryable (classify e) = true
  /\ (forall c attempt, shouldRetry c (classify e) attempt = negb (retries c <=? attempt)).
Proof.
  intros H st1 e. subst e st1. unfold retryableOutcome in H.
  destruct (nextOutcome st) as [after r|after msg|] eqn:Hn; [| |discriminate].
  - apply andb_true_iff in H. destruct H as [Ht Hs].
    assert (Hok : ok r = false).
    { unfold ok. apply orb_true_iff in Hs. destruct Hs as [Hs|Hs].
      - apply Z.eqb_eq in Hs. rewrite Hs. reflexivity.
      - apply andb_true_iff in Hs. destruct Hs as [Hs _]. apply Z.leb_le in Hs.
        apply andb_false_iff. right. apply Z.leb_gt. lia. }
    rewrite (attemptOnce_resolves url config hd st after r Hn Ht). rewrite Hok. simpl.
    split; [reflexivity|]. split.
    + rewrite retryable_errorFor. rewrite orb_comm. exact Hs.
    + intros c attempt. rewrite shouldRetry_errorFor.
      destruct (retries c <=? attempt); [reflexivity|]. simpl.
      apply orb_true_iff in Hs. destruct Hs as [Hs|Hs].
      * rewrite Hs. apply Z.eqb_eq in Hs. rewrite Hs. reflexivity.
      * apply andb_true_iff in Hs. destruct Hs as [Hs _]. rewrite Hs.
        apply Z.leb_le in Hs.
        replace (status r <? 500) with false by (symmetry; apply Z.ltb_ge; lia).
        rewrite andb_false_r. reflexivity.
  - apply andb_true_iff in H. destruct H as [Ht Hi].
    assert (Hrun : attemptOnce url config hd st
                   = (Throw (ThrownTypeError msg), settled st (callOf url config hd) after)).
    { unfold nextOutcome in Hn.
      unfold attemptOnce, bind, getThis, fetchWithAbort, bind, getWorld. simpl.
      rewrite Hn, Ht. reflexivity. }
    rewrite Hrun. simpl. rewrite Hi.
    split; [reflexivity|]. split; [reflexivity|].
    intros c attempt. unfold shouldRetry. simpl.
    destruct (retries c <=? attempt); reflexivity.
Qed.

(** The state after the sleep that precedes a retry. *)
Lemma sleep_fields (ms : Z) (st : State) :
  let st' := snd (sleep ms st) in
  this st' = this st
  /\ fetches (world st') = fetches (world st)
  /\ sleeps (world st') = (sleeps (world st) ++ [ms])%list
  /\ network (world st') = network (world st).
Proof. repeat split. Qed.

(** The loop with [n] retries left, all of whose calls fail in a retryable
    way: [n + 1] calls, [n] sleeps, and the failure of the last call. *)
Lemma requestLoop_exhausts (url : string) (config : RequestConfig) (hd : Obj.t string)
    (n : nat) :
  forall (attempt : Z) (last : Thrown) (st : State),
    retries (this st) = attempt + Z.of_nat n ->
    (forall i, (i <= n)%nat ->
               retryableOutcome (timeout (this st))
                 (network (world st) (List.length (fetches (world st)) + i)) = true) ->
    let res := requestLoop (S n) attempt last url config hd st in
    fst res
    = Throw (classify (failureOf (now (world (snd res)))
                         (network (world st) (List.length (fetches (world st)) + n))))
    /\ List.length (fetches (world (snd res))) = (List.length (fetches (world st)) + S n)%nat
    /\ List.length (sleeps (world (snd res))) = (List.length (sleeps (world st)) + n)%nat.
Proof.
  induction n as [|m IH]; intros attempt last st Hr Hall res; subst res.
  - pose proof (Hall 0%nat (Nat.le_refl _)) as H0. rewrite Nat.add_0_r in *.
    destruct (attemptOnce_retryable url config hd st H0) as (Hrun & _ & Hsr).
    pose proof (attemptOnce_fields url config hd st) as (Hret & _ & _ & Hfe & Hsl & _).
    rewrite (requestLoop_step 0 attempt last url config hd st _ _ Hrun).
    rewrite Hsr, Hret.
    replace (retries (this st) <=? attempt) with true by (symmetry; apply Z.leb_le; lia).
    simpl negb. cbv iota. simpl fst. simpl snd.
    split; [reflexivity|]. split.
    + rewrite Hfe, length_app. reflexivity.
    + rewrite Hsl. lia.
  - pose proof (Hall 0%nat (Nat.le_0_l _)) as H0. rewrite Nat.add_0_r in H0.
    destruct (attemptOnce_retryable url config hd st H0) as (Hrun & _ & Hsr).
    pose proof (attemptOnce_fields url config hd st) as (Hret & Htm & _ & Hfe & Hsl & Hnet & _).
    rewrite (requestLoop_step (S m) attempt last url config hd st _ _ Hrun).
    rewrite Hsr, Hret.
    replace (retries (this st) <=? attempt) with false by (symmetry; apply Z.leb_gt; lia).
    simpl negb. cbv iota.
    set (st1 := snd (attemptOnce url config hd st)) in *.
    set (e := classify (failureOf (now (world st1)) (nextOutcome st))) in *.
    set (st2 := snd (sleep (getRetryDelay (this st1) attempt e) st1)).
    destruct (sleep_fields (getRetryDelay (this st1) attempt e) st1)
      as (Hth2 & Hfe2 & Hsl2 & Hnet2).
    fold st2 in Hth2, Hfe2, Hsl2, Hnet2.
    assert (Hlen : List.length (fetches (world st2)) = S (List.length (fetches (world st)))).
    { rewrite Hfe2, Hfe, length_app. simpl. lia. }
    destruct (IH (attempt + 1) e st2) as (Hres & Hnf & Hns).
    + rewrite Hth2, Hret, Hr. lia.
    + intros i Hi. rewrite Hth2, Htm, Hnet2, Hnet, Hlen.
      replace (S (List.length (fetches (world st))) + i)%nat
        with (List.length (fetches (world st)) + S i)%nat by lia.
      apply Hall. lia.
    + rewrite Hres, Hnf, Hns. rewrite Hnet2, Hnet, Hlen, Hsl2, Hsl, length_app.
      replace (S (List.length (fetches (world st))) + m)%nat
        with (List.length (fetches (world st)) + S m)%nat by lia.
      split; [reflexivity|]. split; [lia|].
      change (List.length [getRetryDelay (this st1) attempt e]) with 1%nat. lia.
Qed.

(** C5.  With a retry count [r >= 0] and a transport whose [r + 1] next
    calls all fail in a retryable way (a 5xx or 429 answer, or a network
    failure), [request] makes exactly [r + 1] calls, sleeps [r] times in
    between, and throws the error classified from the last of these calls:
    the result is a [Throw], never a value. *)
Theorem retries_exhausted (config : RequestConfig) (st : State) (u : URL) :
  newURL (world st) (req_path config) (baseUrl (this st)) = Some u ->
  0 <= retries (this st) ->
  (forall i, (i <= Z.to_nat (retries (this st)))%nat ->
             retryableOutcome (timeout (this st))
               (network (world st) (List.length (fetches (world st)) + i)) = true) ->
  let res := request config st in
  let lastOutcome :=
    network (world st) (List.length (fetches (world st)) + Z.to_nat (retries (this st))) in
  fst res = Throw (classify (failureOf (now (world (snd res))) lastOutcome))
  /\ List.length (fetches (world (snd res)))
     = (List.length (fetches (world st)) + (Z.to_nat (retries (this st)) + 1))%nat
  /\ List.length (sleeps (world (snd res)))
     = (List.length (sleeps (world st)) + Z.to_nat (retries (this st)))%nat.
Proof.
  intros Hu Hpos Hall res lastOutcome. subst res lastOutcome.
  rewrite (request_unfold config st u Hu).
  replace (Z.to_nat (retries (this st) + 1)) with (S (Z.to_nat (retries (this st)))) by lia.
  destruct (requestLoop_exhausts (toString (urlOf u (req_query config))) config
              (headersOf (this st) (req_headers config))
              (Z.to_nat (retries (this st))) 0 ThrownUndefined st) as (H1 & H2 & H3).
  - lia.
  - exact Hall.
  - rewrite H1, H2, H3. repeat split. lia.
Qed.

Lemma retries_exhausted_witness :
  let r := Samples.respond 500 [] (Some (Samples.errorBody "boom" None)) in
  let st := Samples.stateOf (Some 3) (Samples.always (Resolves 10 r)) in
  fst (request Samples.getPosts st)
  = Throw (ThrownMoltgram (newMoltgramError "boom" (Some 500) None None))
  /\ List.length (fetches (world (snd (request Samples.getPosts st)))) = 4%nat
  /\ List.length (sleeps (world (snd (request Samples.getPosts st)))) = 3%nat.
Proof.
  intros r st.
  assert (Hu : newURL (world st) (req_path Samples.getPosts) (baseUrl (this st))
               = Some {| stem := "https://www.moltgram.com/posts"; query := None;
                         searchParams := []; fragment := None |}) by reflexivity.
  assert (Hpos : 0 <= retries (this st)) by (vm_compute; discriminate).
  assert (Hall : forall i, (i <= Z.to_nat (retries (this st)))%nat ->
                           retryableOutcome (timeout (this st))
                             (network (world st) (List.length (fetches (world st)) + i)) = true)
    by (intros i _; reflexivity).
  destruct (retries_exhausted Samples.getPosts st _ Hu Hpos Hall) as (H1 & H2 & H3).
  split; [|split].
  - rewrite H1. reflexivity.
  - rewrite H2. reflexivity.
  - rewrite H3. reflexivity.
Defined.

(** ** Which failures are retried *)

Lemma retried_errorFor (t : Z) (r : Response) :
  retried (ThrownMoltgram (errorFor t r)) = ((500 <=? status r) || (status r =? 429)).
Proof.
  unfold retried, isNetworkFailure, statusAtLeast500.
  rewrite isRateLimitError_errorFor, isNetworkError_errorFor.
  simpl. rewrite errorFor_statusCode. reflexivity.
Qed.

(** [shouldRetry] on whatever an attempt throws: attempts remain and the
    failure is one of the three kinds. *)
Lemma shouldRetry_retried (url : string) (config : RequestConfig) (hd : Obj.t string)
    (st st' : State) (e : Thrown) (c : HttpClient) (attempt : Z) :
  attemptOnce url config hd st = (Throw e, st') ->
  shouldRetry c (classify e) attempt = (attempt <? retries c) && retried (classify e).
Proof.
  intros Hrun. rewrite Z.ltb_antisym.
  destruct (attemptOnce_throws url config hd st st' e Hrun)
    as [(after & r & _ & _ & ->) | [(msg & ->) | [-> | ->]]].
  - simpl classify. rewrite shouldRetry_errorFor, retried_errorFor.
    destruct (retries c <=? attempt); [reflexivity|]. simpl negb. cbn [andb].
    destruct (400 <=? status r) eqn:E1; destruct (status r <? 500) eqn:E2;
      destruct (500 <=? status r) eqn:E3; destruct (status r =? 429) eqn:E5; simpl;
      repeat match goal with
        | H : (_ <=? _) = true |- _ => apply Z.leb_le in H
        | H : (_ <=? _) = false |- _ => apply Z.leb_gt in H
        | H : (_ <? _) = true |- _ => apply Z.ltb_lt in H
        | H : (_ <? _) = false |- _ => apply Z.ltb_ge in H
        | H : (_ =? _) = true |- _ => apply Z.eqb_eq in H
        | H : (_ =? _) = false |- _ => apply Z.eqb_neq in H
        end; try reflexivity; lia.
  - simpl classify. destruct (Js.includes msg "fetch"); unfold shouldRetry, retried; simpl;
      destruct (retries c <=? attempt); reflexivity.
  - unfold shouldRetry, retried. simpl. destruct (retries c <=? attempt); reflexivity.
  - unfold shouldRetry, retried. simpl. destruct (retries c <=? attempt); reflexivity.
Qed.

(** A loop only adds calls and sleeps, and one that runs makes a call. *)
Lemma requestLoop_grows (url : string) (config : RequestConfig) (hd : Obj.t string) (n : nat) :
  forall (attempt : Z) (last : Thrown) (st : State),
    let st' := snd (requestLoop n attempt last url config hd st) in
    (List.length (fetches (world st)) <= List.length (fetches (world st')))%nat
    /\ (List.length (sleeps (world st)) <= List.length (sleeps (world st')))%nat
    /\ (n <> 0%nat ->
        (List.length (fetches (world st)) + 1 <= List.length (fetches (world st')))%nat).
Proof.
  induction n as [|n IH]; intros attempt last st; cbv zeta.
  - simpl. repeat split; try lia.
  - pose proof (attemptOnce_fields url config hd st) as (_ & _ & _ & Hfe & Hsl & _).
    destruct (attemptOnce url config hd st) as [[j|e] st1] eqn:Hrun; cbn [snd] in Hfe, Hsl.
    + rewrite (requestLoop_returns n attempt last url config hd st st1 j Hrun). cbn [snd].
      rewrite Hfe, Hsl, !length_app. cbn [List.length]. repeat split; lia.
    + rewrite (requestLoop_step n attempt last url config hd st st1 e Hrun).
      destruct (shouldRetry (this st1) (classify e) attempt).
      * destruct (sleep_fields (getRetryDelay (this st1) attempt (classify e)) st1)
          as (_ & Hfe2 & Hsl2 & _).
        destruct (IH (attempt + 1) (classify e)
                    (snd (sleep (getRetryDelay (this st1) attempt (classify e)) st1)))
          as (H1 & H2 & _).
        rewrite Hfe2, Hfe, length_app in H1. rewrite Hsl2, Hsl, length_app in H2.
        cbn [List.length] in H1, H2. repeat split; lia.
      * cbn [snd]. rewrite Hfe, Hsl, !length_app. cbn [List.length]. repeat split; lia.
Qed.

Lemma attemptOnce_rejects (url : string) (config : RequestConfig) (hd : Obj.t string)
    (st : State) (after : Z) (msg : string) :
  nextOutcome st = Rejects after msg ->
  (after <? timeout (this st)) = true ->
  attemptOnce url config hd st
  = (Throw (ThrownTypeError msg), settled st (callOf url config hd) after).
Proof.
  intros Hn Ht. unfold nextOutcome in Hn.
  unfold attemptOnce, bind, getThis, fetchWithAbort, bind, getWorld. simpl.
  rewrite Hn, Ht. reflexivity.
Qed.

Lemma attemptOnce_timesOut (url : string) (config : RequestConfig) (hd : Obj.t string)
    (st : State) :
  timesOut (timeout (this st)) (nextOutcome st) = true ->
  attemptOnce url config hd st
  = (Throw ThrownAbortError, settled st (callOf url config hd) (timeout (this st))).
Proof.
  unfold nextOutcome, timesOut. intros H.
  unfold attemptOnce, bind, getThis, fetchWithAbort, bind, getWorld. simpl.
  destruct (network (world st) (List.length (fetches (world st)))) as [after r|after msg|].
  - apply negb_true_iff in H. rewrite H. reflexivity.
  - apply negb_true_iff in H. rewrite H. reflexivity.
  - reflexivity.
Qed.

(** C3, refuted as stated.  A response with status 600 is none of a
    network failure, a 5xx-class error or a rate limit, and it is retried:
    [shouldRetry] asks for a status of 500 or more, and [request] makes four
    calls against a service that always answers 600. *)
Lemma status_600_is_retried :
  let r := Samples.respond 600 [] None in
  let st := Samples.stateOf None (Samples.always (Resolves 10 r)) in
  let e := ThrownMoltgram (errorFor 0 r) in
  isNetworkFailure e = false
  /\ isServerError e = false
  /\ isRateLimitError e = false
  /\ retryable e = false
  /\ shouldRetry (this st) e 0 = true
  /\ List.length (fetches (world (snd (request Samples.getPosts st)))) = 4%nat
  /\ sleeps (world (snd (request Samples.getPosts st))) = [1000; 2000; 4000].
Proof. vm_compute. repeat split. Qed.

(** C3, amended.  For whatever an attempt throws, [shouldRetry] says yes
    exactly when attempts remain and the failure is a [NetworkError], an
    error with a status of 500 or more, or a [RateLimitError].  When it
    says yes the loop sleeps the delay of [getRetryDelay] and goes on to
    the next attempt, which makes another call; when it says no the loop
    ends at once with that error, after the one call of this attempt and
    without a sleep.  The failure is a [NetworkError] exactly when [fetch]
    rejected with a [TypeError] whose message contains [fetch]; a response
    that is not 2xx is retried exactly for a status of 500 or more or of
    429, so every other 4xx (401, 403, 404, 400, 409, ...) is thrown after
    this one attempt; an aborted call and a 2xx body that does not parse
    are never retried. *)
Theorem retry_decision (url : string) (config : RequestConfig) (hd : Obj.t string)
    (st st' : State) (e : Thrown) (n : nat) (attempt : Z) (last : Thrown) :
  attemptOnce url config hd st = (Throw e, st') ->
  let err := classify e in
  let again := (attempt <? retries (this st')) && retried err in
  let next := snd (sleep (getRetryDelay (this st') attempt err) st') in
  let loop := requestLoop (S n) attempt last url config hd st in
  shouldRetry (this st') err attempt = again
  /\ retries (this st') = retries (this st)
  /\ fetches (world st') = (fetches (world st) ++ [callOf url config hd])%list
  /\ (again = true ->
      loop = requestLoop n (attempt + 1) err url config hd next
      /\ fetches (world next) = fetches (world st')
      /\ sleeps (world next)
         = (sleeps (world st) ++ [getRetryDelay (this st') attempt err])%list
      /\ (n <> 0%nat ->
          (List.length (fetches (world st)) + 2
           <= List.length (fetches (world (snd loop))))%nat)
      /\ (List.length (sleeps (world st)) + 1 <= List.length (sleeps (world (snd loop))))%nat)
  /\ (again = false ->
      loop = (Throw err, st') /\ sleeps (world st') = sleeps (world st))
  /\ (forall after msg,
         nextOutcome st = Rejects after msg -> (after <? timeout (this st)) = true ->
         err = (if Js.includes msg "fetch"
                then ThrownMoltgram (newNetworkError (Some "Network request failed"))
                else ThrownTypeError msg)
         /\ isNetworkFailure err = Js.includes msg "fetch"
         /\ retried err = Js.includes msg "fetch")
  /\ (forall after r,
         nextOutcome st = Resolves after r -> (after <? timeout (this st)) = true ->
         (ok r = false ->
          err = ThrownMoltgram (errorFor (now (world st')) r)
          /\ retried err = ((500 <=? status r) || (status r =? 429)))
         /\ (ok r = true -> err = ThrownSyntaxError /\ retried err = false))
  /\ (timesOut (timeout (this st)) (nextOutcome st) = true ->
      err = ThrownAbortError /\ retried err = false)
  /\ (forall u,
         newURL (world st) (req_path config) (baseUrl (this st)) = Some u ->
         url = toString (urlOf u (req_query config)) ->
         hd = headersOf (this st) (req_headers config) ->
         0 <= retries (this st) ->
         let first := (0 <? retries (this st)) && retried err in
         (first = false -> request config st = (Throw err, st'))
         /\ (first = true ->
             (List.length (fetches (world st)) + 2
              <= List.length (fetches (world (snd (request config st)))))%nat
             /\ (List.length (sleeps (world st)) + 1
                 <= List.length (sleeps (world (snd (request config st)))))%nat)).
Proof.
  intros Hrun err again next loop.
  pose proof (attemptOnce_fields url config hd st) as Hf.
  rewrite Hrun in Hf. cbn [snd] in Hf. destruct Hf as (Hr & _ & _ & Hfe & Hsl & _).
  assert (Hdec : forall a, shouldRetry (this st') err a = (a <? retries (this st')) && retried err)
    by (intros a; apply (shouldRetry_retried url config hd st st' e (this st') a Hrun)).
  assert (Hstep : forall m a l,
             requestLoop (S m) a l url config hd st
             = if (a <? retries (this st')) && retried err
               then requestLoop m (a + 1) err url config hd
                      (snd (sleep (getRetryDelay (this st') a err) st'))
               else (Throw err, st')).
  { intros m a l. rewrite (requestLoop_step m a l url config hd st st' e Hrun).
    fold err. rewrite Hdec. reflexivity. }
  assert (Hmore : forall m a l,
             (a <? retries (this st')) && retried err = true ->
             (m <> 0%nat ->
              (List.length (fetches (world st)) + 2
               <= List.length (fetches (world (snd (requestLoop (S m) a l url config hd st)))))%nat)
             /\ (List.length (sleeps (world st)) + 1
                 <= List.length (sleeps (world (snd (requestLoop (S m) a l url config hd st)))))%nat).
  { intros m a l Hag. rewrite Hstep, Hag.
    destruct (sleep_fields (getRetryDelay (this st') a err) st') as (_ & Hfe2 & Hsl2 & _).
    destruct (requestLoop_grows url config hd m (a + 1) err
                (snd (sleep (getRetryDelay (this st') a err) st'))) as (_ & H2 & H3).
    rewrite Hsl2, Hsl, length_app in H2. cbn [List.length] in H2.
    split; [|lia]. intros Hm. specialize (H3 Hm).
    rewrite Hfe2, Hfe, length_app in H3. cbn [List.length] in H3. lia. }
  split; [apply Hdec|]. split; [exact Hr|]. split; [exact Hfe|].
  split.
  { intros Hag. subst loop next again.
    destruct (sleep_fields (getRetryDelay (this st') attempt err) st')
      as (_ & Hfe2 & Hsl2 & _).
    split; [rewrite Hstep, Hag; reflexivity|].
    split; [exact Hfe2|]. split; [rewrite Hsl2, Hsl; reflexivity|].
    apply (Hmore n attempt last Hag). }
  split.
  { intros Hag. subst loop again. split; [rewrite Hstep, Hag; reflexivity | exact Hsl]. }
  split.
  { intros after msg Hn Ht.
    rewrite (attemptOnce_rejects url config hd st after msg Hn Ht) in Hrun.
    inversion Hrun; subst e. subst err. simpl classify.
    destruct (Js.includes msg "fetch"); repeat split. }
  split.
  { intros after r Hn Ht.
    rewrite (attemptOnce_resolves url config hd st after r Hn Ht) in Hrun.
    split; intros Hok; rewrite Hok in Hrun.
    - inversion Hrun; subst e. subst err. simpl classify.
      split; [reflexivity | apply retried_errorFor].
    - destruct (body r); inversion Hrun; subst e. subst err. split; reflexivity. }
  split.
  { intros Hto. rewrite (attemptOnce_timesOut url config hd st Hto) in Hrun.
    inversion Hrun; subst e. subst err. split; reflexivity. }
  intros u Hu -> -> Hpos first. subst first.
  rewrite (request_unfold config st u Hu).
  replace (Z.to_nat (retries (this st) + 1)) with (S (Z.to_nat (retries (this st)))) by lia.
  rewrite <- Hr. split.
  - intros Hfirst. rewrite Hstep, Hfirst. reflexivity.
  - intros Hfirst.
    destruct (Hmore (Z.to_nat (retries (this st'))) 0 ThrownUndefined Hfirst) as [H1 H2].
    split; [apply H1 | exact H2].
    apply andb_true_iff in Hfirst. destruct Hfirst as [Hlt _].
    apply Z.ltb_lt in Hlt. lia.
Qed.

Lemma retry_decision_witness :
  let taken := Samples.respond 409 [] (Some (Samples.errorBody "taken" None)) in
  let odd := Samples.respond 600 [] None in
  let quiet := Samples.stateOf None (Samples.always (Resolves 10 taken)) in
  let busy := Samples.stateOf None (Samples.always (Resolves 10 odd)) in
  (fst (request Samples.getPosts quiet)
   = Throw (ThrownMoltgram (newMoltgramError "taken" (Some 409) None None))
   /\ List.length (fetches (world (snd (request Samples.getPosts quiet)))) = 1%nat
   /\ sleeps (world (snd (request Samples.getPosts quiet))) = [])
  /\ (2 <= List.length (fetches (world (snd (request Samples.getPosts busy)))))%nat
  /\ (1 <= List.length (sleeps (world (snd (request Samples.getPosts busy)))))%nat.
Proof.
  intros taken odd quiet busy.
  pose (u := {| stem := "https://www.moltgram.com/posts"; query := None;
                searchParams := []; fragment := None |}).
  pose (url := toString (urlOf u (req_query Samples.getPosts))).
  split.
  - pose (hd := headersOf (this quiet) (req_headers Samples.getPosts)).
    pose (st' := snd (attemptOnce url Samples.getPosts hd quiet)).
    assert (Hrun : attemptOnce url Samples.getPosts hd quiet
                   = (Throw (ThrownMoltgram (errorFor (now (world st')) taken)), st'))
      by reflexivity.
    destruct (retry_decision url Samples.getPosts hd quiet st' _ 3 0 ThrownUndefined Hrun)
      as (_ & _ & _ & _ & _ & _ & _ & _ & Hreq).
    destruct (Hreq u eq_refl eq_refl eq_refl ltac:(vm_compute; discriminate)) as [Hstop _].
    rewrite (Hstop eq_refl). repeat split.
  - pose (hd := headersOf (this busy) (req_headers Samples.getPosts)).
    pose (st' := snd (attemptOnce url Samples.getPosts hd busy)).
    assert (Hrun : attemptOnce url Samples.getPosts hd busy
                   = (Throw (ThrownMoltgram (errorFor (now (world st')) odd)), st'))
      by reflexivity.
    destruct (retry_decision url Samples.getPosts hd busy st' _ 3 0 ThrownUndefined Hrun)
      as (_ & _ & _ & _ & _ & _ & _ & _ & Hreq).
    destruct (Hreq u eq_refl eq_refl eq_refl ltac:(vm_compute; discriminate)) as [_ Hgo].
    exact (Hgo eq_refl).
Defined.

(** ** The URL builder *)

Lemma appendEntries_cons (u : URL) (kv : string * option QueryValue)
    (entries : Obj.t (option QueryValue)) :
  appendEntries u (kv :: entries)
  = appendEntries (match snd kv with
                   | Some value => append u (fst kv) (String_of value)
                   | None => u
                   end) entries.
Proof. reflexivity. Qed.

(** What the [forEach] leaves in the URL. *)
Lemma appendEntries_spec (entries : Obj.t (option QueryValue)) :
  forall u : URL,
    searchParams (appendEntries u entries) = (searchParams u ++ definedEntries entries)%list
    /\ stem (appendEntries u entries) = stem u
    /\ fragment (appendEntries u entries) = fragment u
    /\ query (appendEntries u entries)
       = match definedEntries entries with
         | [] => query u
         | _ :: _ => Some (serialize (searchParams u ++ definedEntries entries))
         end.
Proof.
  induction entries as [|[k [v|]] rest IH]; intros u.
  - simpl. rewrite app_nil_r. repeat split.
  - rewrite appendEntries_cons. simpl snd. simpl fst.
    destruct (IH (append u k (String_of v))) as (Hp & Hs & Hf & Hq).
    rewrite Hp, Hs, Hf, Hq.
    change (definedEntries ((k, Some v) :: rest))
      with ((k, String_of v) :: definedEntries rest).
    simpl searchParams. rewrite <- app_assoc. simpl app.
    repeat split.
    destruct (definedEntries rest); [|reflexivity].
    simpl. reflexivity.
  - rewrite appendEntries_cons. simpl snd.
    destruct (IH u) as (Hp & Hs & Hf & Hq).
    change (definedEntries ((k, None) :: rest)) with (definedEntries rest).
    rewrite Hp, Hs, Hf, Hq. repeat split.
Qed.

Lemma In_definedEntries (entries : Obj.t (option QueryValue)) (k v : string) :
  In (k, v) (definedEntries entries)
  <-> exists x, In (k, Some x) entries /\ v = String_of x.
Proof.
  unfold definedEntries. rewrite in_flat_map. split.
  - intros ([k' [x|]] & Hin & Hkv); simpl in Hkv; [|contradiction].
    destruct Hkv as [Hkv|[]]. inversion Hkv; subst. eauto.
  - intros (x & Hin & ->). exists (k, Some x). split; [exact Hin | left; reflexivity].
Qed.

(** An object has one value per key. *)
Lemma NoDup_keys_functional {V : Type} (l : Obj.t V) (k : string) (a b : V) :
  NoDup (map fst l) -> In (k, a) l -> In (k, b) l -> a = b.
Proof.
  induction l as [|[k' v'] l IH]; intros Hnd Ha Hb; [contradiction|].
  simpl in Hnd. inversion Hnd as [|? ? Hnotin Hnd']; subst.
  destruct Ha as [Ha|Ha], Hb as [Hb|Hb].
  - congruence.
  - inversion Ha; subst. exfalso. apply Hnotin.
    change k with (fst (k, b)). apply in_map. exact Hb.
  - inversion Hb; subst. exfalso. apply Hnotin.
    change k with (fst (k, a)). apply in_map. exact Ha.
  - apply IH; assumption.
Qed.

Lemma pair_piece_empty (k : string) : pair_piece (k, "") = urlencode k ++ "=".
Proof. reflexivity. Qed.

(** C9.  [buildUrl] returns the URL of [new URL(path, base)] with one
    parameter appended for every entry of the query whose value is not
    [undefined], in order, as [name=value] pieces joined by [&] after the
    [?].  An entry whose value is [undefined] adds no parameter (its key is
    absent unless the path already had it); an entry with the empty string
    is present as [key=]; every other entry is present with its value as
    [String] gives it. *)
Theorem query_parameters (st : State) (path : string)
    (entries : Obj.t (option QueryValue)) (u : URL) :
  newURL (world st) path (baseUrl (this st)) = Some u ->
  let built := appendEntries u entries in
  buildUrl path (Some entries) st = (Normal (toString built), st)
  /\ searchParams built = (searchParams u ++ definedEntries entries)%list
  /\ (definedEntries entries <> [] ->
      toString built
      = stem u ++ ("?" ++ String.concat "&" (map pair_piece (searchParams built)))
        ++ match fragment u with Some f => "#" ++ f | None => "" end)
  /\ (forall k v, In (k, v) (searchParams built) ->
                  In (k, v) (searchParams u)
                  \/ exists x, In (k, Some x) entries /\ v = String_of x)
  /\ (forall k, In (k, None) entries -> NoDup (map fst entries) ->
                ~ In k (map fst (searchParams u)) ->
                ~ In k (map fst (searchParams built)))
  /\ (forall k, In (k, Some (QString "")) entries ->
                In (k, "") (searchParams built)
                /\ In (urlencode k ++ "=") (map pair_piece (searchParams built)))
  /\ (forall k v, In (k, Some v) entries ->
                  In (k, String_of v) (searchParams built)
                  /\ In (urlencode k ++ "=" ++ urlencode (String_of v))
                       (map pair_piece (searchParams built))).
Proof.
  intros Hu built. subst built.
  destruct (appendEntries_spec entries u) as (Hp & Hs & Hf & Hq).
  assert (Hdef : forall k v, In (k, Some v) entries ->
                             In (k, String_of v) (searchParams (appendEntries u entries))).
  { intros k v Hin. rewrite Hp. apply in_or_app. right.
    apply In_definedEntries. eauto. }
  split.
  { unfold buildUrl, bind, getThis, getWorld. simpl. rewrite Hu. reflexivity. }
  split; [exact Hp|]. split.
  { intros Hne. unfold toString. rewrite Hs, Hf, Hq, Hp.
    destruct (definedEntries entries); [contradiction|]. reflexivity. }
  split.
  { intros k v Hin. rewrite Hp in Hin. apply in_app_or in Hin.
    destruct Hin as [Hin|Hin]; [left; exact Hin|].
    right. apply In_definedEntries. exact Hin. }
  split.
  { intros k Hnone Hnd Hold Hin. rewrite Hp, map_app in Hin.
    apply in_app_or in Hin. destruct Hin as [Hin|Hin]; [exact (Hold Hin)|].
    apply in_map_iff in Hin. destruct Hin as ([k' v] & Hk & Hin). simpl in Hk. subst k'.
    apply In_definedEntries in Hin. destruct Hin as (x & Hin & _).
    pose proof (NoDup_keys_functional entries k None (Some x) Hnd Hnone Hin). discriminate. }
  split.
  { intros k Hin. pose proof (Hdef k (QString "") Hin) as H. simpl in H.
    split; [exact H|]. rewrite <- pair_piece_empty. apply in_map. exact H. }
  intros k v Hin. split; [apply Hdef; exact Hin|].
  change (urlencode k ++ "=" ++ urlencode (String_of v)) with (pair_piece (k, String_of v)).
  apply in_map. apply Hdef. exact Hin.
Qed.

Lemma query_parameters_witness :
  let st := Samples.stateOf None (Samples.always Pending) in
  let entries := [("sort", Some (QString "hot")); ("limit", Some (QNumber 25));
                  ("offset", None); ("q", Some (QString ""))] in
  let u := {| stem := "https://www.moltgram.com/posts"; query := None;
              searchParams := []; fragment := None |} in
  fst (buildUrl "/posts" (Some entries) st)
  = Normal "https://www.moltgram.com/posts?sort=hot&limit=25&q="
  /\ ~ In "offset" (map fst (searchParams (appendEntries u entries)))
  /\ In "q=" (map pair_piece (searchParams (appendEntries u entries)))
  /\ In "limit=25" (map pair_piece (searchParams (appendEntries u entries))).
Proof.
  intros st entries u.
  destruct (query_parameters st "/posts" entries u eq_refl)
    as (Hb & _ & Hs & _ & Hnone & Hempty & Hdef).
  split; [|split; [|split]].
  - transitivity (fst (Normal (toString (appendEntries u entries)), st));
      [exact (f_equal fst Hb)|].
    unfold fst.
    transitivity (Normal (A:=string)
                    (stem u ++ ("?" ++ String.concat "&"
                                         (map pair_piece (searchParams (appendEntries u entries))))
                     ++ match fragment u with Some f => "#" ++ f | None => "" end));
      [apply f_equal; apply Hs; discriminate | reflexivity].
  - apply (Hnone "offset").
    + right; right; left; reflexivity.
    + repeat constructor; simpl; intuition discriminate.
    + simpl. tauto.
  - apply (Hempty "q"). right; right; right; left; reflexivity.
  - apply (Hdef "limit" (QNumber 25)). right; left; reflexivity.
Defined.

(** ** Construction *)

(** C6, refuted as stated.  A credential with the prefix but shorter than
    the 25 characters [validateApiKey] asks for is accepted by the
    constructor, as the test suite expects of [moltgram_test123]. *)
Lemma short_key_is_accepted :
  let cfg := Samples.configOf (Some "moltgram_test123") None in
  (String.length "moltgram_test123" < 25)%nat
  /\ Validators.validateApiKey (cfg_apiKey cfg)
     = Some (newConfigurationError "apiKey is too short")
  /\ Client.validateConfig cfg = None
  /\ Client.constructor Samples.envNone cfg
     = inr {| Client.httpClient := Http.constructor Samples.envNone cfg |}.
Proof.
  repeat split. vm_compute. lia.
Qed.

Lemma validateConfig_numbers (cfg : HttpClientConfig) :
  match cfg_apiKey cfg with
  | Some k => Js.truthy_string k && negb (Js.startsWith k "moltgram_") = false
  | None => True
  end ->
  numbersValid cfg = true ->
  Client.validateConfig cfg = None.
Proof.
  unfold Client.validateConfig, numbersValid. intros Hk Hn.
  apply andb_true_iff in Hn. destruct Hn as [Ht Hr].
  destruct (cfg_apiKey cfg) as [k|]; [rewrite Hk|];
    (destruct (cfg_timeout cfg) as [t|];
     [apply negb_true_iff in Ht; rewrite Ht|];
     (destruct (cfg_retries cfg) as [r|];
      [apply negb_true_iff in Hr; rewrite Hr|]; reflexivity)).
Qed.

(** C6, amended.  A credential that is provided, not empty and does not
    start with [moltgram_] makes the constructor fail with the
    [ConfigurationError] of [validateConfig], and no [HttpClient] is built.
    The constructor does not look at the length of the credential: with a
    valid timeout and retry count it succeeds for every credential that has
    the prefix, and it succeeds when no credential is given. *)
Theorem credential_checked_at_construction (env : ProcessEnv) (cfg : HttpClientConfig) :
  (forall k, cfg_apiKey cfg = Some k -> k <> "" -> Js.startsWith k "moltgram_" = false ->
             Client.constructor env cfg
             = inl (newConfigurationError
                      ("apiKey must start with " ++ Js.dquote ++ "moltgram_" ++ Js.dquote)))
  /\ (forall k, cfg_apiKey cfg = Some k -> Js.startsWith k "moltgram_" = true ->
                numbersValid cfg = true ->
                Client.constructor env cfg
                = inr {| Client.httpClient := Http.constructor env cfg |})
  /\ (cfg_apiKey cfg = None -> numbersValid cfg = true ->
      Client.constructor env cfg = inr {| Client.httpClient := Http.constructor env cfg |}).
Proof.
  split; [|split].
  - intros k Hk Hne Hp. unfold Client.constructor, Client.validateConfig.
    rewrite Hk, Hp. destruct k; [contradiction|]. reflexivity.
  - intros k Hk Hp Hn. unfold Client.constructor.
    rewrite validateConfig_numbers; [reflexivity| |exact Hn].
    rewrite Hk, Hp. apply andb_false_r.
  - intros Hk Hn. unfold Client.constructor.
    rewrite validateConfig_numbers; [reflexivity| |exact Hn].
    rewrite Hk. exact I.
Qed.

Lemma credential_checked_at_construction_witness :
  Client.constructor Samples.envNone (Samples.configOf (Some "invalid_key") None)
  = inl (newConfigurationError
           ("apiKey must start with " ++ Js.dquote ++ "moltgram_" ++ Js.dquote))
  /\ Client.constructor Samples.envNone (Samples.configOf (Some "moltgram_test123") None)
     = inr {| Client.httpClient :=
                Http.constructor Samples.envNone (Samples.configOf (Some "moltgram_test123") None) |}
  /\ Client.constructor Samples.envNone (Samples.configOf None (Some 3))
     = inr {| Client.httpClient :=
                Http.constructor Samples.envNone (Samples.configOf None (Some 3)) |}.
Proof.
  split; [|split].
  - apply (proj1 (credential_checked_at_construction Samples.envNone
                    (Samples.configOf (Some "invalid_key") None)) "invalid_key");
      [reflexivity | discriminate | reflexivity].
  - apply (proj1 (proj2 (credential_checked_at_construction Samples.envNone
                           (Samples.configOf (Some "moltgram_test123") None)))
             "moltgram_test123"); reflexivity.
  - apply (proj2 (proj2 (credential_checked_at_construction Samples.envNone
                           (Samples.configOf None (Some 3))))); reflexivity.
Defined.

(** ** Sanity checks of the primitives *)

Example parseInt_examples :
  Js.parseInt "100" = Js.Num 100
  /\ Js.parseInt " -42abc" = Js.Num (-42)
  /\ Js.parseInt "abc" = Js.NaN
  /\ Js.parseInt "" = Js.NaN.
Proof. repeat split. Qed.

Example includes_examples :
  Js.includes "Failed to fetch" "fetch" = true
  /\ Js.includes "fetch failed" "fetch" = true
  /\ Js.includes "Load failed" "fetch" = false.
Proof. repeat split. Qed.

Example get_ignores_case :
  get Samples.rateHeaders "X-RateLimit-Remaining" = Some "42"
  /\ get [("Vary", "a"); ("vary", "b")] "VARY" = Some "a, b"
  /\ get Samples.rateHeaders "Retry-After" = None.
Proof. repeat split. Qed.

Example urlencode_examples :
  urlencode "a b&c" = "a+b%26c" /\ urlencode "hot" = "hot" /\ urlencode "" = "".
Proof. repeat split. Qed.

Example success_updates_snapshot :
  let ok200 := Samples.respond 200 Samples.rateHeaders (Some Samples.emptyBody) in
  let res := request Samples.getPosts (Samples.stateOf None (Samples.always (Resolves 10 ok200))) in
  fst res = Normal Samples.emptyBody
  /\ Client.getRateLimitRemaining (this (snd res)) = Some (Js.Num 42)
  /\ Client.isRateLimited (this (snd res)) = false.
Proof. vm_compute. repeat split. Qed.

Example rate_limited_then_success :
  let slow := Samples.respond 429 [] (Some (Samples.errorBody "slow down" (Some 2))) in
  let ok200 := Samples.respond 200 [] (Some Samples.emptyBody) in
  let net := fun n => if Nat.ltb n 2 then Resolves 10 slow else Resolves 10 ok200 in
  let res := request Samples.getPosts (Samples.stateOf None net) in
  fst res = Normal Samples.emptyBody
  /\ sleeps (world (snd res)) = [2000; 2000]
  /\ List.length (fetches (world (snd res))) = 3%nat.
Proof. vm_compute. repeat split. Qed.

(** * Further properties of the client *)

Import Aux.

(** ** The shape of every request *)

Lemma shouldRetry_exhausted (c : HttpClient) (e : Thrown) (attempt : Z) :
  retries c <= attempt -> shouldRetry c e attempt = false.
Proof.
  intros H. unfold shouldRetry.
  replace (retries c <=? attempt) with true by (symmetry; apply Z.leb_le; exact H).
  reflexivity.
Qed.

Lemma sameConfig_refl (c : HttpClient) : sameConfig c c.
Proof. repeat split. Qed.

Lemma sameConfig_trans (a b c : HttpClient) :
  sameConfig a b -> sameConfig b c -> sameConfig a c.
Proof.
  intros (A1 & A2 & A3 & A4 & A5 & A6) (B1 & B2 & B3 & B4 & B5 & B6).
  repeat split; congruence.
Qed.

Lemma parseRateLimitHeaders_config (h : Headers) (st : State) :
  sameConfig (this st) (this (snd (parseRateLimitHeaders h st))).
Proof.
  rewrite parseRateLimitHeaders_run. simpl.
  destruct (carriesRateLimit h); repeat split.
Qed.

Lemma attemptOnce_config (url : string) (config : RequestConfig) (hd : Obj.t string)
    (st : State) :
  sameConfig (this st) (this (snd (attemptOnce url config hd st))).
Proof.
  destruct (noResponse (timeout (this st)) (nextOutcome st)) eqn:Hno.
  - destruct (attemptOnce_noResponse url config hd st Hno) as (e & ms & -> & _).
    apply sameConfig_refl.
  - unfold noResponse in Hno.
    destruct (nextOutcome st) as [after r| |] eqn:Hn; try discriminate.
    apply negb_false_iff in Hno.
    rewrite (attemptOnce_resolves url config hd st after r Hn Hno). simpl.
    apply (parseRateLimitHeaders_config (headers r) (settled st (callOf url config hd) after)).
Qed.

(** The loop with [n] retries left: between one and [n + 1] calls, all the
    same, one sleep fewer than calls, and the configuration untouched. *)
Lemma requestLoop_trace (url : string) (config : RequestConfig) (hd : Obj.t string)
    (n : nat) :
  forall (attempt : Z) (last : Thrown) (st : State),
    retries (this st) = attempt + Z.of_nat n ->
    let st' := snd (requestLoop (S n) attempt last url config hd st) in
    exists k,
      (k <= n)%nat
      /\ fetches (world st')
         = (fetches (world st) ++ repeat (callOf url config hd) (S k))%list
      /\ List.length (sleeps (world st')) = (List.length (sleeps (world st)) + k)%nat
      /\ sameConfig (this st) (this st').
Proof.
  induction n as [|m IH]; intros attempt last st Hr st'; subst st'.
  - pose proof (attemptOnce_fields url config hd st) as (Hret & _ & _ & Hfe & Hsl & _).
    pose proof (attemptOnce_config url config hd st) as Hcfg.
    destruct (attemptOnce url config hd st) as [[j|e] st1] eqn:Hrun.
    + rewrite (requestLoop_returns 0 attempt last url config hd st st1 j Hrun).
      exists 0%nat. cbn [snd] in *. split; [lia|]. split; [exact Hfe|]. split; [rewrite Hsl; lia | exact Hcfg].
    + rewrite (requestLoop_step 0 attempt last url config hd st st1 e Hrun).
      cbn [snd] in Hret. rewrite shouldRetry_exhausted by lia.
      exists 0%nat. cbn [snd] in *. split; [lia|]. split; [exact Hfe|]. split; [rewrite Hsl; lia | exact Hcfg].
  - pose proof (attemptOnce_fields url config hd st) as (Hret & _ & _ & Hfe & Hsl & _).
    pose proof (attemptOnce_config url config hd st) as Hcfg.
    destruct (attemptOnce url config hd st) as [[j|e] st1] eqn:Hrun.
    + rewrite (requestLoop_returns (S m) attempt last url config hd st st1 j Hrun).
      exists 0%nat. cbn [snd] in *. split; [lia|]. split; [exact Hfe|]. split; [rewrite Hsl; lia | exact Hcfg].
    + rewrite (requestLoop_step (S m) attempt last url config hd st st1 e Hrun).
      cbn [snd] in Hret, Hfe, Hsl, Hcfg.
      destruct (shouldRetry (this st1) (classify e) attempt).
      * set (st2 := snd (sleep (getRetryDelay (this st1) attempt (classify e)) st1)).
        destruct (sleep_fields (getRetryDelay (this st1) attempt (classify e)) st1)
          as (Hth2 & Hfe2 & Hsl2 & _).
        fold st2 in Hth2, Hfe2, Hsl2.
        destruct (IH (attempt + 1) (classify e) st2) as (k & Hk & Hf & Hs & Hc).
        { rewrite Hth2, Hret, Hr. lia. }
        exists (S k). split; [lia|]. split; [|split].
        -- rewrite Hf, Hfe2, Hfe, <- app_assoc. reflexivity.
        -- rewrite Hs, Hsl2, Hsl, length_app.
           change (List.length [getRetryDelay (this st1) attempt (classify e)]) with 1%nat. lia.
        -- apply (sameConfig_trans _ (this st1)); [exact Hcfg|].
           rewrite <- Hth2. exact Hc.
      * exists 0%nat. cbn [snd]. split; [lia|]. split; [exact Hfe|]. split; [rewrite Hsl; lia | exact Hcfg].
Qed.



(** ** Success after retries *)

(** The delay after a failed attempt depends on the outcome of the call,
    the attempt and the base delay only, not on the clock. *)
Lemma getRetryDelay_failureOf (c c' : HttpClient) (attempt t : Z) (o : FetchOutcome) :
  retryDelay c = retryDelay c' ->
  getRetryDelay c attempt (classify (failureOf t o)) = delayAfter c' attempt o.
Proof.
  intros Hd. unfold delayAfter. destruct o as [after r|after msg|].
  - simpl failureOf. simpl classify.
    destruct (status r =? 429) eqn:E.
    + apply Z.eqb_eq in E. rewrite !(errorFor_429 _ r E). reflexivity.
    + rewrite !getRetryDelay_backoff, Hd by (rewrite isRateLimitError_errorFor; exact E).
      reflexivity.
  - simpl. destruct (Js.includes msg "fetch"); simpl; rewrite Hd; reflexivity.
  - simpl. rewrite Hd. reflexivity.
Qed.

Lemma delaysFrom_ext (c c' : HttpClient) (net : nat -> FetchOutcome) (k : nat) :
  retryDelay c = retryDelay c' ->
  forall attempt base, delaysFrom c net attempt base k = delaysFrom c' net attempt base k.
Proof.
  intros Hd. induction k as [|k IH]; intros attempt base; simpl; [reflexivity|].
  rewrite IH. f_equal. unfold delayAfter.
  apply (getRetryDelay_failureOf c c' attempt 0 (net base) Hd).
Qed.

Lemma attemptOnce_succeeds (url : string) (config : RequestConfig) (hd : Obj.t string)
    (st : State) (j : Json) :
  succeedsWith (timeout (this st)) (nextOutcome st) j ->
  fst (attemptOnce url config hd st) = Normal j.
Proof.
  intros (after & r & Hn & Ht & Hok & Hb).
  rewrite (attemptOnce_resolves url config hd st after r Hn Ht). simpl.
  rewrite Hok, Hb. reflexivity.
Qed.

(** The loop when [k] calls fail in a retryable way and the next one
    succeeds, with at least [k] retries left. *)
Lemma requestLoop_succeeds (url : string) (config : RequestConfig) (hd : Obj.t string)
    (j : Json) (k : nat) :
  forall (n : nat) (attempt : Z) (last : Thrown) (st : State),
    retries (this st) = attempt + Z.of_nat n ->
    (k <= n)%nat ->
    (forall i, (i < k)%nat ->
               retryableOutcome (timeout (this st))
                 (network (world st) (List.length (fetches (world st)) + i)) = true) ->
    succeedsWith (timeout (this st))
      (network (world st) (List.length (fetches (world st)) + k)) j ->
    let res := requestLoop (S n) attempt last url config hd st in
    fst res = Normal j
    /\ List.length (fetches (world (snd res))) = (List.length (fetches (world st)) + S k)%nat
    /\ sleeps (world (snd res))
       = (sleeps (world st)
          ++ delaysFrom (this st) (network (world st)) attempt
               (List.length (fetches (world st))) k)%list.
Proof.
  induction k as [|k IH]; intros n attempt last st Hr Hk Hall Hok res; subst res.
  - rewrite Nat.add_0_r in Hok.
    pose proof (attemptOnce_succeeds url config hd st j Hok) as Hres.
    pose proof (attemptOnce_fields url config hd st) as (_ & _ & _ & Hfe & Hsl & _).
    destruct (attemptOnce url config hd st) as [[j'|e] st1] eqn:Hrun;
      cbn [fst snd] in *; [|discriminate].
    inversion Hres; subst j'.
    rewrite (requestLoop_returns n attempt last url config hd st st1 j Hrun).
    cbn [fst snd]. split; [reflexivity|]. split.
    + rewrite Hfe, length_app. reflexivity.
    + rewrite Hsl. simpl. rewrite app_nil_r. reflexivity.
  - destruct n as [|m]; [lia|].
    pose proof (Hall 0%nat (Nat.lt_0_succ _)) as H0. rewrite Nat.add_0_r in H0.
    destruct (attemptOnce_retryable url config hd st H0) as (Hrun & _ & Hsr).
    pose proof (attemptOnce_fields url config hd st)
      as (Hret & Htm & Hrd & Hfe & Hsl & Hnet & _).
    rewrite (requestLoop_step (S m) attempt last url config hd st _ _ Hrun).
    rewrite Hsr, Hret.
    replace (retries (this st) <=? attempt) with false by (symmetry; apply Z.leb_gt; lia).
    simpl negb. cbv iota.
    set (st1 := snd (attemptOnce url config hd st)) in *.
    set (e := classify (failureOf (now (world st1)) (nextOutcome st))) in *.
    set (st2 := snd (sleep (getRetryDelay (this st1) attempt e) st1)).
    destruct (sleep_fields (getRetryDelay (this st1) attempt e) st1)
      as (Hth2 & Hfe2 & Hsl2 & Hnet2).
    fold st2 in Hth2, Hfe2, Hsl2, Hnet2.
    assert (Hlen : List.length (fetches (world st2)) = S (List.length (fetches (world st)))).
    { rewrite Hfe2, Hfe, length_app. simpl. lia. }
    destruct (IH m (attempt + 1) e st2) as (Hres & Hnf & Hns).
    + rewrite Hth2, Hret, Hr. lia.
    + lia.
    + intros i Hi. rewrite Hth2, Htm, Hnet2, Hnet, Hlen.
      replace (S (List.length (fetches (world st))) + i)%nat
        with (List.length (fetches (world st)) + S i)%nat by lia.
      apply Hall. lia.
    + rewrite Hth2, Htm, Hnet2, Hnet, Hlen.
      replace (S (List.length (fetches (world st))) + k)%nat
        with (List.length (fetches (world st)) + S k)%nat by lia.
      exact Hok.
    + split; [exact Hres|]. split; [rewrite Hnf, Hlen; lia|].
      rewrite Hns, Hsl2, Hsl, Hnet2, Hnet, Hlen, <- app_assoc.
      f_equal. cbn [delaysFrom app]. f_equal.
      * subst e. apply getRetryDelay_failureOf. exact Hrd.
      * apply delaysFrom_ext. rewrite Hth2. exact Hrd.
Qed.

(** X2.  When the next [k] calls fail in a retryable way, [k] being at most
    the retry count, and the call after them gets a 2xx answer in time with
    a body that parses, [request] returns that body after [k + 1] calls.  It
    has slept [k] times: after a 429 the [retryAfter] of the body (or 60)
    times 1000 ms, after any other failure the base delay times 2 to the
    attempt index. *)
Theorem request_succeeds_after_retries (config : RequestConfig) (st : State) (u : URL)
    (k : nat) (j : Json) :
  newURL (world st) (req_path config) (baseUrl (this st)) = Some u ->
  Z.of_nat k <= retries (this st) ->
  (forall i, (i < k)%nat ->
             retryableOutcome (timeout (this st))
               (network (world st) (List.length (fetches (world st)) + i)) = true) ->
  succeedsWith (timeout (this st))
    (network (world st) (List.length (fetches (world st)) + k)) j ->
  let res := request config st in
  fst res = Normal j
  /\ List.length (fetches (world (snd res))) = (List.length (fetches (world st)) + S k)%nat
  /\ sleeps (world (snd res))
     = (sleeps (world st)
        ++ delaysFrom (this st) (network (world st)) 0 (List.length (fetches (world st))) k)%list
  /\ (forall attempt after r,
         status r = 429 ->
         delayAfter (this st) attempt (Resolves after r) = retryAfterOf r * 1000)
  /\ (forall attempt after r,
         status r <> 429 ->
         delayAfter (this st) attempt (Resolves after r) = retryDelay (this st) * 2 ^ attempt)
  /\ (forall attempt after msg,
         delayAfter (this st) attempt (Rejects after msg) = retryDelay (this st) * 2 ^ attempt).
Proof.
  intros Hu Hk Hall Hok res. subst res.
  rewrite (request_unfold config st u Hu).
  replace (Z.to_nat (retries (this st) + 1)) with (S (Z.to_nat (retries (this st)))) by lia.
  destruct (requestLoop_succeeds (toString (urlOf u (req_query config))) config
              (headersOf (this st) (req_headers config)) j k
              (Z.to_nat (retries (this st))) 0 ThrownUndefined st) as (H1 & H2 & H3);
    try assumption; try lia.
  split; [exact H1|]. split; [exact H2|]. split; [exact H3|]. split; [|split].
  - intros attempt after r Hs. unfold delayAfter. cbn [failureOf classify].
    rewrite (errorFor_429 0 r Hs). reflexivity.
  - intros attempt after r Hs. unfold delayAfter. cbn [failureOf classify].
    apply getRetryDelay_backoff. rewrite isRateLimitError_errorFor.
    apply Z.eqb_neq. exact Hs.
  - intros attempt after msg. unfold delayAfter. cbn [failureOf classify].
    destruct (Js.includes msg "fetch"); reflexivity.
Qed.

Lemma request_succeeds_after_retries_witness :
  let slow := Samples.respond 429 [] (Some (Samples.errorBody "slow down" (Some 2))) in
  let fine := Samples.respond 200 [] (Some Samples.emptyBody) in
  let net := fun n => if Nat.ltb n 2 then Resolves 10 slow else Resolves 10 fine in
  let st := Samples.stateOf None net in
  fst (request Samples.getPosts st) = Normal Samples.emptyBody
  /\ List.length (fetches (world (snd (request Samples.getPosts st)))) = 3%nat
  /\ sleeps (world (snd (request Samples.getPosts st))) = [2000; 2000].
Proof.
  intros slow fine net st.
  assert (Hall : forall i, (i < 2)%nat ->
                           retryableOutcome (timeout (this st))
                             (network (world st) (List.length (fetches (world st)) + i)) = true).
  { intros i Hi. destruct i as [|[|i]]; [reflexivity | reflexivity | lia]. }
  assert (Hok : succeedsWith (timeout (this st))
                  (network (world st) (List.length (fetches (world st)) + 2)) Samples.emptyBody).
  { exists 10, fine. repeat split. }
  destruct (request_succeeds_after_retries Samples.getPosts st
              {| stem := "https://www.moltgram.com/posts"; query := None;
                 searchParams := []; fragment := None |} 2 Samples.emptyBody
              eq_refl) as (H1 & H2 & H3 & _); try assumption.
  - vm_compute. discriminate.
  - split; [exact H1|]. split; [rewrite H2; reflexivity | rewrite H3; reflexivity].
Defined.


(** ** Failures that end a request at once *)

(** Only a [MoltgramError] is ever retried. *)
Lemma shouldRetry_not_moltgram (c : HttpClient) (e : Thrown) (attempt : Z) :
  isMoltgramError e = false -> shouldRetry c e attempt = false.
Proof.
  intros H. unfold shouldRetry.
  destruct (retries c <=? attempt); [reflexivity|].
  destruct e; try reflexivity. discriminate.
Qed.

(** A first attempt whose failure [shouldRetry] refuses is the whole
    request. *)
Lemma request_stops_first (config : RequestConfig) (st st' : State) (u : URL) (e : Thrown) :
  newURL (world st) (req_path config) (baseUrl (this st)) = Some u ->
  0 <= retries (this st) ->
  attemptOnce (toString (urlOf u (req_query config))) config
    (headersOf (this st) (req_headers config)) st = (Throw e, st') ->
  shouldRetry (this st') (classify e) 0 = false ->
  request config st = (Throw (classify e), st').
Proof.
  intros Hu Hpos Hrun Hs.
  rewrite (request_unfold config st u Hu).
  replace (Z.to_nat (retries (this st) + 1)) with (S (Z.to_nat (retries (this st)))) by lia.
  rewrite (requestLoop_step _ 0 ThrownUndefined _ config _ st st' e Hrun), Hs.
  reflexivity.
Qed.

(** X3.  A 2xx answer whose body does not parse is not a success and is
    not retried: [request] throws the [SyntaxError] of [response.json()]
    after this one call, without a sleep, whatever the retry count; the
    rate-limit headers of the answer have been recorded all the same. *)
Theorem malformed_success_body_is_thrown (config : RequestConfig) (st : State) (u : URL)
    (after : Z) (r : Response) :
  newURL (world st) (req_path config) (baseUrl (this st)) = Some u ->
  0 <= retries (this st) ->
  nextOutcome st = Resolves after r ->
  (after <? timeout (this st)) = true ->
  ok r = true ->
  body r = None ->
  let res := request config st in
  fst res = Throw ThrownSyntaxError
  /\ List.length (fetches (world (snd res))) = S (List.length (fetches (world st)))
  /\ sleeps (world (snd res)) = sleeps (world st)
  /\ (carriesRateLimit (headers r) = true ->
      rateLimitInfo (this (snd res)) = Some (snapshotOf (headers r))).
Proof.
  intros Hu Hpos Hn Ht Hok Hb res. subst res.
  set (url := toString (urlOf u (req_query config))).
  set (hd := headersOf (this st) (req_headers config)).
  pose proof (attemptOnce_resolves url config hd st after r Hn Ht) as Hrun.
  cbv zeta in Hrun. rewrite Hok, Hb in Hrun.
  rewrite (request_stops_first config st _ u ThrownSyntaxError Hu Hpos Hrun)
    by (apply shouldRetry_not_moltgram; reflexivity).
  cbn [fst snd classify]. split; [reflexivity|].
  rewrite parseRateLimitHeaders_run.
  destruct (carriesRateLimit (headers r)); cbn [snd].
  - split; [simpl; rewrite length_app; simpl; lia|]. split; reflexivity.
  - split; [simpl; rewrite length_app; simpl; lia|]. split; [reflexivity | discriminate].
Qed.

Lemma malformed_success_body_is_thrown_witness :
  let r := Samples.respond 200 Samples.rateHeaders None in
  let st := Samples.stateOf (Some 5) (Samples.always (Resolves 10 r)) in
  fst (request Samples.getPosts st) = Throw ThrownSyntaxError
  /\ List.length (fetches (world (snd (request Samples.getPosts st)))) = 1%nat
  /\ Client.getRateLimitRemaining (this (snd (request Samples.getPosts st))) = Some (Js.Num 42).
Proof.
  intros r st.
  destruct (malformed_success_body_is_thrown Samples.getPosts st
              {| stem := "https://www.moltgram.com/posts"; query := None;
                 searchParams := []; fragment := None |} 10 r eq_refl)
    as (H1 & H2 & _ & H4); try reflexivity.
  - vm_compute. discriminate.
  - split; [exact H1|]. split; [exact H2|].
    unfold Client.getRateLimitRemaining. rewrite (H4 eq_refl). reflexivity.
Defined.

(** X4.  A rejected [fetch] is taken for a network failure only when the
    message of its [TypeError] contains [fetch].  With any other message
    the [TypeError] itself is thrown after this one call, without a retry
    and without a sleep, and the client is left as it was. *)
Theorem other_type_errors_are_not_retried (config : RequestConfig) (st : State) (u : URL)
    (after : Z) (msg : string) :
  newURL (world st) (req_path config) (baseUrl (this st)) = Some u ->
  0 <= retries (this st) ->
  nextOutcome st = Rejects after msg ->
  (after <? timeout (this st)) = true ->
  Js.includes msg "fetch" = false ->
  let res := request config st in
  fst res = Throw (ThrownTypeError msg)
  /\ List.length (fetches (world (snd res))) = S (List.length (fetches (world st)))
  /\ sleeps (world (snd res)) = sleeps (world st)
  /\ this (snd res) = this st.
Proof.
  intros Hu Hpos Hn Ht Hi res. subst res.
  set (url := toString (urlOf u (req_query config))).
  set (hd := headersOf (this st) (req_headers config)).
  assert (Hrun : attemptOnce url config hd st
                 = (Throw (ThrownTypeError msg), settled st (callOf url config hd) after)).
  { unfold nextOutcome in Hn.
    unfold attemptOnce, bind, getThis, fetchWithAbort, bind, getWorld. simpl.
    rewrite Hn, Ht. reflexivity. }
  assert (Hc : classify (ThrownTypeError msg) = ThrownTypeError msg)
    by (simpl; rewrite Hi; reflexivity).
  rewrite (request_stops_first config st _ u _ Hu Hpos Hrun)
    by (rewrite Hc; apply shouldRetry_not_moltgram; reflexivity).
  rewrite Hc. cbn [fst snd]. split; [reflexivity|].
  split; [simpl; rewrite length_app; simpl; lia|]. split; reflexivity.
Qed.

Lemma other_type_errors_are_not_retried_witness :
  let st := Samples.stateOf None (Samples.always (Rejects 5 "Load failed")) in
  fst (request Samples.getPosts st) = Throw (ThrownTypeError "Load failed")
  /\ List.length (fetches (world (snd (request Samples.getPosts st)))) = 1%nat.
Proof.
  intros st.
  destruct (other_type_errors_are_not_retried Samples.getPosts st
              {| stem := "https://www.moltgram.com/posts"; query := None;
                 searchParams := []; fragment := None |} 5 "Load failed" eq_refl)
    as (H1 & H2 & _); try reflexivity.
  - vm_compute. discriminate.
  - split; [exact H1 | exact H2].
Defined.

(** X5.  Two requests make no call at all.  When [new URL] rejects the path
    the [TypeError] is thrown before the loop; and on an [HttpClient] built
    with a negative retry count, which its constructor accepts, the loop
    body never runs and [request] throws [undefined].  Either way the state
    is untouched. *)
Theorem request_without_a_call (config : RequestConfig) (st : State) :
  (newURL (world st) (req_path config) (baseUrl (this st)) = None ->
   request config st = (Throw (ThrownTypeError "Invalid URL"), st))
  /\ (forall u, newURL (world st) (req_path config) (baseUrl (this st)) = Some u ->
                retries (this st) < 0 ->
                request config st = (Throw ThrownUndefined, st)).
Proof.
  split.
  - apply request_invalid_url.
  - intros u Hu Hneg. rewrite (request_unfold config st u Hu).
    replace (Z.to_nat (retries (this st) + 1)) with 0%nat by lia.
    reflexivity.
Qed.

Lemma request_without_a_call_witness :
  let st := Samples.stateOf (Some (-1)) (Samples.always Pending) in
  let lost := {| this := this st;
                 world := {| now := 0; fetches := []; sleeps := [];
                             network := Samples.always Pending;
                             newURL := fun _ _ => None |} |} in
  request Samples.getPosts st = (Throw ThrownUndefined, st)
  /\ request Samples.getPosts lost = (Throw (ThrownTypeError "Invalid URL"), lost).
Proof.
  intros st lost. split.
  - apply (proj2 (request_without_a_call Samples.getPosts st)
             {| stem := "https://www.moltgram.com/posts"; query := None;
                searchParams := []; fragment := None |}); [reflexivity|].
    vm_compute. reflexivity.
  - apply (proj1 (request_without_a_call Samples.getPosts lost)). reflexivity.
Defined.


(** ** The headers of a request *)

Lemma prop_set_same {V : Type} (o : Obj.t V) (k : string) (v : V) :
  prop (Obj.set o k v) k = Some v.
Proof.
  induction o as [|[k' v'] o IH]; simpl.
  - rewrite String.eqb_refl. reflexivity.
  - destruct (String.eqb k' k) eqn:E; simpl.
    + rewrite String.eqb_refl. reflexivity.
    + rewrite E. exact IH.
Qed.

Lemma prop_set_other {V : Type} (o : Obj.t V) (k k' : string) (v : V) :
  k <> k' -> prop (Obj.set o k v) k' = prop o k'.
Proof.
  intros Hne. induction o as [|[k0 v0] o IH]; simpl.
  - apply String.eqb_neq in Hne. rewrite Hne. reflexivity.
  - destruct (String.eqb k0 k) eqn:E; simpl.
    + apply String.eqb_eq in E. subst k0.
      apply String.eqb_neq in Hne. rewrite Hne. reflexivity.
    + rewrite IH. reflexivity.
Qed.

(** Writing a property keeps the keys of an object distinct. *)
Lemma set_keys {V : Type} (o : Obj.t V) (k : string) (v : V) :
  forall k', In k' (map fst (Obj.set o k v)) <-> k' = k \/ In k' (map fst o).
Proof.
  induction o as [|[k0 v0] o IH]; intros k'; simpl.
  - intuition.
  - destruct (String.eqb k0 k) eqn:E; simpl.
    + apply String.eqb_eq in E. subst k0. intuition.
    + rewrite IH. intuition.
Qed.

Lemma set_NoDup {V : Type} (o : Obj.t V) (k : string) (v : V) :
  NoDup (map fst o) -> NoDup (map fst (Obj.set o k v)).
Proof.
  induction o as [|[k0 v0] o IH]; intros Hnd; simpl.
  - constructor; [intros [] | constructor].
  - inversion Hnd as [|? ? Hnotin Hnd']; subst.
    destruct (String.eqb k0 k) eqn:E; simpl.
    + apply String.eqb_eq in E. subst k0. constructor; assumption.
    + constructor; [|apply IH; exact Hnd'].
      rewrite set_keys. intros [Heq | Hin]; [|exact (Hnotin Hin)].
      subst k0. rewrite String.eqb_refl in E. discriminate.
Qed.

Lemma spread_NoDup {V : Type} (b : Obj.t V) :
  forall a : Obj.t V, NoDup (map fst a) -> NoDup (map fst (Obj.spread a b)).
Proof.
  unfold Obj.spread. induction b as [|[k v] b IH]; intros a Ha; simpl; [exact Ha|].
  apply IH. apply set_NoDup. exact Ha.
Qed.

Lemma prop_not_in {V : Type} (o : Obj.t V) (k : string) :
  ~ In k (map fst o) -> prop o k = None.
Proof.
  induction o as [|[k0 v0] o IH]; intros Hn; simpl; [reflexivity|].
  destruct (String.eqb k0 k) eqn:E.
  - apply String.eqb_eq in E. subst k0. exfalso. apply Hn. left. reflexivity.
  - apply IH. intros Hin. apply Hn. right. exact Hin.
Qed.

(** In [{ ...a, ...b }] a property of [b] wins over one of [a]. *)
Lemma prop_spread {V : Type} (b : Obj.t V) :
  forall (a : Obj.t V) (k : string),
    NoDup (map fst b) ->
    prop (Obj.spread a b) k = orElse (prop b k) (prop a k).
Proof.
  unfold Obj.spread. induction b as [|[k0 v0] b IH]; intros a k Hnd; simpl; [reflexivity|].
  inversion Hnd as [|? ? Hnotin Hnd']; subst.
  rewrite IH by exact Hnd'. simpl.
  destruct (String.eqb k0 k) eqn:E.
  - apply String.eqb_eq in E. subst k0.
    rewrite (prop_not_in b k Hnotin), prop_set_same. reflexivity.
  - rewrite prop_set_other by (apply String.eqb_neq; exact E). reflexivity.
Qed.

(** X6.  The header object of a request never has two entries of the same
    name.  A header other than [Authorization] has the value of the
    per-call headers if they give one, else the value of the headers of the
    configuration, else the default ([Content-Type] and [User-Agent] are
    the only defaults); names are compared as they are written. *)
Theorem header_precedence (c : HttpClient) (additional : option (Obj.t string)) (k : string) :
  NoDup (map fst (customHeaders c)) ->
  NoDup (map fst (Js.nullish additional [])) ->
  NoDup (map fst (headersOf c additional))
  /\ (k <> "Authorization" ->
      prop (headersOf c additional) k
      = orElse (prop (Js.nullish additional []) k)
          (orElse (prop (customHeaders c) k) (prop defaultHeaders k)))
  /\ (Js.truthy (apiKey c) = false ->
      prop (headersOf c additional) k
      = orElse (prop (Js.nullish additional []) k)
          (orElse (prop (customHeaders c) k) (prop defaultHeaders k))).
Proof.
  intros Hc Ha.
  assert (Hmerged : forall k0,
             prop (Obj.spread (Obj.spread defaultHeaders (customHeaders c))
                     (Js.nullish additional [])) k0
             = orElse (prop (Js.nullish additional []) k0)
                 (orElse (prop (customHeaders c) k0) (prop defaultHeaders k0))).
  { intros k0. rewrite prop_spread by exact Ha. rewrite prop_spread by exact Hc. reflexivity. }
  assert (Hnd : NoDup (map fst (Obj.spread (Obj.spread defaultHeaders (customHeaders c))
                                  (Js.nullish additional [])))).
  { apply spread_NoDup, spread_NoDup. simpl.
    repeat constructor; simpl; intuition discriminate. }
  unfold headersOf. fold defaultHeaders.
  destruct (Js.truthy (apiKey c)).
  - split; [apply set_NoDup; exact Hnd|]. split; [|discriminate].
    intros Hk. rewrite prop_set_other by (intros E; apply Hk; symmetry; exact E).
    apply Hmerged.
  - split; [exact Hnd|]. split; intros _; apply Hmerged.
Qed.

Lemma header_precedence_witness :
  let c := Http.constructor Samples.envNone
             {| cfg_apiKey := None; cfg_baseUrl := None; cfg_timeout := None;
                cfg_retries := None; cfg_retryDelay := None;
                cfg_headers := Some [("X-Agent", "a"); ("User-Agent", "custom")] |} in
  let add := Some [("X-Agent", "b")] in
  prop (headersOf c add) "X-Agent" = Some "b"
  /\ prop (headersOf c add) "User-Agent" = Some "custom"
  /\ prop (headersOf c add) "Content-Type" = Some "application/json"
  /\ prop (headersOf c add) "Authorization" = None.
Proof.
  intros c add.
  assert (Hc : NoDup (map fst (customHeaders c)))
    by (repeat constructor; simpl; intuition discriminate).
  assert (Ha : NoDup (map fst (Js.nullish add [])))
    by (repeat constructor; simpl; intuition discriminate).
  split; [|split; [|split]].
  - rewrite (proj1 (proj2 (header_precedence c add "X-Agent" Hc Ha))); [reflexivity|discriminate].
  - rewrite (proj1 (proj2 (header_precedence c add "User-Agent" Hc Ha))); [reflexivity|discriminate].
  - rewrite (proj1 (proj2 (header_precedence c add "Content-Type" Hc Ha))); [reflexivity|discriminate].
  - rewrite (proj2 (proj2 (header_precedence c add "Authorization" Hc Ha))); reflexivity.
Defined.

(** X7.  When the client has a credential that is not empty, every header
    object it builds has [Authorization] set to [Bearer] and the
    credential, also when the per-call or the configured headers carry an
    [Authorization] of their own; and every call of a [request] is made
    with these headers. *)
Theorem credential_header (c : HttpClient) (additional : option (Obj.t string)) (key : string) :
  apiKey c = Some key ->
  key <> "" ->
  prop (headersOf c additional) "Authorization" = Some ("Bearer " ++ key)
  /\ (forall config st u call,
         this st = c ->
         newURL (world st) (req_path config) (baseUrl (this st)) = Some u ->
         0 <= retries (this st) ->
         In call (fetches (world (snd (request config st)))) ->
         In call (fetches (world st))
         \/ prop (call_headers call) "Authorization" = Some ("Bearer " ++ key)).
Proof.
  intros Hk Hne.
  assert (Hauth : forall add, prop (headersOf c add) "Authorization" = Some ("Bearer " ++ key)).
  { intros add. unfold headersOf. rewrite Hk.
    destruct key; [contradiction|]. simpl Js.truthy. cbv iota.
    apply prop_set_same. }
  split; [apply Hauth|].
  intros config st u call Hc Hu Hpos Hin.
  rewrite (request_unfold config st u Hu) in Hin.
  replace (Z.to_nat (retries (this st) + 1)) with (S (Z.to_nat (retries (this st))))
    in Hin by lia.
  destruct (requestLoop_trace (toString (urlOf u (req_query config))) config
              (headersOf (this st) (req_headers config))
              (Z.to_nat (retries (this st))) 0 ThrownUndefined st) as (k & _ & Hf & _);
    [lia|].
  rewrite Hf in Hin. apply in_app_or in Hin. destruct Hin as [Hin|Hin]; [left; exact Hin|].
  right. apply repeat_spec in Hin. subst call. simpl call_headers.
  rewrite Hc. apply Hauth.
Qed.

Lemma credential_header_witness :
  let st := {| this := Http.constructor Samples.envNone
                         (Samples.configOf (Some "moltgram_test123") (Some 1));
               world := Samples.worldOf (Samples.always (Resolves 10 (Samples.respond 500 [] None))) |} in
  let mine := {| req_method := "GET"; req_path := "/feed"; req_body := None; req_query := None;
                 req_headers := Some [("Authorization", "Basic abc")] |} in
  prop (headersOf (this st) (req_headers mine)) "Authorization" = Some "Bearer moltgram_test123"
  /\ Forall (fun call => prop (call_headers call) "Authorization" = Some "Bearer moltgram_test123")
       (fetches (world (snd (request mine st))))
  /\ List.length (fetches (world (snd (request mine st)))) = 2%nat.
Proof.
  intros st mine.
  destruct (credential_header (this st) (req_headers mine) "moltgram_test123" eq_refl)
    as [H1 H2]; [discriminate|].
  split; [exact H1|]. split; [|reflexivity].
  apply Forall_forall. intros call Hin.
  destruct (H2 mine st {| stem := "https://www.moltgram.com/feed"; query := None;
                          searchParams := []; fragment := None |} call eq_refl eq_refl)
    as [Hold | Hnew]; [vm_compute; discriminate | exact Hin | destruct Hold | exact Hnew].
Defined.


(** ** Changing the credential *)

(** X8.  [MoltgramClient.setApiKey] refuses every key that does not start
    with [moltgram_], the empty string included, and then changes nothing.
    A key with the prefix replaces the credential and nothing else: the
    rate-limit snapshot and the rest of the configuration stay, no call is
    made, and the headers built from then on carry the new key. *)
Theorem setApiKey_checks_prefix (k : string) (st : State) :
  (Js.startsWith k "moltgram_" = false ->
   Methods.setApiKey k st
   = (Throw (ThrownConfiguration
               (newConfigurationError
                  ("apiKey must start with " ++ Js.dquote ++ "moltgram_" ++ Js.dquote))), st))
  /\ (Js.startsWith k "moltgram_" = true ->
      let st' := snd (Methods.setApiKey k st) in
      fst (Methods.setApiKey k st) = Normal tt
      /\ apiKey (this st') = Some k
      /\ rateLimitInfo (this st') = rateLimitInfo (this st)
      /\ baseUrl (this st') = baseUrl (this st)
      /\ timeout (this st') = timeout (this st)
      /\ retries (this st') = retries (this st)
      /\ retryDelay (this st') = retryDelay (this st)
      /\ customHeaders (this st') = customHeaders (this st)
      /\ world st' = world st
      /\ forall additional,
           prop (headersOf (this st') additional) "Authorization" = Some ("Bearer " ++ k)).
Proof.
  unfold Methods.setApiKey. split; intros H; rewrite H; simpl.
  - reflexivity.
  - repeat split. intros additional. unfold headersOf. simpl apiKey.
    destruct k; [discriminate H|]. simpl Js.truthy. cbv iota.
    apply prop_set_same.
Qed.

Lemma setApiKey_checks_prefix_witness :
  let st := Samples.stateOf None (Samples.always Pending) in
  fst (Methods.setApiKey "" st)
  = Throw (ThrownConfiguration
             (newConfigurationError
                ("apiKey must start with " ++ Js.dquote ++ "moltgram_" ++ Js.dquote)))
  /\ apiKey (this (snd (Methods.setApiKey "moltgram_newkey123" st))) = Some "moltgram_newkey123"
  /\ prop (headersOf (this (snd (Methods.setApiKey "moltgram_newkey123" st))) None) "Authorization"
     = Some "Bearer moltgram_newkey123".
Proof.
  intros st. split; [|split].
  - rewrite (proj1 (setApiKey_checks_prefix "" st) eq_refl). reflexivity.
  - apply (proj2 (setApiKey_checks_prefix "moltgram_newkey123" st) eq_refl).
  - apply (proj2 (setApiKey_checks_prefix "moltgram_newkey123" st) eq_refl).
Defined.



(** ** Reading the rate-limit snapshot *)

(** X10.  On a new client the three accessors of the rate-limit state give
    [null], [null] and [false].  After an attempt that received a response
    with the three headers, the remaining quota is [parseInt] of the
    [X-RateLimit-Remaining] header, the reset date is 1000 times the
    [X-RateLimit-Reset] header, and [isRateLimited] holds exactly when the
    remaining quota is a number that is at most 0: a header that does not
    start with a number leaves the client not rate limited. *)
Theorem rate_limit_accessors :
  (forall env cfg,
      Client.getRateLimitRemaining (Http.constructor env cfg) = None
      /\ Methods.getRateLimitReset (Http.constructor env cfg) = None
      /\ Client.isRateLimited (Http.constructor env cfg) = false)
  /\ (forall st url config hd after r,
         nextOutcome st = Resolves after r ->
         (after <? timeout (this st)) = true ->
         carriesRateLimit (headers r) = true ->
         let c' := this (snd (attemptOnce url config hd st)) in
         let left := Js.parseInt (Js.nullish (get (headers r) "X-RateLimit-Remaining") "") in
         Client.getRateLimitRemaining c' = Some left
         /\ Methods.getRateLimitReset c'
            = Some (Js.Date (Js.mul (Js.parseInt (Js.nullish (get (headers r) "X-RateLimit-Reset") ""))
                               1000))
         /\ (Client.isRateLimited c' = true <-> exists n, left = Js.Num n /\ n <= 0)).
Proof.
  split; [intros env cfg; repeat split|].
  intros st url config hd after r Hn Ht Hc c' left. subst c' left.
  rewrite (attemptOnce_resolves url config hd st after r Hn Ht). cbn [snd].
  rewrite parseRateLimitHeaders_run, Hc.
  unfold Client.isRateLimited, Client.getRateLimitRemaining, Methods.getRateLimitReset.
  cbn [withInfo setRateLimitInfo snd this rateLimitInfo snapshotOf remaining resetAt].
  split; [reflexivity|]. split; [reflexivity|].
  destruct (Js.parseInt (Js.nullish (get (headers r) "X-RateLimit-Remaining") "")) as [n|].
  - split.
    + intros H. exists n. split; [reflexivity | apply Z.leb_le; exact H].
    + intros (m & Hm & Hle). inversion Hm; subst. apply Z.leb_le. exact Hle.
  - split; [discriminate | intros (m & Hm & _); discriminate].
Qed.

Lemma rate_limit_accessors_witness :
  let spent := Samples.respond 200
                 [("X-RateLimit-Limit", "100"); ("X-RateLimit-Remaining", "0");
                  ("X-RateLimit-Reset", "1700000000")] (Some Samples.emptyBody) in
  let odd := Samples.respond 200
               [("X-RateLimit-Limit", "100"); ("X-RateLimit-Remaining", "none");
                ("X-RateLimit-Reset", "1700000000")] (Some Samples.emptyBody) in
  let url := "https://www.moltgram.com/posts" in
  Client.isRateLimited
    (this (snd (attemptOnce url Samples.getPosts []
                  (Samples.stateOf None (Samples.always (Resolves 10 spent)))))) = true
  /\ Client.getRateLimitRemaining
       (this (snd (attemptOnce url Samples.getPosts []
                     (Samples.stateOf None (Samples.always (Resolves 10 odd)))))) = Some Js.NaN.
Proof.
  intros spent odd url.
  destruct rate_limit_accessors as [_ H].
  split.
  - apply (H (Samples.stateOf None (Samples.always (Resolves 10 spent))) url Samples.getPosts []
             10 spent eq_refl eq_refl eq_refl).
    exists 0. split; [reflexivity | lia].
  - apply (H (Samples.stateOf None (Samples.always (Resolves 10 odd))) url Samples.getPosts []
             10 odd eq_refl eq_refl eq_refl).
Defined.

(** ** The error of a response *)

Lemma errorFor_message (t : Z) (r : Response) :
  message (errorFor t r) = messageOf r.
Proof.
  unfold errorFor. fold (messageOf r).
  destruct (status r =? 401); [reflexivity|].
  destruct (status r =? 403); [reflexivity|].
  destruct (status r =? 404); [reflexivity|].
  destruct (status r =? 429); [reflexivity|].
  destruct (status r =? 400); reflexivity.
Qed.

Lemma or_default_truthy (o : option string) (d : string) :
  d <> "" -> Js.or_default o d <> "".
Proof.
  intros Hd. unfold Js.or_default. destruct o as [[|a s]|]; simpl; try exact Hd. discriminate.
Qed.

(** The error built from a body that was read, or from none. *)
Lemma errorFor_facts (t : Z) (r : Response) :
  statusCode (errorFor t r) = status r
  /\ message (errorFor t r) <> ""
  /\ (body r = None ->
      message (errorFor t r) = "HTTP " ++ Js.string_of_Z (status r) ++ ": " ++ statusText r)
  /\ (forall j, body r = Some j -> error j = None \/ error j = Some "" ->
                message (errorFor t r) = "Unknown error")
  /\ (forall j m, body r = Some j -> error j = Some m -> m <> "" ->
                  message (errorFor t r) = m)
  /\ class (errorFor t r) <> CConflictError
  /\ class (errorFor t r) <> CNetworkError
  /\ class (errorFor t r) <> CTimeoutError
  /\ (status r = 401 \/ status r = 429 -> Js.truthy (Errors.hint (errorFor t r)) = true).
Proof.
  split; [apply errorFor_statusCode|].
  rewrite errorFor_message.
  split; [apply or_default_truthy; discriminate|].
  split; [intros Hb; unfold messageOf, errorDataOf; rewrite Hb; reflexivity|].
  split.
  { intros j Hb [He|He]; unfold messageOf, errorDataOf; rewrite Hb, He; reflexivity. }
  split.
  { intros j m Hb He Hm. unfold messageOf, errorDataOf. rewrite Hb, He.
    destruct m; [contradiction | reflexivity]. }
  rewrite errorFor_class.
  split; [|split; [|split]].
  1-3: destruct (status r =? 401); [discriminate|];
       destruct (status r =? 403); [discriminate|];
       destruct (status r =? 404); [discriminate|];
       destruct (status r =? 429); [discriminate|];
       destruct (status r =? 400); discriminate.
  intros [H|H]; unfold errorFor; rewrite H; simpl.
  - destruct (Web.hint (errorDataOf r)) as [[|a s]|]; reflexivity.
  - destruct (Web.hint (errorDataOf r)) as [[|a s]|]; reflexivity.
Qed.

(** X11.  What [handleErrorResponse] throws for a response.  When the body
    is the JSON value [null], reading [errorData.error] throws a
    [TypeError]: it is no [MoltgramError], it has no status, it is not
    turned into a [NetworkError] and it is never retried.  In every other
    case the error is a [MoltgramError] with the status of the response and
    a message that is not empty: the [error] field of the body when it has
    one that is not empty, [Unknown error] when it has none, and [HTTP],
    the status and the status text when the body does not parse.  It is
    never a [ConflictError], a [NetworkError] or a [TimeoutError], and for
    401 and 429 it always has a hint. *)
Theorem error_of_response (t : Z) (r : Raw.Response) :
  let thrown := Raw.handleErrorResponse t r in
  (Raw.parsed r = Raw.JsonNull ->
   thrown = ThrownTypeError Raw.nullMessage
   /\ isMoltgramError thrown = false
   /\ statusOf thrown = None
   /\ classify thrown = thrown
   /\ forall c attempt, shouldRetry c thrown attempt = false)
  /\ (Raw.parsed r <> Raw.JsonNull ->
      exists e,
        thrown = ThrownMoltgram e
        /\ statusCode e = Raw.status r
        /\ message e <> ""
        /\ (Raw.parsed r = Raw.Malformed ->
            message e
            = "HTTP " ++ Js.string_of_Z (Raw.status r) ++ ": " ++ Raw.statusText r)
        /\ (forall j, Raw.parsed r = Raw.JsonObject j -> error j = None \/ error j = Some "" ->
                      message e = "Unknown error")
        /\ (forall j m, Raw.parsed r = Raw.JsonObject j -> error j = Some m -> m <> "" ->
                        message e = m)
        /\ class e <> CConflictError
        /\ class e <> CNetworkError
        /\ class e <> CTimeoutError
        /\ (Raw.status r = 401 \/ Raw.status r = 429 -> Js.truthy (Errors.hint e) = true)).
Proof.
  cbv zeta. unfold Raw.handleErrorResponse. split.
  - intros Hp. rewrite Hp. split; [reflexivity|]. split; [reflexivity|].
    split; [reflexivity|]. split; [reflexivity|].
    intros c attempt. unfold shouldRetry. simpl. destruct (retries c <=? attempt); reflexivity.
  - intros Hp. destruct (Raw.parsed r) as [| |j] eqn:Hq; [|contradiction|].
    + exists (errorFor t (Raw.readable r None)).
      destruct (errorFor_facts t (Raw.readable r None))
        as (H1 & H2 & H3 & _ & _ & H6 & H7 & H8 & H9).
      split; [reflexivity|]. split; [exact H1|]. split; [exact H2|].
      split; [intros _; apply H3; reflexivity|].
      split; [intros j Hj; discriminate|]. split; [intros j m Hj; discriminate|].
      split; [exact H6|]. split; [exact H7|]. split; [exact H8 | exact H9].
    + exists (errorFor t (Raw.readable r (Some j))).
      destruct (errorFor_facts t (Raw.readable r (Some j)))
        as (H1 & H2 & _ & H4 & H5 & H6 & H7 & H8 & H9).
      split; [reflexivity|]. split; [exact H1|]. split; [exact H2|].
      split; [discriminate|].
      split; [intros j' Hj He; inversion Hj; subst j'; apply (H4 j eq_refl He)|].
      split; [intros j' m Hj He Hm; inversion Hj; subst j'; apply (H5 j m eq_refl He Hm)|].
      split; [exact H6|]. split; [exact H7|]. split; [exact H8 | exact H9].
Qed.

Lemma error_of_response_witness :
  let gone := {| Raw.status := 502; Raw.statusText := "Bad Gateway";
                 Raw.parsed := Raw.Malformed |} in
  let denied := {| Raw.status := 401; Raw.statusText := "Unauthorized";
                   Raw.parsed := Raw.JsonObject Samples.emptyBody |} in
  let null := {| Raw.status := 500; Raw.statusText := "Internal Server Error";
                 Raw.parsed := Raw.JsonNull |} in
  (exists e, Raw.handleErrorResponse 0 gone = ThrownMoltgram e
             /\ message e = "HTTP 502: Bad Gateway")
  /\ (exists e, Raw.handleErrorResponse 0 denied = ThrownMoltgram e
                /\ message e = "Unknown error"
                /\ Js.truthy (Errors.hint e) = true)
  /\ statusOf (Raw.handleErrorResponse 0 null) = None.
Proof.
  intros gone denied null. split; [|split].
  - destruct (proj2 (error_of_response 0 gone)) as (e & He & _ & _ & H3 & _);
      [discriminate|].
    exists e. split; [exact He | apply H3; reflexivity].
  - destruct (proj2 (error_of_response 0 denied))
      as (e & He & _ & _ & _ & H4 & _ & _ & _ & _ & H9); [discriminate|].
    exists e. split; [exact He|]. split.
    + apply (H4 Samples.emptyBody); [reflexivity | left; reflexivity].
    + apply H9. left. reflexivity.
  - destruct (proj1 (error_of_response 0 null) eq_refl) as (_ & _ & H & _). exact H.
Defined.


(** ** The calls of a request *)

Lemma request_new_calls (config : RequestConfig) (st : State) (u : URL) (call : FetchCall) :
  newURL (world st) (req_path config) (baseUrl (this st)) = Some u ->
  0 <= retries (this st) ->
  In call (fetches (world (snd (request config st)))) ->
  In call (fetches (world st))
  \/ call = callOf (toString (urlOf u (req_query config))) config
              (headersOf (this st) (req_headers config)).
Proof.
  intros Hu Hpos Hin.
  rewrite (request_unfold config st u Hu) in Hin.
  replace (Z.to_nat (retries (this st) + 1)) with (S (Z.to_nat (retries (this st))))
    in Hin by lia.
  destruct (requestLoop_trace (toString (urlOf u (req_query config))) config
              (headersOf (this st) (req_headers config))
              (Z.to_nat (retries (this st))) 0 ThrownUndefined st) as (k & _ & Hf & _);
    [lia|].
  cbv zeta in Hf. rewrite Hf in Hin. apply in_app_or in Hin.
  destruct Hin as [Hin|Hin]; [left; exact Hin|].
  right. apply repeat_spec in Hin. exact Hin.
Qed.

(** ** The request on the body as it is given *)

(** When the body serialises to [b] the loop is the loop on [b]. *)
Lemma raw_requestLoop_typed (url : string) (config : Raw.RequestConfig) (hd : Obj.t string)
    (b : option string) (n : nat) :
  Raw.sent (Raw.body config) = inr b ->
  forall (attempt : Z) (last : Thrown) (st : State),
    Raw.requestLoop n attempt last url config hd st
    = requestLoop n attempt last url (Raw.typed config b) hd st.
Proof.
  intros Hb. induction n as [|n IH]; intros attempt last st; [reflexivity|].
  cbn [Raw.requestLoop requestLoop]. unfold try_catch, Raw.attemptOnce. rewrite Hb.
  destruct (attemptOnce url (Raw.typed config b) hd st) as [[j|e] st1]; [reflexivity|].
  unfold bind at 1 3. unfold getThis.
  destruct (shouldRetry (this st1) (classify e) attempt); cbn [negb]; [|reflexivity].
  unfold bind.
  destruct (sleep (getRetryDelay (this st1) attempt (classify e)) st1) as [[[]|t] st2];
    [apply IH | reflexivity].
Qed.

Lemma raw_request_typed (config : Raw.RequestConfig) (b : option string) (st : State) :
  Raw.sent (Raw.body config) = inr b ->
  Raw.request config st = request (Raw.typed config b) st.
Proof.
  intros Hb. unfold Raw.request, request. cbn [Raw.typed req_path req_query req_headers].
  unfold bind.
  destruct (buildUrl (Raw.path config) (Raw.query config) st) as [[url|e] st1]; [|reflexivity].
  destruct (buildHeaders (Raw.headers config) st1) as [[hd|e] st2]; [|reflexivity].
  unfold getThis. apply raw_requestLoop_typed. exact Hb.
Qed.

Lemma raw_request_unfold (config : Raw.RequestConfig) (st : State) (u : URL) :
  newURL (world st) (Raw.path config) (baseUrl (this st)) = Some u ->
  Raw.request config st
  = Raw.requestLoop (Z.to_nat (retries (this st) + 1)) 0 ThrownUndefined
      (toString (urlOf u (Raw.query config))) config
      (headersOf (this st) (Raw.headers config)) st.
Proof.
  intros Hu. unfold Raw.request, buildUrl, buildHeaders, bind, getThis, getWorld. simpl.
  rewrite Hu. reflexivity.
Qed.

(** One iteration when serialising the body throws [e]: no call. *)
Lemma raw_requestLoop_raises_step (url : string) (config : Raw.RequestConfig)
    (hd : Obj.t string) (e : Thrown) (n : nat) (attempt : Z) (last : Thrown) (st : State) :
  Raw.sent (Raw.body config) = inl e ->
  Raw.requestLoop (S n) attempt last url config hd st
  = if shouldRetry (this st) (classify e) attempt
    then Raw.requestLoop n (attempt + 1) (classify e) url config hd
           (snd (sleep (getRetryDelay (this st) attempt (classify e)) st))
    else (Throw (classify e), st).
Proof.
  intros He. cbn [Raw.requestLoop]. unfold try_catch, Raw.attemptOnce. rewrite He.
  unfold throw at 1. unfold bind at 1. unfold getThis.
  destruct (shouldRetry (this st) (classify e) attempt); simpl; reflexivity.
Qed.

(** While attempts remain the decision does not depend on the attempt. *)
Lemma shouldRetry_attempt (c : HttpClient) (e : Thrown) (attempt : Z) :
  0 <= attempt < retries c -> shouldRetry c e attempt = shouldRetry c e 0.
Proof.
  intros H. unfold shouldRetry.
  replace (retries c <=? attempt) with false by (symmetry; apply Z.leb_gt; lia).
  replace (retries c <=? 0) with false by (symmetry; apply Z.leb_gt; lia).
  reflexivity.
Qed.

Lemma raw_requestLoop_raises (url : string) (config : Raw.RequestConfig)
    (hd : Obj.t string) (e : Thrown) (n : nat) :
  Raw.sent (Raw.body config) = inl e ->
  forall (attempt : Z) (last : Thrown) (st : State),
    0 <= attempt ->
    retries (this st) = attempt + Z.of_nat n ->
    let res := Raw.requestLoop (S n) attempt last url config hd st in
    fst res = Throw (classify e)
    /\ this (snd res) = this st
    /\ fetches (world (snd res)) = fetches (world st)
    /\ List.length (sleeps (world (snd res)))
       = (List.length (sleeps (world st))
          + (if shouldRetry (this st) (classify e) 0 then n else 0))%nat
    /\ (shouldRetry (this st) (classify e) 0 = false -> res = (Throw (classify e), st)).
Proof.
  intros He. induction n as [|m IH]; intros attempt last st Ha Hr; cbv zeta;
    rewrite (raw_requestLoop_raises_step url config hd e _ attempt last st He).
  - assert (Hno : shouldRetry (this st) (classify e) attempt = false).
    { unfold shouldRetry.
      replace (retries (this st) <=? attempt) with true by (symmetry; apply Z.leb_le; lia).
      reflexivity. }
    rewrite Hno. cbn [fst snd]. repeat split.
    destruct (shouldRetry (this st) (classify e) 0); lia.
  - rewrite (shouldRetry_attempt (this st) (classify e) attempt) by lia.
    destruct (shouldRetry (this st) (classify e) 0) eqn:K.
    + destruct (sleep_fields (getRetryDelay (this st) attempt (classify e)) st)
        as (Hth & Hfe & Hsl & _).
      destruct (IH (attempt + 1) (classify e)
                  (snd (sleep (getRetryDelay (this st) attempt (classify e)) st)))
        as (H1 & H2 & H3 & H4 & _); [lia | rewrite Hth; lia |].
      rewrite Hth in H2, H4. rewrite K in H4. rewrite Hfe in H3.
      rewrite Hsl, length_app in H4. cbn [List.length] in H4.
      split; [exact H1|]. split; [exact H2|]. split; [exact H3|].
      split; [lia | discriminate].
    + cbn [fst snd]. repeat split. lia.
Qed.

(** What [sent] gives, by the truthiness and the serialisation of the
    value. *)
Lemma sent_cases (v : option Raw.Value) :
  (v = None -> Raw.sent v = inr None)
  /\ (forall x, v = Some x -> Raw.truthy x = false -> Raw.sent v = inr None)
  /\ (forall x t, v = Some x -> Raw.truthy x = true ->
                  Raw.stringify x = Raw.Serialised t -> Raw.sent v = inr (Some t))
  /\ (forall x, v = Some x -> Raw.truthy x = true ->
                Raw.stringify x = Raw.NotSerialised -> Raw.sent v = inr None)
  /\ (forall x e, v = Some x -> Raw.truthy x = true ->
                  Raw.stringify x = Raw.Raises e -> Raw.sent v = inl e).
Proof.
  repeat split.
  - intros ->. reflexivity.
  - intros x -> Ht. simpl. rewrite Ht. reflexivity.
  - intros x t -> Ht Hs. simpl. rewrite Ht, Hs. reflexivity.
  - intros x -> Ht Hs. simpl. rewrite Ht, Hs. reflexivity.
  - intros x e -> Ht Hs. simpl. rewrite Ht, Hs. reflexivity.
Qed.

(** X1.  A [request] on a client with a whole retry count [r >= 0] and a
    path that resolves never changes the configuration of the client.
    When the body is absent or falsy, or serialises, it makes at least one
    and at most [r + 1] calls, every one of them with the same URL, method
    and headers and with the serialised text of the body, if it is truthy,
    as its body; it sleeps once between two calls and not otherwise.  When
    serialising the body throws, [fetch] is never called: the request ends
    with what was thrown (a [NetworkError] in place of a [TypeError] that
    mentions [fetch]) after [r] sleeps if that is an error the client
    retries, and at once with nothing changed otherwise. *)
Theorem request_trace (config : Raw.RequestConfig) (st : State) (u : URL) :
  newURL (world st) (Raw.path config) (baseUrl (this st)) = Some u ->
  0 <= retries (this st) ->
  let res := Raw.request config st in
  let st' := snd res in
  let url := toString (urlOf u (Raw.query config)) in
  let hd := headersOf (this st) (Raw.headers config) in
  sameConfig (this st) (this st')
  /\ (forall b, Raw.sent (Raw.body config) = inr b ->
        let call := {| call_url := url; call_method := Raw.method config;
                       call_headers := hd; call_body := b |} in
        exists k,
          (k <= Z.to_nat (retries (this st)))%nat
          /\ fetches (world st') = (fetches (world st) ++ repeat call (S k))%list
          /\ List.length (sleeps (world st')) = (List.length (sleeps (world st)) + k)%nat)
  /\ (forall x, Raw.body config = Some x -> Raw.truthy x = false ->
        Raw.sent (Raw.body config) = inr None)
  /\ (forall x t, Raw.body config = Some x -> Raw.truthy x = true ->
        Raw.stringify x = Raw.Serialised t -> Raw.sent (Raw.body config) = inr (Some t))
  /\ (forall x e, Raw.body config = Some x -> Raw.truthy x = true ->
        Raw.stringify x = Raw.Raises e -> Raw.sent (Raw.body config) = inl e)
  /\ (forall e, Raw.sent (Raw.body config) = inl e ->
        let again := shouldRetry (this st) (classify e) 0 in
        fst res = Throw (classify e)
        /\ fetches (world st') = fetches (world st)
        /\ this st' = this st
        /\ List.length (sleeps (world st'))
           = (List.length (sleeps (world st))
              + (if again then Z.to_nat (retries (this st)) else 0))%nat
        /\ (again = false -> res = (Throw (classify e), st))).
Proof.
  intros Hu Hpos res st' url hd. subst res st' url hd.
  destruct (sent_cases (Raw.body config)) as (_ & Hfalsy & Htext & _ & Hraise).
  assert (Hloop : forall b, Raw.sent (Raw.body config) = inr b ->
            exists k,
              (k <= Z.to_nat (retries (this st)))%nat
              /\ fetches (world (snd (Raw.request config st)))
                 = (fetches (world st)
                    ++ repeat (callOf (toString (urlOf u (Raw.query config)))
                                 (Raw.typed config b)
                                 (headersOf (this st) (Raw.headers config))) (S k))%list
              /\ List.length (sleeps (world (snd (Raw.request config st))))
                 = (List.length (sleeps (world st)) + k)%nat
              /\ sameConfig (this st) (this (snd (Raw.request config st)))).
  { intros b Hb. rewrite (raw_request_typed config b st Hb).
    rewrite (request_unfold (Raw.typed config b) st u Hu).
    replace (Z.to_nat (retries (this st) + 1)) with (S (Z.to_nat (retries (this st))))
      by lia.
    apply (requestLoop_trace (toString (urlOf u (Raw.query config))) (Raw.typed config b)
             (headersOf (this st) (Raw.headers config))). lia. }
  assert (Hthrow : forall e, Raw.sent (Raw.body config) = inl e ->
            fst (Raw.request config st) = Throw (classify e)
            /\ this (snd (Raw.request config st)) = this st
            /\ fetches (world (snd (Raw.request config st))) = fetches (world st)
            /\ List.length (sleeps (world (snd (Raw.request config st))))
               = (List.length (sleeps (world st))
                  + (if shouldRetry (this st) (classify e) 0
                     then Z.to_nat (retries (this st)) else 0))%nat
            /\ (shouldRetry (this st) (classify e) 0 = false ->
                Raw.request config st = (Throw (classify e), st))).
  { intros e He. rewrite (raw_request_unfold config st u Hu).
    replace (Z.to_nat (retries (this st) + 1)) with (S (Z.to_nat (retries (this st))))
      by lia.
    apply (raw_requestLoop_raises _ config _ e (Z.to_nat (retries (this st))) He); lia. }
  split.
  { destruct (Raw.sent (Raw.body config)) as [e|b] eqn:Hs.
    - destruct (Hthrow e eq_refl) as (_ & Hth & _). rewrite Hth. apply sameConfig_refl.
    - destruct (Hloop b eq_refl) as (k & _ & _ & _ & Hsame). exact Hsame. }
  split.
  { intros b Hb. destruct (Hloop b Hb) as (k & Hk & Hf & Hsl & _).
    exists k. split; [exact Hk|]. split; [exact Hf | exact Hsl]. }
  split; [exact Hfalsy|]. split; [exact Htext|]. split; [exact Hraise|].
  intros e He. destruct (Hthrow e He) as (H1 & H2 & H3 & H4 & H5).
  split; [exact H1|]. split; [exact H3|]. split; [exact H2|]. split; [exact H4 | exact H5].
Qed.

Lemma request_trace_witness :
  let busy := Samples.respond 503 [] None in
  let fine := Samples.respond 200 [] (Some Samples.emptyBody) in
  let net := fun n => if Nat.ltb n 1 then Resolves 10 busy else Resolves 10 fine in
  let st := Samples.stateOf (Some 2) net in
  let zero := {| Raw.truthy := false; Raw.stringify := Raw.Serialised "0" |} in
  let big := {| Raw.truthy := true;
                Raw.stringify := Raw.Raises
                                   (ThrownTypeError "Do not know how to serialize a BigInt") |} in
  let post := fun v => {| Raw.method := "POST"; Raw.path := "/posts"; Raw.body := Some v;
                          Raw.query := None; Raw.headers := None |} in
  (exists k,
      (k <= 2)%nat
      /\ List.length (fetches (world (snd (Raw.request (post zero) st)))) = S k
      /\ (forall c, In c (fetches (world (snd (Raw.request (post zero) st)))) ->
                    call_body c = None)
      /\ List.length (sleeps (world (snd (Raw.request (post zero) st)))) = k)
  /\ Raw.request (post big) st
     = (Throw (ThrownTypeError "Do not know how to serialize a BigInt"), st).
Proof.
  intros busy fine net st zero big post.
  pose (u := {| stem := "https://www.moltgram.com/posts"; query := None;
                searchParams := []; fragment := None |}).
  split.
  - destruct (request_trace (post zero) st u eq_refl ltac:(vm_compute; discriminate))
      as (_ & Hcalls & _).
    destruct (Hcalls None eq_refl) as (k & Hk & Hf & Hs).
    exists k. split; [exact Hk|]. split; [|split].
    + rewrite Hf. rewrite length_app, repeat_length. reflexivity.
    + intros c Hc. rewrite Hf in Hc. apply in_app_or in Hc.
      destruct Hc as [[]|Hc]. apply repeat_spec in Hc. rewrite Hc. reflexivity.
    + rewrite Hs. reflexivity.
  - destruct (request_trace (post big) st u eq_refl ltac:(vm_compute; discriminate))
      as (_ & _ & _ & _ & _ & Hraise).
    destruct (Hraise (ThrownTypeError "Do not know how to serialize a BigInt") eq_refl)
      as (_ & _ & _ & _ & Hstop).
    apply Hstop. reflexivity.
Defined.

(** ** The four verbs *)

Lemma raw_request_new_calls (config : Raw.RequestConfig) (st : State) (u : URL)
    (call : FetchCall) :
  newURL (world st) (Raw.path config) (baseUrl (this st)) = Some u ->
  0 <= retries (this st) ->
  ~ In call (fetches (world st)) ->
  In call (fetches (world (snd (Raw.request config st)))) ->
  Raw.sent (Raw.body config) = inr (call_body call)
  /\ call = {| call_url := toString (urlOf u (Raw.query config));
               call_method := Raw.method config;
               call_headers := headersOf (this st) (Raw.headers config);
               call_body := call_body call |}.
Proof.
  intros Hu Hpos Hnew Hin.
  destruct (Raw.sent (Raw.body config)) as [e|b] eqn:Hs.
  - rewrite (raw_request_unfold config st u Hu) in Hin.
    replace (Z.to_nat (retries (this st) + 1)) with (S (Z.to_nat (retries (this st))))
      in Hin by lia.
    destruct (raw_requestLoop_raises (toString (urlOf u (Raw.query config))) config
                (headersOf (this st) (Raw.headers config)) e
                (Z.to_nat (retries (this st))) Hs 0 ThrownUndefined st)
      as (_ & _ & Hf & _); [lia | lia |].
    cbv zeta in Hf. rewrite Hf in Hin. contradiction.
  - rewrite (raw_request_typed config b st Hs) in Hin.
    destruct (request_new_calls (Raw.typed config b) st u call Hu Hpos Hin) as [H|H];
      [contradiction|].
    rewrite H. split; reflexivity.
Qed.

(** X12.  Every call that [get], [post], [patch] or [delete] makes has the
    method of its name, the headers the client builds without per-call
    headers, and the URL of the path, to which [get] alone adds a query.
    [get] and [delete] never send a body.  [post] and [patch] send the
    serialised text of the body they are given when it is truthy, and no
    body when it is absent, falsy ([0], the empty string, [false], [null])
    or serialises to nothing; when serialising it throws they make no call
    at all. *)
Theorem verbs_shape_their_calls (st : State) (path : string) (u : URL) (call : FetchCall) :
  newURL (world st) path (baseUrl (this st)) = Some u ->
  0 <= retries (this st) ->
  ~ In call (fetches (world st)) ->
  let shaped := fun (verb : string) (v : option Raw.Value) =>
    call_url call = toString u
    /\ call_method call = verb
    /\ call_headers call = headersOf (this st) None
    /\ Raw.sent v = inr (call_body call)
    /\ (v = None -> call_body call = None)
    /\ (forall x, v = Some x -> Raw.truthy x = false -> call_body call = None)
    /\ (forall x, v = Some x -> Raw.truthy x = true ->
                  match Raw.stringify x with
                  | Raw.Serialised t => call_body call = Some t
                  | Raw.NotSerialised => call_body call = None
                  | Raw.Raises _ => False
                  end) in
  (forall q, In call (fetches (world (snd (Methods.get path q st)))) ->
             call = {| call_url := toString (urlOf u q); call_method := "GET";
                       call_headers := headersOf (this st) None; call_body := None |})
  /\ (forall v, In call (fetches (world (snd (Methods.post path v st)))) -> shaped "POST" v)
  /\ (forall v, In call (fetches (world (snd (Methods.patch path v st)))) -> shaped "PATCH" v)
  /\ (In call (fetches (world (snd (Methods.delete path st)))) ->
      call = {| call_url := toString u; call_method := "DELETE";
                call_headers := headersOf (this st) None; call_body := None |})
  /\ (forall v e, Raw.sent v = inl e ->
                  fetches (world (snd (Methods.post path v st))) = fetches (world st)
                  /\ fetches (world (snd (Methods.patch path v st))) = fetches (world st)).
Proof.
  intros Hu Hpos Hnew shaped.
  assert (Hshape : forall verb v,
             In call (fetches (world (snd (Raw.request
                        {| Raw.method := verb; Raw.path := path; Raw.body := v;
                           Raw.query := None; Raw.headers := None |} st)))) ->
             shaped verb v).
  { intros verb v Hin.
    destruct (raw_request_new_calls
                {| Raw.method := verb; Raw.path := path; Raw.body := v;
                   Raw.query := None; Raw.headers := None |} st u call Hu Hpos Hnew Hin)
      as [Hs Hc].
    cbn [Raw.body Raw.query Raw.method Raw.headers urlOf] in Hs, Hc.
    subst shaped. cbv beta.
    split; [rewrite Hc; reflexivity|]. split; [rewrite Hc; reflexivity|].
    split; [rewrite Hc; reflexivity|]. split; [exact Hs|].
    split; [intros ->; simpl in Hs; inversion Hs; reflexivity|].
    split.
    - intros x -> Ht. simpl in Hs. rewrite Ht in Hs. inversion Hs. reflexivity.
    - intros x -> Ht. simpl in Hs. rewrite Ht in Hs.
      destruct (Raw.stringify x); inversion Hs; reflexivity. }
  assert (Hnone : forall verb q,
             In call (fetches (world (snd (Raw.request
                        {| Raw.method := verb; Raw.path := path; Raw.body := None;
                           Raw.query := q; Raw.headers := None |} st)))) ->
             call = {| call_url := toString (urlOf u q); call_method := verb;
                       call_headers := headersOf (this st) None; call_body := None |}).
  { intros verb q Hin.
    destruct (raw_request_new_calls
                {| Raw.method := verb; Raw.path := path; Raw.body := None;
                   Raw.query := q; Raw.headers := None |} st u call Hu Hpos Hnew Hin)
      as [Hs Hc].
    cbn [Raw.body Raw.query Raw.method Raw.headers] in Hs, Hc. simpl in Hs.
    inversion Hs as [Hb]. rewrite <- Hb in Hc. exact Hc. }
  assert (Hquiet : forall verb v e, Raw.sent v = inl e ->
             fetches (world (snd (Raw.request
                        {| Raw.method := verb; Raw.path := path; Raw.body := v;
                           Raw.query := None; Raw.headers := None |} st)))
             = fetches (world st)).
  { intros verb v e He.
    rewrite (raw_request_unfold
               {| Raw.method := verb; Raw.path := path; Raw.body := v;
                  Raw.query := None; Raw.headers := None |} st u Hu).
    replace (Z.to_nat (retries (this st) + 1)) with (S (Z.to_nat (retries (this st))))
      by lia.
    apply (raw_requestLoop_raises (toString (urlOf u None))
             {| Raw.method := verb; Raw.path := path; Raw.body := v;
                Raw.query := None; Raw.headers := None |}
             (headersOf (this st) None) e (Z.to_nat (retries (this st))) He); lia. }
  split; [intros q; apply (Hnone "GET" q)|].
  split; [intros v; apply (Hshape "POST" v)|].
  split; [intros v; apply (Hshape "PATCH" v)|].
  split; [apply (Hnone "DELETE" None)|].
  intros v e He. split; [apply (Hquiet "POST" v e He) | apply (Hquiet "PATCH" v e He)].
Qed.

Lemma verbs_shape_their_calls_witness :
  let st := Samples.stateOf (Some 0) (Samples.always Pending) in
  let zero := {| Raw.truthy := false; Raw.stringify := Raw.Serialised "0" |} in
  let call := {| call_url := "https://www.moltgram.com/posts/7"; call_method := "PATCH";
                 call_headers := headersOf (this st) None; call_body := None |} in
  fetches (world (snd (Methods.patch "/posts/7" (Some zero) st))) = [call].
Proof.
  intros st zero call.
  pose (u := {| stem := "https://www.moltgram.com/posts/7"; query := None;
                searchParams := []; fragment := None |}).
  assert (Hone : exists c, fetches (world (snd (Methods.patch "/posts/7" (Some zero) st))) = [c])
    by (eexists; reflexivity).
  destruct Hone as [c Hc]. rewrite Hc. f_equal.
  destruct (verbs_shape_their_calls st "/posts/7" u c eq_refl) as (_ & _ & H & _).
  - vm_compute. discriminate.
  - intros [].
  - destruct (H (Some zero)) as (H1 & H2 & H3 & _ & _ & H6 & _).
    + rewrite Hc. left. reflexivity.
    + specialize (H6 zero eq_refl eq_refl).
      destruct c as [cu cm ch cb]. cbn in H1, H2, H3, H6. subst. reflexivity.
Defined.


(** * The validators *)

Import Validation.

Lemma valid_resultOf (errs : list string) :
  valid (resultOf errs) = true <-> errs = [].
Proof. destruct errs; simpl; split; intros H; try reflexivity; discriminate. Qed.

Lemma errors_resultOf (errs : list string) : errors (resultOf errs) = errs.
Proof. reflexivity. Qed.

Lemma pushIf_nil (b : bool) (msg : string) : pushIf b msg = [] <-> b = false.
Proof. destruct b; simpl; split; intros H; try reflexivity; discriminate. Qed.

Lemma throwIfAny_none (errs : list string) : throwIfAny errs = None <-> errs = [].
Proof. destruct errs; simpl; split; intros H; try reflexivity; discriminate. Qed.

(** A string of word characters is ASCII: its length is its byte count. *)
Lemma allWord_length (s : string) :
  Text.allWord s = true -> Text.length s = Z.of_nat (String.length s).
Proof.
  induction s as [|c s IH]; intros H; [reflexivity|].
  simpl in H. apply andb_true_iff in H. destruct H as [Hc Hs].
  cbn [Text.length String.length]. rewrite (IH Hs).
  assert (Hlt : (Text.code c < 128)%nat).
  { unfold Text.wordChar in Hc.
    repeat match type of Hc with
      | (_ || _)%bool = true => apply orb_true_iff in Hc; destruct Hc as [Hc|Hc]
      | (_ && _)%bool = true => apply andb_true_iff in Hc; destruct Hc as [? Hc]
      end;
    repeat match goal with
      | H : Nat.leb _ _ = true |- _ => apply Nat.leb_le in H
      | H : Nat.eqb _ _ = true |- _ => apply Nat.eqb_eq in H
      end; lia. }
  replace (Nat.leb 128 (Text.code c)) with false by (symmetry; apply Nat.leb_gt; lia).
  replace (Nat.leb 240 (Text.code c)) with false by (symmetry; apply Nat.leb_gt; lia).
  cbn [andb]. rewrite Nat2Z.inj_succ. lia.
Qed.

(** The errors of a name validator, for the limit [max] of its pattern. *)
Lemma name_errors_nil (max : nat) (name : string) (m1 m2 m3 : string) :
  (2 <= max)%nat ->
  (if negb (Js.truthy_string name) then ["Name is required"]
   else (pushIf (Text.length name <? 2) m1
         ++ pushIf (Z.of_nat max <? Text.length name) m2
         ++ pushIf (negb (Text.matchesName max name)) m3)%list) = []
  <-> Text.matchesName max name = true.
Proof.
  intros Hmax. destruct (Text.matchesName max name) eqn:Hm.
  - split; [reflexivity|]. intros _.
    unfold Text.matchesName in Hm.
    apply andb_true_iff in Hm. destruct Hm as [Hm Hhi].
    apply andb_true_iff in Hm. destruct Hm as [Hw Hlo].
    apply Nat.leb_le in Hhi, Hlo.
    rewrite (allWord_length name Hw).
    destruct name as [|a name]; [simpl in Hlo; lia|]. cbn [Js.truthy_string negb].
    replace (Z.of_nat (String.length (String a name)) <? 2) with false
      by (symmetry; apply Z.ltb_ge; lia).
    replace (Z.of_nat max <? Z.of_nat (String.length (String a name))) with false
      by (symmetry; apply Z.ltb_ge; lia).
    reflexivity.
  - split; [|discriminate]. intros H.
    destruct (negb (Js.truthy_string name)); [discriminate|].
    apply app_eq_nil in H. destruct H as [_ H].
    apply app_eq_nil in H. destruct H as [_ H]. discriminate.
Qed.

Lemma validateAgentName_valid (name : string) :
  valid (validateAgentName name) = isValidAgentName name.
Proof.
  unfold validateAgentName, isValidAgentName, AGENT_NAME_test.
  apply Bool.eq_iff_eq_true. rewrite valid_resultOf.
  apply (name_errors_nil 32 name). lia.
Qed.

Lemma validateSubmoltName_valid (name : string) :
  valid (validateSubmoltName name) = isValidSubmoltName name.
Proof.
  unfold validateSubmoltName, isValidSubmoltName, SUBMOLT_NAME_test.
  apply Bool.eq_iff_eq_true. rewrite valid_resultOf.
  apply (name_errors_nil 24 name). lia.
Qed.

Lemma wordChar_lower (c : ascii) : Text.wordChar (Js.lower c) = Text.wordChar c.
Proof. destruct c as [[] [] [] [] [] [] [] []]; reflexivity. Qed.

Lemma allWord_toLowerCase (s : string) : Text.allWord (Js.toLowerCase s) = Text.allWord s.
Proof.
  induction s as [|c s IH]; [reflexivity|]. simpl. rewrite wordChar_lower, IH. reflexivity.
Qed.

Lemma length_toLowerCase (s : string) : String.length (Js.toLowerCase s) = String.length s.
Proof. induction s as [|c s IH]; [reflexivity|]. simpl. rewrite IH. reflexivity. Qed.

(** X13.  [validateAgentName] and [validateSubmoltName] report no error
    exactly for the names their patterns match: 2 to 32, respectively 2 to
    24, ASCII letters, digits and underscores.  So the [valid] flag agrees
    with [isValidAgentName] and [isValidSubmoltName]; every valid submolt
    name is a valid agent name; and upper-case letters are accepted in both,
    also in submolt names, whose error message speaks of lowercase. *)
Theorem name_validators_follow_the_patterns (name : string) :
  valid (validateAgentName name) = isValidAgentName name
  /\ valid (validateSubmoltName name) = isValidSubmoltName name
  /\ (valid (validateSubmoltName name) = true -> valid (validateAgentName name) = true)
  /\ valid (validateSubmoltName (Js.toLowerCase name)) = valid (validateSubmoltName name)
  /\ valid (validateAgentName (Js.toLowerCase name)) = valid (validateAgentName name)
  /\ (valid (validateAgentName name) = true ->
      (2 <= String.length name <= 32)%nat /\ Text.allWord name = true).
Proof.
  rewrite !validateAgentName_valid, !validateSubmoltName_valid.
  unfold isValidAgentName, isValidSubmoltName, AGENT_NAME_test, SUBMOLT_NAME_test,
    Text.matchesName.
  rewrite allWord_toLowerCase, length_toLowerCase.
  repeat split; try reflexivity.
  - intros H. apply andb_true_iff in H. destruct H as [H Hhi].
    rewrite H. apply Nat.leb_le in Hhi. apply Nat.leb_le. lia.
  - apply andb_true_iff in H. destruct H as [H _].
    apply andb_true_iff in H. destruct H as [_ H]. apply Nat.leb_le. exact H.
  - apply andb_true_iff in H. destruct H as [_ H]. apply Nat.leb_le. exact H.
  - apply andb_true_iff in H. destruct H as [H _].
    apply andb_true_iff in H. destruct H as [H _]. exact H.
Qed.

Lemma name_validators_follow_the_patterns_witness :
  valid (validateAgentName "Agent_007") = true
  /\ valid (validateAgentName "GENERAL") = true
  /\ (2 <= String.length "GENERAL" <= 32)%nat.
Proof.
  destruct (name_validators_follow_the_patterns "Agent_007") as (H1 & _).
  destruct (name_validators_follow_the_patterns "GENERAL") as (_ & _ & H3 & _ & _ & H6).
  split; [rewrite H1; reflexivity|].
  split; [apply H3; reflexivity|].
  apply (H6 (H3 eq_refl)).
Defined.


(** ** The validators that throw *)

Lemma app_nil_iff {A : Type} (l1 l2 : list A) :
  (l1 ++ l2)%list = [] <-> l1 = [] /\ l2 = [].
Proof.
  split; [apply app_eq_nil|]. intros [-> ->]. reflexivity.
Qed.

(** ** Pages *)

Lemma below_false (a : Number) (k : Z) :
  below a k = false
  <-> a = NotANumber \/ a = PlusInfinity \/ exists q, a = Finite q /\ (inject_Z k <= q)%Q.
Proof.
  destruct a as [q| | |]; simpl.
  - rewrite negb_false_iff, Qle_bool_iff. split.
    + intros H. right; right. exists q. split; [reflexivity | exact H].
    + intros [H | [H | (q' & Hq & H)]]; try discriminate. inversion Hq; subst q'. exact H.
  - split; [intros _; right; left; reflexivity | reflexivity].
  - split; [discriminate|]. intros [H | [H | (q' & Hq & _)]]; discriminate.
  - split; [intros _; left; reflexivity | reflexivity].
Qed.

Lemma above_false (a : Number) (k : Z) :
  above a k = false
  <-> a = NotANumber \/ a = MinusInfinity \/ exists q, a = Finite q /\ (q <= inject_Z k)%Q.
Proof.
  destruct a as [q| | |]; simpl.
  - rewrite negb_false_iff, Qle_bool_iff. split.
    + intros H. right; right. exists q. split; [reflexivity | exact H].
    + intros [H | [H | (q' & Hq & H)]]; try discriminate. inversion Hq; subst q'. exact H.
  - split; [discriminate|]. intros [H | [H | (q' & Hq & _)]]; discriminate.
  - split; [intros _; right; left; reflexivity | reflexivity].
  - split; [intros _; left; reflexivity | reflexivity].
Qed.

(** No number is both under 1 and over 100. *)
Lemma below_above (a : Number) : below a 1 && above a MAX_LIMIT = false.
Proof.
  destruct a as [q| | |]; try reflexivity. simpl.
  destruct (Qle_bool (inject_Z 1) q) eqn:E1; [reflexivity|].
  destruct (Qle_bool q (inject_Z MAX_LIMIT)) eqn:E2; [reflexivity|]. exfalso.
  destruct (Qlt_le_dec q (inject_Z 1)) as [Hlt|Hle].
  - assert (H : (q <= inject_Z MAX_LIMIT)%Q).
    { apply Qle_trans with (inject_Z 1); [apply Qlt_le_weak; exact Hlt|].
      unfold Qle. simpl. lia. }
    apply Qle_bool_iff in H. rewrite H in E2. discriminate.
  - apply Qle_bool_iff in Hle. rewrite Hle in E1. discriminate.
Qed.

(** X16.  [validatePagination] accepts a limit and an offset, each of them
    optional, exactly when no comparison it makes is true: the limit is
    absent, [NaN], or a number from 1 to 100, and the offset is absent,
    [NaN], [Infinity] or a number that is not negative.  So [NaN] passes as
    a limit and as an offset, and numbers that are not whole pass within
    the bounds.  It reports one error for each bound that is broken, never
    more than two. *)
Theorem validatePagination_bounds (limit offset : option Number) :
  (valid (validatePagination limit offset) = true
   <-> (forall l, limit = Some l ->
                  l = NotANumber
                  \/ exists q, l = Finite q /\ (inject_Z 1 <= q)%Q /\ (q <= inject_Z 100)%Q)
       /\ (forall o, offset = Some o ->
                     o = NotANumber \/ o = PlusInfinity
                     \/ exists q, o = Finite q /\ (inject_Z 0 <= q)%Q))
  /\ valid (validatePagination (Some NotANumber) (Some NotANumber)) = true
  /\ (forall l, limit = Some l -> below l 1 = true ->
                In "Limit must be at least 1" (errors (validatePagination limit offset)))
  /\ (forall l, limit = Some l -> above l 100 = true ->
                In "Limit must be at most 100" (errors (validatePagination limit offset)))
  /\ (forall o, offset = Some o -> below o 0 = true ->
                In "Offset must be non-negative" (errors (validatePagination limit offset)))
  /\ (List.length (errors (validatePagination limit offset)) <= 2)%nat.
Proof.
  unfold validatePagination. split; [|split; [reflexivity|]].
  - rewrite valid_resultOf, app_nil_iff. change MAX_LIMIT with 100. split.
    + intros [Hl Ho]. split.
      * intros l ->. apply app_nil_iff in Hl. destruct Hl as [H1 H2].
        apply pushIf_nil in H1. apply pushIf_nil in H2.
        apply below_false in H1. apply above_false in H2.
        destruct H1 as [H1 | [H1 | (q & Hq & H1)]]; [left; exact H1| |].
        -- subst l. destruct H2 as [H2 | [H2 | (q & Hq & _)]]; discriminate.
        -- subst l. destruct H2 as [H2 | [H2 | (q' & Hq' & H2)]]; try discriminate.
           inversion Hq'; subst q'. right. exists q. repeat split; assumption.
      * intros o ->. apply pushIf_nil in Ho. apply below_false in Ho. exact Ho.
    + intros [Hl Ho]. split.
      * destruct limit as [l|]; [|reflexivity].
        apply app_nil_iff. rewrite !pushIf_nil, below_false, above_false.
        destruct (Hl l eq_refl) as [H | (q & Hq & H1 & H2)].
        -- split; left; exact H.
        -- split; right; right; exists q; split; assumption.
      * destruct offset as [o|]; [|reflexivity].
        apply pushIf_nil, below_false. apply (Ho o eq_refl).
  - simpl errors. change MAX_LIMIT with 100.
    split; [|split; [|split]].
    + intros l -> H. rewrite H. simpl. left. reflexivity.
    + intros l -> H. rewrite H. apply in_or_app. left. apply in_or_app. right.
      left. reflexivity.
    + intros o -> H. rewrite H. apply in_or_app. right. left. reflexivity.
    + destruct limit as [l|];
        [pose proof (below_above l) as H; change MAX_LIMIT with 100 in H;
         destruct (below l 1), (above l 100)|];
        (destruct offset as [o|]; [destruct (below o 0)|]);
        cbn [pushIf app List.length andb] in *; first [lia | discriminate].
Qed.

Lemma validatePagination_bounds_witness :
  valid (validatePagination (Some (Finite (inject_Z 25))) (Some (Finite (inject_Z 0)))) = true
  /\ valid (validatePagination (Some (Finite (inject_Z 101))) None) = false
  /\ valid (validatePagination (Some (Finite (1 # 2))) None) = false
  /\ valid (validatePagination (Some NotANumber) None) = true
  /\ valid (validatePagination None None) = true.
Proof.
  assert (Hno : forall q, ~ (q <= inject_Z 100)%Q \/ ~ (inject_Z 1 <= q)%Q ->
                          valid (validatePagination (Some (Finite q)) None) = false).
  { intros q Hq.
    destruct (valid (validatePagination (Some (Finite q)) None)) eqn:E; [|reflexivity].
    apply (proj1 (validatePagination_bounds (Some (Finite q)) None)) in E.
    destruct E as [E _]. destruct (E (Finite q) eq_refl) as [H | (q' & Hq' & H1 & H2)];
      [discriminate|].
    inversion Hq'; subst q'. destruct Hq as [Hq|Hq]; contradiction. }
  split; [|split; [|split; [|split]]].
  - apply (proj1 (validatePagination_bounds (Some (Finite (inject_Z 25)))
                    (Some (Finite (inject_Z 0))))).
    split; intros x Hx; inversion Hx; subst.
    + right. exists (inject_Z 25). split; [reflexivity|].
      split; unfold Qle; simpl; lia.
    + right; right. exists (inject_Z 0). split; [reflexivity|]. unfold Qle; simpl; lia.
  - apply Hno. left. unfold Qle. simpl. lia.
  - apply Hno. right. unfold Qle. simpl. lia.
  - apply (proj1 (validatePagination_bounds (Some NotANumber) None)).
    split; intros x Hx; inversion Hx; subst. left. reflexivity.
  - apply (proj1 (validatePagination_bounds None None)).
    split; intros x Hx; discriminate.
Defined.

Lemma submolt_errors_nil (s : string) :
  errors (validateSubmoltName s) = [] <-> isValidSubmoltName s = true.
Proof.
  rewrite <- validateSubmoltName_valid. unfold validateSubmoltName.
  rewrite valid_resultOf. reflexivity.
Qed.

Lemma agent_errors_nil (s : string) :
  errors (validateAgentName s) = [] <-> isValidAgentName s = true.
Proof.
  rewrite <- validateAgentName_valid. unfold validateAgentName.
  rewrite valid_resultOf. reflexivity.
Qed.

Lemma isBlank_empty (s : string) : Js.truthy_string s = false -> Text.isBlank s = true.
Proof. destruct s; [reflexivity | discriminate]. Qed.

(** The errors of a validator of a required text with a maximal length. *)
Lemma required_text_errors_nil (s : string) (max : Z) (m1 m2 : string) :
  (if negb (Js.truthy_string s) || Text.isBlank s then [m1]
   else pushIf (max <? Text.length s) m2) = []
  <-> Text.isBlank s = false /\ Text.length s <= max.
Proof.
  destruct (Js.truthy_string s) eqn:Ht; simpl.
  - destruct (Text.isBlank s).
    + split; [discriminate | intros [? _]; discriminate].
    + rewrite pushIf_nil, Z.ltb_ge. tauto.
  - rewrite (isBlank_empty s Ht). split; [discriminate | intros [? _]; discriminate].
Qed.

Lemma title_errors_nil (t : string) :
  errors (validatePostTitle t) = []
  <-> Text.isBlank t = false /\ Text.length t <= POST_TITLE_MAX.
Proof. apply required_text_errors_nil. Qed.

Lemma comment_errors_nil (t : string) :
  errors (validateCommentContent t) = []
  <-> Text.isBlank t = false /\ Text.length t <= COMMENT_CONTENT_MAX.
Proof. apply required_text_errors_nil. Qed.

(** The errors of a validator of an optional text with a maximal length. *)
Lemma optional_text_errors_nil (o : option string) (max : Z) (m : string) :
  pushIf (Js.truthy o && (max <? Text.length (Js.nullish o ""))) m = []
  <-> (forall s, o = Some s -> s <> "" -> Text.length s <= max).
Proof.
  rewrite pushIf_nil. destruct o as [[|a s]|]; simpl.
  - split; [intros _ s0 H Hne; inversion H; subst; contradiction | reflexivity].
  - rewrite Z.ltb_ge. split.
    + intros H s0 Hs _. inversion Hs; subst. exact H.
    + intros H. apply (H (String a s)); [reflexivity | discriminate].
  - split; [intros _ s0 H; discriminate | reflexivity].
Qed.

Lemma url_errors_nil (o : option string) :
  errors (validateUrl o) = []
  <-> (forall s, o = Some s -> s <> "" -> isValidUrl s = true).
Proof.
  unfold validateUrl, isValidUrl. simpl errors. rewrite pushIf_nil.
  destruct o as [[|a s]|]; simpl.
  - split; [intros _ s0 H Hne; inversion H; subst; contradiction | reflexivity].
  - rewrite negb_false_iff. split.
    + intros H s0 Hs _. inversion Hs; subst. exact H.
    + intros H. apply (H (String a s)); [reflexivity | discriminate].
  - split; [intros _ s0 H; discriminate | reflexivity].
Qed.

Lemma truthy_some (o : option string) :
  Js.truthy o = true <-> exists s, o = Some s /\ s <> "".
Proof.
  destruct o as [[|a s]|]; simpl; split; intros H; try discriminate.
  - destruct H as (s & Hs & Hne). inversion Hs; subst. contradiction.
  - exists (String a s). split; [reflexivity | discriminate].
  - reflexivity.
  - destruct H as (s & Hs & _). discriminate.
Qed.

(** X14.  [validateCreatePost] returns without throwing exactly when the
    submolt name matches its pattern, the title is not blank and has at
    most 300 characters, and the post has either a content that is not
    empty, of at most 40000 characters, and no URL, or a URL that starts
    with [http://] or [https://] and no content.  Otherwise it throws a
    [ValidationError] with status 400 and code [VALIDATION_ERROR] whose
    message lists every failed check, joined by a semicolon. *)
Theorem validateCreatePost_accepts (data : CreatePost) :
  (validateCreatePost data = None
   <-> isValidSubmoltName (submolt data) = true
       /\ Text.isBlank (title data) = false
       /\ Text.length (title data) <= 300
       /\ ((exists c, content data = Some c /\ c <> "" /\ Text.length c <= 40000
                      /\ Js.truthy (url data) = false)
           \/ (exists u, url data = Some u /\ u <> "" /\ isValidUrl u = true
                         /\ Js.truthy (content data) = false)))
  /\ (forall e, validateCreatePost data = Some e ->
                class e = CValidationError /\ statusCode e = 400
                /\ Errors.code e = Some "VALIDATION_ERROR"
                /\ message e = String.concat "; " (createPostErrors data)
                /\ createPostErrors data <> []).
Proof.
  split.
  - unfold validateCreatePost. rewrite throwIfAny_none. unfold createPostErrors.
    rewrite !app_nil_iff, submolt_errors_nil, title_errors_nil, url_errors_nil, !pushIf_nil.
    unfold validatePostContent. simpl errors. rewrite optional_text_errors_nil.
    change POST_TITLE_MAX with 300. change POST_CONTENT_MAX with 40000.
    split.
    + intros (Hs & (Hb & Hl) & Hc & Hu & Hnone & Hboth).
      split; [exact Hs|]. split; [exact Hb|]. split; [exact Hl|].
      destruct (Js.truthy (content data)) eqn:Etc.
      * left. apply truthy_some in Etc. destruct Etc as (c & Ec & Hne).
        exists c. repeat split; try assumption. apply (Hc c); assumption.
      * right. destruct (Js.truthy (url data)) eqn:Etu; [|discriminate Hnone].
        apply truthy_some in Etu. destruct Etu as (u & Eu & Hne).
        exists u. repeat split; try assumption. apply (Hu u); assumption.
    + intros (Hs & Hb & Hl & Hcase).
      split; [exact Hs|]. split; [split; assumption|].
      destruct Hcase as [(c & Ec & Hne & Hlen & Hnu) | (u & Eu & Hne & Hv & Hnc)].
      * assert (Htc : Js.truthy (content data) = true) by (apply truthy_some; eauto).
        rewrite Htc, Hnu. repeat split.
        -- intros s Hs' _. rewrite Ec in Hs'. inversion Hs'; subst. exact Hlen.
        -- intros s Hs' Hne'. exfalso.
           assert (Js.truthy (url data) = true) by (apply truthy_some; eauto). congruence.
      * assert (Htu : Js.truthy (url data) = true) by (apply truthy_some; eauto).
        rewrite Htu, Hnc. repeat split.
        -- intros s Hs' Hne'. exfalso.
           assert (Js.truthy (content data) = true) by (apply truthy_some; eauto). congruence.
        -- intros s Hs' _. rewrite Eu in Hs'. inversion Hs'; subst. exact Hv.
  - intros e He. unfold validateCreatePost, throwIfAny in He.
    destruct (createPostErrors data) as [|x l] eqn:El; [discriminate|].
    inversion He; subst e. repeat split. discriminate.
Qed.

Lemma validateCreatePost_accepts_witness :
  let good := {| submolt := "general"; title := "Hello Moltgram!";
                 content := Some "My first post."; url := None |} in
  let both := {| submolt := "general"; title := "  ";
                 content := Some "text"; url := Some "ftp://x" |} in
  validateCreatePost good = None
  /\ (exists e, validateCreatePost both = Some e
                /\ message e
                   = "Title is required; URL must start with http:// or https://; Cannot have both content and URL").
Proof.
  intros good both. split.
  - apply (proj1 (validateCreatePost_accepts good)).
    split; [reflexivity|]. split; [reflexivity|]. split; [vm_compute; discriminate|].
    left. exists "My first post.".
    split; [reflexivity|]. split; [discriminate|]. split; [vm_compute; discriminate|reflexivity].
  - destruct (validateCreatePost both) as [e|] eqn:E; [|discriminate E].
    exists e. split; [reflexivity|].
    destruct (proj2 (validateCreatePost_accepts both) e E) as (_ & _ & _ & Hm & _).
    rewrite Hm. reflexivity.
Defined.


(** X15.  [validateCreateComment] returns without throwing exactly when
    the post id is not empty and the content is not blank and has at most
    10000 characters; [validateRegisterAgent] exactly when the name matches
    the pattern of agent names and the description, if there is one that is
    not empty, has at most 500 characters. *)
Theorem comment_and_agent_validators :
  (forall data : CreateComment,
      validateCreateComment data = None
      <-> postId data <> "" /\ Text.isBlank (commentContent data) = false
          /\ Text.length (commentContent data) <= 10000)
  /\ (forall data : RegisterAgent,
         validateRegisterAgent data = None
         <-> isValidAgentName (name data) = true
             /\ (forall d, description data = Some d -> d <> "" -> Text.length d <= 500)).
Proof.
  split; intros data.
  - unfold validateCreateComment. rewrite throwIfAny_none. unfold createCommentErrors.
    rewrite app_nil_iff, comment_errors_nil, pushIf_nil, negb_false_iff.
    change COMMENT_CONTENT_MAX with 10000.
    destruct (postId data); simpl; split.
    + intros [H _]; discriminate.
    + intros [H _]; contradiction.
    + intros [_ H]. split; [discriminate | exact H].
    + intros [_ H]. split; [reflexivity | exact H].
  - unfold validateRegisterAgent. rewrite throwIfAny_none. unfold registerAgentErrors.
    rewrite app_nil_iff, agent_errors_nil.
    unfold validateDescription. simpl errors. rewrite optional_text_errors_nil.
    change DESCRIPTION_MAX with 500. reflexivity.
Qed.

Lemma comment_and_agent_validators_witness :
  validateCreateComment {| postId := "42"; commentContent := "nice"; parentId := None |} = None
  /\ validateRegisterAgent {| name := "my_agent"; description := None |} = None
  /\ validateCreateComment {| postId := ""; commentContent := " "; parentId := None |} <> None.
Proof.
  destruct comment_and_agent_validators as [Hc Ha].
  split; [|split].
  - apply Hc. split; [discriminate|]. split; [reflexivity | vm_compute; discriminate].
  - apply Ha. split; [reflexivity|]. intros d H. discriminate.
  - intros H. apply Hc in H. destruct H as [H _]. apply H. reflexivity.
Defined.


(** ** Keys *)

(** X17.  [validateApiKey] returns without throwing exactly for a key that
    is absent or empty, or that has the prefix [moltgram_] and a length of
    at least 25 UTF-16 code units, which is what [isValidApiKey] accepts.
    A key that is not empty and has no prefix gets the error about the
    prefix, one with the prefix that is shorter than 25 the error
    [apiKey is too short].  Every key it accepts that is not empty is also
    accepted by [MoltgramClient.setApiKey], which looks at the prefix
    only. *)
Theorem validateApiKey_agrees (key : option string) (st : State) :
  (Validators.validateApiKey key = None
   <-> Js.truthy key = false
       \/ exists k, key = Some k /\ Js.startsWith k "moltgram_" = true
                    /\ 25 <= Text.length k)
  /\ (forall k, Validators.isValidApiKey k = true
                <-> Js.startsWith k "moltgram_" = true /\ 25 <= Text.length k)
  /\ (forall k, key = Some k -> k <> "" -> Js.startsWith k "moltgram_" = false ->
                Validators.validateApiKey key
                = Some (newConfigurationError
                          ("apiKey must start with " ++ Js.dquote ++ "moltgram_" ++ Js.dquote)))
  /\ (forall k, key = Some k -> Js.startsWith k "moltgram_" = true -> Text.length k < 25 ->
                Validators.validateApiKey key
                = Some (newConfigurationError "apiKey is too short"))
  /\ (forall k, key = Some k -> k <> "" -> Validators.validateApiKey key = None ->
                fst (Methods.setApiKey k st) = Normal tt).
Proof.
  assert (Hiff : Validators.validateApiKey key = None
                 <-> Js.truthy key = false
                     \/ exists k, key = Some k /\ Js.startsWith k "moltgram_" = true
                                  /\ 25 <= Text.length k).
  { unfold Validators.validateApiKey. change Constants.API_KEY_PREFIX with "moltgram_".
    destruct key as [[|a k]|]; simpl Js.truthy; cbn [negb].
    - split; [left; reflexivity | reflexivity].
    - cbn [Js.nullish].
      destruct (Js.startsWith (String a k) "moltgram_") eqn:Hp; cbn [negb].
      + destruct (Text.length (String a k) <? 25) eqn:Hl.
        * split; [discriminate|]. intros [H | (k' & Hk & _ & H)]; [discriminate|].
          inversion Hk; subst k'. apply Z.ltb_lt in Hl. lia.
        * split; [|reflexivity]. intros _. right. exists (String a k).
          split; [reflexivity|]. split; [exact Hp|]. apply Z.ltb_ge in Hl. exact Hl.
      + split; [discriminate|]. intros [H | (k' & Hk & H & _)]; [discriminate|].
        inversion Hk; subst k'. rewrite Hp in H. discriminate.
    - split; [left; reflexivity | reflexivity]. }
  split; [exact Hiff|].
  split.
  { intros k. unfold Validators.isValidApiKey.
    change Constants.API_KEY_PREFIX with "moltgram_".
    rewrite andb_true_iff, Z.leb_le. reflexivity. }
  split.
  { intros k -> Hne Hp. unfold Validators.validateApiKey.
    change Constants.API_KEY_PREFIX with "moltgram_".
    destruct k as [|a k]; [contradiction|]. simpl Js.truthy. cbn [negb Js.nullish].
    rewrite Hp. reflexivity. }
  split.
  { intros k -> Hp Hl. unfold Validators.validateApiKey.
    change Constants.API_KEY_PREFIX with "moltgram_".
    destruct k as [|a k]; [discriminate Hp|]. simpl Js.truthy. cbn [negb Js.nullish].
    rewrite Hp. cbn [negb].
    replace (Text.length (String a k) <? 25) with true by (symmetry; apply Z.ltb_lt; exact Hl).
    reflexivity. }
  intros k Hk Hne Hv. apply Hiff in Hv. destruct Hv as [Hv | (k' & Hk' & Hp & _)].
  - subst key. destruct k; [contradiction | discriminate].
  - rewrite Hk in Hk'. inversion Hk'; subst k'.
    unfold Methods.setApiKey. rewrite Hp. reflexivity.
Qed.

Lemma validateApiKey_agrees_witness :
  let st := Samples.stateOf None (Samples.always Pending) in
  Validators.validateApiKey (Some "moltgram_abcdefghijklmnopqrst") = None
  /\ fst (Methods.setApiKey "moltgram_abcdefghijklmnopqrst" st) = Normal tt
  /\ Validators.validateApiKey (Some "") = None
  /\ Validators.validateApiKey (Some "moltgram_test123")
     = Some (newConfigurationError "apiKey is too short")
  /\ (let e := String (ascii_of_nat 195) (String (ascii_of_nat 169) EmptyString) in
      let key := "moltgram_" ++ e ++ e ++ e ++ e ++ e ++ e ++ e ++ e in
      String.length key = 25%nat
      /\ Validators.validateApiKey (Some key)
         = Some (newConfigurationError "apiKey is too short")).
Proof.
  intros st.
  destruct (validateApiKey_agrees (Some "moltgram_abcdefghijklmnopqrst") st)
    as (H1 & _ & _ & _ & H5).
  assert (Hok : Validators.validateApiKey (Some "moltgram_abcdefghijklmnopqrst") = None).
  { apply H1. right. exists "moltgram_abcdefghijklmnopqrst".
    split; [reflexivity|]. split; [reflexivity | vm_compute; discriminate]. }
  split; [exact Hok|]. split; [|split; [|split]].
  - apply (H5 "moltgram_abcdefghijklmnopqrst" eq_refl); [discriminate | exact Hok].
  - apply (proj1 (validateApiKey_agrees (Some "") st)). left. reflexivity.
  - destruct (validateApiKey_agrees (Some "moltgram_test123") st) as (_ & _ & _ & H4 & _).
    apply (H4 "moltgram_test123" eq_refl); [reflexivity | reflexivity].
  - intros e key. split; [reflexivity|].
    destruct (validateApiKey_agrees (Some key) st) as (_ & _ & _ & H4 & _).
    apply (H4 key eq_refl); [reflexivity | reflexivity].
Defined.



(** * The comment helpers *)

Import Resources.

Lemma list_sum_length_flat_map {A B : Type} (f : A -> list B) (g : A -> nat) (l : list A) :
  Forall (fun x => List.length (f x) = g x) l ->
  List.length (flat_map f l) = list_sum (map g l).
Proof.
  induction 1 as [|x l Hx _ IH]; simpl; [reflexivity|].
  rewrite length_app, Hx, IH. reflexivity.
Qed.

(** An induction principle that reaches the replies of a comment. *)
Lemma Comment_nested_ind (P : Comment -> Prop) :
  (forall d, P (mkComment d None)) ->
  (forall d l, Forall P l -> P (mkComment d (Some l))) ->
  forall c, P c.
Proof.
  intros Hnone Hsome. fix IH 1. intros [d [l|]].
  - apply Hsome. induction l as [|x l IHl]; constructor; [apply IH | exact IHl].
  - apply Hnone.
Qed.

Lemma flattenItem_length (c : Comment) : List.length (flattenItem c) = countItem c.
Proof.
  induction c as [d | d l IH] using Comment_nested_ind; simpl; [reflexivity|].
  f_equal. apply list_sum_length_flat_map. exact IH.
Qed.

Lemma flattenItem_no_replies (c : Comment) :
  Forall (fun x => repliesOf x = None) (flattenItem c).
Proof.
  induction c as [d | d l IH] using Comment_nested_ind; simpl.
  - constructor; [reflexivity | constructor].
  - constructor; [reflexivity|].
    induction IH as [|x l Hx _ IHl]; simpl; [constructor|].
    apply Forall_app. split; assumption.
Qed.

Lemma flatten_flat (l : list Comment) :
  Forall (fun x => repliesOf x = None) l -> flatten l = l.
Proof.
  unfold flatten. induction 1 as [|[d r] l Hx _ IH]; simpl; [reflexivity|].
  simpl in Hx. subst r. rewrite IH. reflexivity.
Qed.

Lemma Forall_flat_map {A B : Type} (P : B -> Prop) (f : A -> list B) (l : list A) :
  (forall x, Forall P (f x)) -> Forall P (flat_map f l).
Proof.
  intros H. induction l as [|x l IH]; simpl; [constructor|].
  apply Forall_app. split; [apply H | exact IH].
Qed.

(** X18.  [flatten] lists every comment of a tree once, parents before
    their replies and siblings in order, each without its [replies]; so its
    length is what [count] returns, flattening twice changes nothing more,
    a list without replies is returned as it is, and a forest has at least
    as many comments as it has roots. *)
Theorem flatten_and_count (comments : list Comment) :
  List.length (flatten comments) = count comments
  /\ Forall (fun c => repliesOf c = None) (flatten comments)
  /\ flatten (flatten comments) = flatten comments
  /\ (Forall (fun c => repliesOf c = None) comments -> flatten comments = comments)
  /\ (List.length comments <= count comments)%nat
  /\ (forall d r rest,
         comments = mkComment d r :: rest ->
         flatten comments
         = (mkComment d None :: flatten (match r with Some l => l | None => [] end)
            ++ flatten rest)%list).
Proof.
  assert (Hflat : Forall (fun c => repliesOf c = None) (flatten comments))
    by (apply Forall_flat_map; apply flattenItem_no_replies).
  split.
  { unfold flatten, count. apply list_sum_length_flat_map.
    apply Forall_forall. intros c _. apply flattenItem_length. }
  split; [exact Hflat|].
  split; [apply flatten_flat; exact Hflat|].
  split; [apply flatten_flat|].
  split.
  { unfold count. induction comments as [|[d r] l IH]; simpl; [lia|].
    assert (Hrest : Forall (fun c => repliesOf c = None) (flatten l))
      by (apply Forall_flat_map; apply flattenItem_no_replies).
    specialize (IH Hrest). lia. }
  intros d r rest ->. unfold flatten. simpl. destruct r; reflexivity.
Qed.

Lemma flatten_and_count_witness :
  let d := fun i => {| id := i; content := "text"; score := 0; upvotes := 0; downvotes := 0;
                        parentId := None; depth := 0; authorName := "a";
                        authorDisplayName := None; createdAt := "2024-01-01" |} in
  let tree := [mkComment (d "1") (Some [mkComment (d "2") (Some [mkComment (d "3") None]);
                                        mkComment (d "4") (Some [])]);
               mkComment (d "5") None] in
  count tree = 5%nat
  /\ map (fun c => id (dataOf c)) (flatten tree) = ["1"; "2"; "3"; "4"; "5"]
  /\ flatten [mkComment (d "5") None] = [mkComment (d "5") None].
Proof.
  intros d tree.
  destruct (flatten_and_count tree) as (H1 & _).
  destruct (flatten_and_count [mkComment (d "5") None]) as (_ & _ & _ & H4 & _).
  split; [rewrite <- H1; reflexivity|].
  split; [reflexivity|].
  apply H4. constructor; [reflexivity | constructor].
Defined.

(** * The [retry] helper *)

Import Util.

Lemma backoffs_capped (delay maxDelay : Z) (k : nat) :
  forall attempt, Forall (fun d => d <= maxDelay) (backoffs delay maxDelay attempt k).
Proof.
  induction k as [|k IH]; intros attempt; simpl; constructor; [lia | apply IH].
Qed.


Section Retry.
Context {T E : Type}.
Variable fn : nat -> T + E.
Variables retries delay maxDelay : Z.
Variable onRetry : option (E -> Z -> option E).

Lemma retryLoop_S (n : nat) (attempt : Z) (last : option E) (run : Run) :
  retryLoop fn retries delay maxDelay onRetry (S n) attempt last run
  = let run1 := {| calls := S (calls run); slept := slept run |} in
    match fn (calls run) with
    | inl v => (inl v, run1)
    | inr error =>
        if retries <=? attempt then (inr (Some error), run1)
        else
          match match onRetry with
                | Some f => f error attempt
                | None => None
                end with
          | Some thrown => (inr (Some thrown), run1)
          | None =>
              retryLoop fn retries delay maxDelay onRetry n (attempt + 1) (Some error)
                {| calls := S (calls run);
                   slept := (slept run ++ [Z.min (delay * 2 ^ attempt) maxDelay])%list |}
          end
    end.
Proof. reflexivity. Qed.

(** The loop with [n] retries left: between one and [n + 1] calls, and
    before every call but the first the capped delay of its attempt. *)
Lemma retryLoop_trace (n : nat) :
  forall (attempt : Z) (last : option E) (run : Run),
    retries = attempt + Z.of_nat n ->
    let run' := snd (retryLoop fn retries delay maxDelay onRetry (S n) attempt last run) in
    exists k,
      (k <= n)%nat
      /\ calls run' = (calls run + S k)%nat
      /\ slept run' = (slept run ++ backoffs delay maxDelay attempt k)%list.
Proof.
  induction n as [|m IH]; intros attempt last run Hr; cbv zeta.
  - rewrite retryLoop_S. cbv zeta. destruct (fn (calls run)) as [v|e].
    + exists 0%nat. cbn. rewrite app_nil_r. repeat split; lia.
    + replace (retries <=? attempt) with true by (symmetry; apply Z.leb_le; lia).
      exists 0%nat. cbn. rewrite app_nil_r. repeat split; lia.
  - rewrite retryLoop_S. cbv zeta. destruct (fn (calls run)) as [v|e].
    + exists 0%nat. cbn. rewrite app_nil_r. repeat split; lia.
    + replace (retries <=? attempt) with false by (symmetry; apply Z.leb_gt; lia).
      destruct (match onRetry with Some f => f e attempt | None => None end) as [thrown|].
      * exists 0%nat. cbn. rewrite app_nil_r. repeat split; lia.
      * destruct (IH (attempt + 1) (Some e)
                    {| calls := S (calls run);
                       slept := (slept run ++ [Z.min (delay * 2 ^ attempt) maxDelay])%list |})
          as (k & Hk & Hc & Hs); [lia|].
        exists (S k). split; [lia|]. split.
        -- rewrite Hc. cbn [calls]. lia.
        -- rewrite Hs. cbn [slept backoffs]. rewrite <- app_assoc. reflexivity.
Qed.

Lemma quiet_silent (e : E) (attempt : Z) :
  quiet onRetry ->
  match onRetry with Some f => f e attempt | None => None end = None.
Proof.
  intros Hq. destruct onRetry as [f|]; [apply (Hq f eq_refl) | reflexivity].
Qed.

(** [k] failures, then a success, with at least [k] retries left. *)
Lemma retryLoop_succeeds (v : T) (k : nat) :
  forall (n : nat) (attempt : Z) (last : option E) (run : Run),
    retries = attempt + Z.of_nat n ->
    (k <= n)%nat ->
    quiet onRetry ->
    (forall i, (i < k)%nat -> exists e, fn (calls run + i) = inr e) ->
    fn (calls run + k) = inl v ->
    retryLoop fn retries delay maxDelay onRetry (S n) attempt last run
    = (inl v, {| calls := calls run + S k;
                 slept := (slept run ++ backoffs delay maxDelay attempt k)%list |}).
Proof.
  induction k as [|k IH]; intros n attempt last run Hr Hk Hq Hfail Hok.
  - rewrite Nat.add_0_r in Hok. rewrite retryLoop_S. cbv zeta. rewrite Hok.
    cbn [backoffs]. rewrite app_nil_r. f_equal. f_equal. lia.
  - destruct n as [|m]; [lia|].
    destruct (Hfail 0%nat (Nat.lt_0_succ _)) as [e He]. rewrite Nat.add_0_r in He.
    rewrite retryLoop_S. cbv zeta. rewrite He.
    replace (retries <=? attempt) with false by (symmetry; apply Z.leb_gt; lia).
    rewrite (quiet_silent e attempt Hq). cbn [calls slept].
    rewrite (IH m (attempt + 1) (Some e) _); cbn [calls slept]; try assumption; try lia.
    + cbn [backoffs]. rewrite <- app_assoc. f_equal. f_equal. lia.
    + intros i Hi. replace (S (calls run) + i)%nat with (calls run + S i)%nat by lia.
      apply Hfail. lia.
    + replace (S (calls run) + k)%nat with (calls run + S k)%nat by lia. exact Hok.
Qed.

(** Failures throughout. *)
Lemma retryLoop_exhausts (n : nat) :
  forall (attempt : Z) (last : option E) (run : Run),
    retries = attempt + Z.of_nat n ->
    quiet onRetry ->
    (forall i, (i <= n)%nat -> exists e, fn (calls run + i) = inr e) ->
    exists e,
      fn (calls run + n) = inr e
      /\ retryLoop fn retries delay maxDelay onRetry (S n) attempt last run
         = (inr (Some e), {| calls := calls run + S n;
                             slept := (slept run ++ backoffs delay maxDelay attempt n)%list |}).
Proof.
  induction n as [|m IH]; intros attempt last run Hr Hq Hfail.
  - destruct (Hfail 0%nat (Nat.le_refl _)) as [e He].
    exists e. split; [exact He|]. rewrite Nat.add_0_r in He.
    rewrite retryLoop_S. cbv zeta. rewrite He.
    replace (retries <=? attempt) with true by (symmetry; apply Z.leb_le; lia).
    cbn [backoffs]. rewrite app_nil_r. f_equal. f_equal. lia.
  - destruct (Hfail 0%nat (Nat.le_0_l _)) as [e He]. rewrite Nat.add_0_r in He.
    destruct (IH (attempt + 1) (Some e)
                {| calls := S (calls run);
                   slept := (slept run ++ [Z.min (delay * 2 ^ attempt) maxDelay])%list |})
      as (e' & He' & Hrun); [lia | exact Hq | |].
    + intros i Hi. cbn [calls].
      replace (S (calls run) + i)%nat with (calls run + S i)%nat by lia.
      apply Hfail. lia.
    + cbn [calls slept] in He', Hrun.
      exists e'. split.
      * replace (calls run + S m)%nat with (S (calls run) + m)%nat by lia. exact He'.
      * rewrite retryLoop_S. cbv zeta. rewrite He.
        replace (retries <=? attempt) with false by (symmetry; apply Z.leb_gt; lia).
        rewrite (quiet_silent e attempt Hq). cbn [calls slept]. rewrite Hrun.
        cbn [backoffs]. rewrite <- app_assoc. f_equal. f_equal. lia.
Qed.

End Retry.

(** X19.  Whatever [fn] and [onRetry] do, [retry] with a retry count
    [r >= 0] calls [fn] at least once and at most [r + 1] times, and before
    every call but the first it has slept the delay of the attempt,
    [delay * 2^attempt], cut down to [maxDelay]: no sleep of [retry] is
    longer than [maxDelay] (30000 ms when the option is not given). *)
Theorem retry_backoff_is_capped {T E : Type} (fn : nat -> T + E) (options : RetryOptions E) :
  0 <= Js.nullish (opt_retries options) 3 ->
  let run := snd (retry fn options) in
  let maxDelay := Js.nullish (opt_maxDelay options) 30000 in
  exists k,
    (k <= Z.to_nat (Js.nullish (opt_retries options) 3%Z))%nat
    /\ calls run = S k
    /\ slept run = backoffs (Js.nullish (opt_delay options) 1000) maxDelay 0 k
    /\ Forall (fun d => d <= maxDelay) (slept run).
Proof.
  intros Hpos run maxDelay. subst run maxDelay. unfold retry.
  replace (Z.to_nat (Js.nullish (opt_retries options) 3 + 1))
    with (S (Z.to_nat (Js.nullish (opt_retries options) 3))) by lia.
  destruct (retryLoop_trace fn (Js.nullish (opt_retries options) 3)
              (Js.nullish (opt_delay options) 1000) (Js.nullish (opt_maxDelay options) 30000)
              (opt_onRetry options) (Z.to_nat (Js.nullish (opt_retries options) 3))
              0 None {| calls := 0; slept := [] |}) as (k & Hk & Hc & Hs); [lia|].
  cbv zeta in Hc, Hs. cbn [calls slept app] in Hc, Hs.
  exists k. split; [exact Hk|]. split; [exact Hc|]. split; [exact Hs|].
  rewrite Hs. apply backoffs_capped.
Qed.

Lemma retry_backoff_is_capped_witness :
  let fn := fun _ : nat => @inr nat string "down" in
  let options := {| opt_retries := Some 6; opt_delay := None; opt_maxDelay := None;
                    opt_onRetry := None |} in
  Forall (fun d => d <= 30000) (slept (snd (retry fn options)))
  /\ slept (snd (retry fn options)) = [1000; 2000; 4000; 8000; 16000; 30000]
  /\ calls (snd (retry fn options)) = 7%nat.
Proof.
  intros fn options.
  destruct (retry_backoff_is_capped fn options) as (k & _ & _ & _ & Hcap);
    [vm_compute; discriminate|].
  split; [exact Hcap|]. split; reflexivity.
Defined.

(** X20.  With an [onRetry] that does not throw (or none): when the first
    [k] calls of [fn] fail and the next one succeeds, [k] being at most the
    retry count, [retry] returns the value of that call after [k + 1] calls;
    when the first [r + 1] calls all fail it throws the error of the last of
    them, never an earlier one. *)
Theorem retry_outcome {T E : Type} (fn : nat -> T + E) (options : RetryOptions E) :
  let r := Js.nullish (opt_retries options) 3 in
  let d := Js.nullish (opt_delay options) 1000 in
  let m := Js.nullish (opt_maxDelay options) 30000 in
  0 <= r ->
  quiet (opt_onRetry options) ->
  (forall k v,
      Z.of_nat k <= r ->
      (forall i, (i < k)%nat -> exists e, fn i = inr e) ->
      fn k = inl v ->
      retry fn options = (inl v, {| calls := S k; slept := backoffs d m 0 k |}))
  /\ ((forall i, (i <= Z.to_nat r)%nat -> exists e, fn i = inr e) ->
      exists e,
        fn (Z.to_nat r) = inr e
        /\ retry fn options
           = (inr (Some e), {| calls := S (Z.to_nat r); slept := backoffs d m 0 (Z.to_nat r) |})).
Proof.
  intros r d m Hpos Hq. subst r d m. unfold retry.
  replace (Z.to_nat (Js.nullish (opt_retries options) 3 + 1))
    with (S (Z.to_nat (Js.nullish (opt_retries options) 3))) by lia.
  split.
  - intros k v Hk Hfail Hok.
    rewrite (retryLoop_succeeds fn _ _ _ _ v k); cbn [calls slept app];
      try assumption; try lia; reflexivity.
  - intros Hfail.
    destruct (retryLoop_exhausts fn (Js.nullish (opt_retries options) 3)
                (Js.nullish (opt_delay options) 1000) (Js.nullish (opt_maxDelay options) 30000)
                (opt_onRetry options) (Z.to_nat (Js.nullish (opt_retries options) 3))
                0 None {| calls := 0; slept := [] |}) as (e & He & Hrun);
      [lia | exact Hq | exact Hfail |].
    exists e. split; [exact He | exact Hrun].
Qed.

Lemma retry_outcome_witness :
  let fn := fun n : nat => if Nat.ltb n 2 then @inr nat string "down" else inl n in
  let none := {| opt_retries := None; opt_delay := None; opt_maxDelay := None;
                 opt_onRetry := None |} in
  retry fn none = (inl 2%nat, {| calls := 3; slept := [1000; 2000] |})
  /\ exists e, retry (fun _ : nat => @inr nat string "down") none
               = (inr (Some e), {| calls := 4; slept := [1000; 2000; 4000] |}).
Proof.
  intros fn none.
  assert (Hq : quiet (opt_onRetry none)) by (intros f Hf; discriminate).
  split.
  - destruct (retry_outcome fn none) as [H _]; [vm_compute; discriminate | exact Hq |].
    apply (H 2%nat 2%nat); [vm_compute; discriminate | | reflexivity].
    intros i Hi. exists "down". destruct i as [|[|i]]; [reflexivity | reflexivity | lia].
  - destruct (retry_outcome (fun _ : nat => @inr nat string "down") none) as [_ H];
      [vm_compute; discriminate | exact Hq |].
    destruct H as (e & _ & Hrun); [intros i _; exists "down"; reflexivity|].
    exists e. exact Hrun.
Defined.


(** * Iterating over pages *)

Import Pages.

Lemma iterateLoop_serve {A E : Type} (data : list A) (limit : Z) (fuel : nat) :
  0 < limit ->
  forall o : nat,
    (List.length (skipn o data) < fuel)%nat ->
    exists pages,
      iterateLoop (serve (E:=E) data) limit fuel (Z.of_nat o) = (pages, Done)
      /\ List.concat pages = skipn o data
      /\ Forall (fun p => p <> [] /\ Z.of_nat (List.length p) <= limit) pages.
Proof.
  intros Hl. induction fuel as [|fuel IH]; intros o Hfuel; [lia|].
  cbn [iterateLoop]. unfold serve at 1. rewrite Nat2Z.id.
  set (rest := skipn o data) in *.
  destruct (Z.of_nat (List.length (firstn (Z.to_nat limit) rest)) =? 0) eqn:E0.
  - apply Z.eqb_eq in E0. exists []. split; [reflexivity|]. split; [|constructor].
    rewrite length_firstn in E0. destruct rest; [reflexivity | simpl in E0; lia].
  - apply Z.eqb_neq in E0.
    destruct (Z.of_nat (List.length (firstn (Z.to_nat limit) rest)) =? limit) eqn:E1.
    + apply Z.eqb_eq in E1.
      assert (Hskip : skipn (o + Z.to_nat limit) data = skipn (Z.to_nat limit) rest)
        by (subst rest; rewrite skipn_skipn; f_equal; lia).
      destruct (IH (o + Z.to_nat limit)%nat) as (pages & Hrun & Hcat & Hall).
      { rewrite Hskip, length_skipn. rewrite length_firstn in E1. lia. }
      replace (Z.of_nat o + limit) with (Z.of_nat (o + Z.to_nat limit)) by lia.
      rewrite Hrun. cbn [fst snd].
      exists (firstn (Z.to_nat limit) rest :: pages).
      split; [reflexivity|]. split.
      * cbn [List.concat]. rewrite Hcat, Hskip. apply firstn_skipn.
      * constructor; [|exact Hall]. split; [|lia].
        intros Hnil. rewrite Hnil in E0. simpl in E0. lia.
    + apply Z.eqb_neq in E1.
      exists [firstn (Z.to_nat limit) rest]. split; [reflexivity|]. split.
      * cbn [List.concat]. rewrite app_nil_r. apply firstn_all2.
        rewrite length_firstn in E1. lia.
      * constructor; [|constructor]. split.
        -- intros Hnil. rewrite Hnil in E0. simpl in E0. lia.
        -- rewrite length_firstn. lia.
Qed.

(** X21.  Against a service that answers every page request with the items
    from the offset on, at most [limit] of them, out of a fixed list,
    [iterate] ends, and the pages it yields, put end to end, are exactly the
    items from the starting offset on, each once and in order; no page is
    empty or longer than the limit.  A limit of 0 or none stands for 25.
    When [list] rejects on the first page, [iterate] yields nothing and
    throws that error. *)
Theorem iterate_yields_every_item {A E : Type} (data : list A) (limit offset : option Z) :
  0 <= Js.or_defaultZ limit 25 ->
  0 <= Js.or_defaultZ offset 0 ->
  let l := Js.or_defaultZ limit 25 in
  let o := Z.to_nat (Js.or_defaultZ offset 0) in
  (forall fuel, (List.length data < fuel)%nat ->
      exists pages,
        iterate (serve (E:=E) data) limit offset fuel = (pages, Done)
        /\ List.concat pages = skipn o data
        /\ Forall (fun p => p <> [] /\ Z.of_nat (List.length p) <= l) pages)
  /\ 0 < l
  /\ (limit = None \/ limit = Some 0 -> l = 25)
  /\ (forall (listPage : Z -> Z -> list A + E) e fuel,
         listPage l (Js.or_defaultZ offset 0) = inr e ->
         iterate listPage limit offset (S fuel) = ([], Failed e)).
Proof.
  intros Hl Ho l o.
  assert (Hpos : 0 < l).
  { subst l. unfold Js.or_defaultZ in *. destruct limit as [z|]; [|lia].
    destruct (z =? 0) eqn:Ez; [lia|]. apply Z.eqb_neq in Ez. lia. }
  split; [|split; [exact Hpos|split]].
  - intros fuel Hfuel. unfold iterate. fold l.
    replace (Js.or_defaultZ offset 0) with (Z.of_nat o) by (subst o; lia).
    apply iterateLoop_serve; [exact Hpos|].
    rewrite length_skipn. lia.
  - intros [-> | ->]; reflexivity.
  - intros listPage e fuel He. unfold iterate. fold l. cbn [iterateLoop]. rewrite He. reflexivity.
Qed.

Lemma iterate_yields_every_item_witness :
  List.concat (fst (iterate (serve (E:=string) [1; 2; 3; 4; 5; 6; 7]) (Some 3) None 8))
  = [1; 2; 3; 4; 5; 6; 7]
  /\ snd (iterate (serve (E:=string) [1; 2; 3; 4; 5; 6; 7]) (Some 3) None 8) = Done
  /\ List.concat (fst (iterate (serve (E:=string) [1; 2; 3; 4]) (Some 2) (Some 2) 5)) = [3; 4].
Proof.
  destruct (iterate_yields_every_item (E:=string) [1; 2; 3; 4; 5; 6; 7] (Some 3) None)
    as (H & _); [vm_compute; discriminate | vm_compute; discriminate |].
  destruct (H 8%nat) as (pages & Hrun & Hcat & _); [simpl; lia|].
  destruct (iterate_yields_every_item (E:=string) [1; 2; 3; 4] (Some 2) (Some 2))
    as (H' & _); [vm_compute; discriminate | vm_compute; discriminate |].
  destruct (H' 5%nat) as (pages' & Hrun' & Hcat' & _); [simpl; lia|].
  rewrite Hrun, Hrun'. cbn [fst snd].
  split; [exact Hcat|]. split; [reflexivity | exact Hcat'].
Defined.

(** * The credential of the environment *)

(** X22.  The constructor checks the credential of the configuration only.
    When the configuration gives none, or an empty one, the client takes the
    value of [MOLTBOOK_API_KEY] from the environment as it is, with or
    without the prefix, and sends it as the bearer credential when it is
    not empty. *)
Theorem environment_key_is_not_checked (env : ProcessEnv) (cfg : HttpClientConfig) :
  cfg_apiKey cfg = None \/ cfg_apiKey cfg = Some "" ->
  numbersValid cfg = true ->
  exists c,
    Client.constructor env cfg = inr c
    /\ apiKey (Client.httpClient c) = MOLTBOOK_API_KEY env
    /\ (forall k additional,
           MOLTBOOK_API_KEY env = Some k -> k <> "" ->
           prop (headersOf (Client.httpClient c) additional) "Authorization"
           = Some ("Bearer " ++ k)).
Proof.
  intros Hk Hn.
  assert (Hv : Client.validateConfig cfg = None).
  { apply validateConfig_numbers; [|exact Hn].
    destruct Hk as [-> | ->]; [exact I | reflexivity]. }
  exists (Client.mkMoltgramClient (Http.constructor env cfg)).
  unfold Client.constructor. rewrite Hv.
  assert (Hkey : apiKey (Http.constructor env cfg) = MOLTBOOK_API_KEY env)
    by (simpl; unfold or_else; destruct Hk as [-> | ->]; reflexivity).
  split; [reflexivity|]. split; [exact Hkey|].
  intros k additional He Hne. cbn [Client.httpClient].
  unfold headersOf. rewrite Hkey, He.
  destruct k; [contradiction|]. simpl Js.truthy. cbv iota.
  apply prop_set_same.
Qed.

Lemma environment_key_is_not_checked_witness :
  let env := {| MOLTBOOK_API_KEY := Some "sk-other"; MOLTBOOK_BASE_URL := None |} in
  exists c,
    Client.constructor env (Samples.configOf None None) = inr c
    /\ prop (headersOf (Client.httpClient c) None) "Authorization" = Some "Bearer sk-other".
Proof.
  intros env.
  destruct (environment_key_is_not_checked env (Samples.configOf None None))
    as (c & Hc & _ & Hh); [left; reflexivity | reflexivity |].
  exists c. split; [exact Hc|].
  apply (Hh "sk-other"); [reflexivity | discriminate].
Defined.

